(** * ShiftSavvy: the payroll engine of [app.py]

    A shallow embedding of the business logic of [app.py]
    ([calc_differential], [calc_shift_earnings], [compute_financials])
    together with the pandas and datetime operations it relies on.

    Conventions of the model:
    - SQLite [REAL] columns / Python floats are idealised as exact
      rationals [Q]; equalities between amounts are stated with [==].
    - A date (the [TEXT] column holding an ISO date, [pd.to_datetime] of
      it, a [pd.Timestamp] at midnight) is its proleptic Gregorian ordinal
      ([date.toordinal()]): day 1 is 0001-01-01, a Monday.
    - A DataFrame is the list of its rows, in row order; the [jobs] frame
      indexed by its primary key [id] is a finite map from identifiers.
    - Reads of the database and of the system clock are events of a small
      free monad; Python exceptions are a constructor of it. *)

From Stdlib Require Import ZArith QArith Qminmax String List Lia Lqa.
From Stdlib Require Import Permutation Sorted.
From stdpp Require Import gmap.
Import ListNotations.

Local Open Scope Z_scope.
Local Open Scope Q_scope.

(** ** Python builtins *)

Module Py.

Definition ltb (a b : Q) : bool :=
  match a ?= b with Lt => true | _ => false end.

(** [a <= b] on floats. *)
Definition leb (a b : Q) : bool := Qle_bool a b.

(** [min(a, b)]: the first argument unless the second is smaller. *)
Definition min (a b : Q) : Q := if ltb b a then b else a.

(** [max(a, b)]: the first argument unless the second is larger. *)
Definition max (a b : Q) : Q := if ltb a b then b else a.

(** [Series.sum()]; over exact rationals the order of summation is
    immaterial. *)
Definition sum (l : list Q) : Q := fold_right Qplus 0 l.

(** [Series.mean()] of a non-empty series. *)
Definition mean (l : list Q) : Q := sum l / inject_Z (Z.of_nat (length l)).

Inductive Exn : Type := KeyError | ValueError.

Inductive Result (A : Type) : Type :=
| Ok (a : A)
| Raised (e : Exn).
Arguments Ok {A} a.
Arguments Raised {A} e.

Definition bind {A B} (m : Result A) (k : A -> Result B) : Result B :=
  match m with
  | Ok a => k a
  | Raised e => Raised e
  end.

End Py.

Abbreviation Ok := Py.Ok.
Abbreviation Raised := Py.Raised.

(** ** Tables of [init_db] *)

Abbreviation date := Z (only parsing).

Record Job : Type := mkJob {
  job_name : string;
  base_rate : Q;
  ot_rule : string;
  ot_multiplier : Q;
  diff_type : string;
  diff_value : Q;
  active : bool
}.

Record Shift : Type := mkShift {
  shift_id : Z;
  job_id : Z;
  shift_date : date;
  hours : Q;
  shift_kind : string
}.

Record Expense : Type := mkExpense {
  expense_id : Z;
  category : string;
  amount : Q;
  expense_date : date;
  recurring : bool
}.

Record Settings : Type := mkSettings {
  currency : string;
  show_annual : bool;
  week_monday : bool
}.

(** ** Calendar *)

Module Calendar.

Local Open Scope Z_scope.

(** [date.weekday()]: Monday is 0, Sunday is 6. *)
Definition weekday (d : date) : Z := (d + 6) mod 7.

Definition MON : Z := 0.
Definition TUE : Z := 1.
Definition SUN : Z := 6.

(** [Timestamp.to_period('W-<anchor>')]: pandas anchors a weekly period
    on the weekday on which the week ENDS ('W' is 'W-SUN', the week
    Monday..Sunday). The period holding [d] ends on the first [anchor]
    weekday on or after [d] and starts six days before its end. *)
Definition period_end (anchor : Z) (d : date) : date :=
  d + (anchor - weekday d) mod 7.

Definition period_start (anchor : Z) (d : date) : date :=
  period_end anchor d - 6.

(** [.to_period('W-MON').start_time] as written in [compute_financials]. *)
Definition week_start_of (d : date) : date := period_start MON d.

(** The Monday on or before [d]: the Monday-start week holding [d]. *)
Definition monday_of (d : date) : date := d - weekday d.

(** [datetime._days_before_year]. *)
Definition days_before_year (y : Z) : Z :=
  let y1 := y - 1 in y1 * 365 + y1 / 4 - y1 / 100 + y1 / 400.

(** Year component of [datetime._ord2ymd]. *)
Definition year_of (ordinal : date) : Z :=
  let n := ordinal - 1 in
  let n400 := n / 146097 in
  let n := n mod 146097 in
  let n100 := n / 36524 in
  let n := n mod 36524 in
  let n4 := n / 1461 in
  let n := n mod 1461 in
  let n1 := n / 365 in
  let y := n400 * 400 + 1 + n100 * 100 + n4 * 4 + n1 in
  if (n1 =? 4) || (n100 =? 4) then y - 1 else y.

(** [datetime._isoweek1monday]. *)
Definition isoweek1monday (y : Z) : Z :=
  let firstday := days_before_year y + 1 in
  let firstweekday := (firstday + 6) mod 7 in
  let week1monday := firstday - firstweekday in
  if 3 <? firstweekday then week1monday + 7 else week1monday.

(** [date.isocalendar()]: ISO year and ISO week number. *)
Definition isocalendar (d : date) : Z * Z :=
  let y := year_of d in
  let week := (d - isoweek1monday y) / 7 in
  if week <? 0 then
    (y - 1, (d - isoweek1monday (y - 1)) / 7 + 1)
  else if (52 <=? week) && (isoweek1monday (y + 1) <=? d) then
    (y + 1, 1)
  else (y, week + 1).

Definition iso_year (d : date) : Z := fst (isocalendar d).
Definition iso_week (d : date) : Z := snd (isocalendar d).

(** [pd.date_range(end=today, periods=n, freq='W-MON')]: the last [n]
    Mondays on or before [today], ascending. *)
Definition date_range_W_MON (today : date) (periods : nat) : list date :=
  map (fun i => monday_of today - 7 * Z.of_nat i) (rev (seq 0 periods)).

End Calendar.

(** ** DataFrame operations *)

Module Frame.

Section Keyed.
Context {K : Type} (eqb ltb : K -> K -> bool).

(** Insertion into an ascending list without duplicates. *)
Fixpoint insert_key (k : K) (ks : list K) : list K :=
  match ks with
  | [] => [k]
  | k' :: rest =>
      if eqb k k' then ks
      else if ltb k k' then k :: ks
      else k' :: insert_key k rest
  end.

(** The distinct keys of a column, ascending: the group keys of
    [groupby] (default [sort=True]). *)
Definition group_keys (ks : list K) : list K :=
  fold_right insert_key [] ks.

(** [df.groupby(key)]: one group per distinct key, groups in ascending
    key order, each holding its rows in frame order. *)
Definition groupby {A} (key : A -> K) (rows : list A) : list (K * list A) :=
  map (fun k => (k, List.filter (fun r => eqb (key r) k) rows))
      (group_keys (map key rows)).
End Keyed.

(** [df.groupby(key)[val].sum().reset_index()]. *)
Definition groupby_sum {A} (key : A -> Z) (val : A -> Q) (rows : list A)
  : list (Z * Q) :=
  map (fun g => (fst g, Py.sum (map val (snd g))))
      (groupby Z.eqb Z.ltb key rows).

(** Stable insertion for [ORDER BY key ASC]. *)
Fixpoint insert_by {A} (key : A -> Z) (x : A) (l : list A) : list A :=
  match l with
  | [] => [x]
  | y :: rest =>
      if (key x <=? key y)%Z then x :: l else y :: insert_by key x rest
  end.

(** [SELECT * FROM t ORDER BY key ASC] over the table in rowid order
    (rows with equal keys keep their rowid order). *)
Definition order_by {A} (key : A -> Z) (table : list A) : list A :=
  fold_right (insert_by key) [] table.

(** [df[col] = values] with a Python list: assigned by position; pandas
    raises [ValueError] when the lengths differ. *)
Definition assign_column {A B} (rows : list A) (values : list B)
  : Py.Result (list (A * B)) :=
  if Nat.eqb (length values) (length rows) then Ok (combine rows values)
  else Raised Py.ValueError.

(** [pd.merge(left, right, how='outer', on=key)] of two two-column
    frames: every left row paired with each right row of the same key
    (or with a missing value), then the right rows whose key no left row
    has; the result is ordered by key. *)
Definition outer_merge (left right : list (Z * Q))
  : list (Z * (option Q * option Q)) :=
  let matched :=
    flat_map (fun l =>
      match List.filter (fun r => Z.eqb (fst r) (fst l)) right with
      | [] => [(fst l, (Some (snd l), None))]
      | ms => map (fun r => (fst l, (Some (snd l), Some (snd r)))) ms
      end) left in
  let right_only :=
    flat_map (fun r =>
      if existsb (fun l => Z.eqb (fst l) (fst r)) left then []
      else [(fst r, (None, Some (snd r)))]) right in
  order_by fst (matched ++ right_only).

(** [.fillna(0.0)] on one cell. *)
Definition fillna (c : option Q) : Q :=
  match c with Some x => x | None => 0 end.

End Frame.

(** ** Business logic *)

Definition calc_differential (base_rate : Q) (diff_type : string) (diff_value : Q) : Q :=
  if (diff_type =? "percent")%string then base_rate * (diff_value / 100)
  else diff_value.

(** [calc_shift_earnings(row, job)]: (earnings, regular_hours, ot_hours). *)
Definition calc_shift_earnings (row : Shift) (job : Job) : Q * Q * Q :=
  let base_rate := base_rate job in
  let diff := calc_differential base_rate (diff_type job) (diff_value job) in
  let rate_with_diff := base_rate + diff in
  let hours := hours row in
  if (ot_rule job =? "daily_8")%string then
    let regular_hours := Py.min 8 hours in
    let ot_hours := Py.max 0 (hours - 8) in
    let earnings :=
      regular_hours * rate_with_diff
      + ot_hours * (rate_with_diff * ot_multiplier job) in
    (earnings, regular_hours, ot_hours)
  else
    (hours * rate_with_diff, hours, 0).

(** Components of the triple returned by [calc_shift_earnings]. *)
Definition earnings_of (t : Q * Q * Q) : Q := fst (fst t).
Definition regular_of (t : Q * Q * Q) : Q := snd (fst t).
Definition overtime_of (t : Q * Q * Q) : Q := snd t.

(** The differential-adjusted hourly rate of a job. *)
Definition rate_of (job : Job) : Q :=
  base_rate job + calc_differential (base_rate job) (diff_type job) (diff_value job).

(** A row of the [shifts] frame after the merge with [jobs] and the
    columns added up to [year]. *)
Record SRow : Type := mkSRow {
  r_shift : Shift;
  r_job : Job;
  earnings_initial : Q;
  daily_regular_hours : Q;
  daily_ot_hours : Q;
  week : Z;
  year : Z
}.

(** A row of the [shifts] frame of the result. *)
Record ShiftOut : Type := mkShiftOut {
  o_row : SRow;
  earnings : Q;
  week_start : date
}.

Record ExpenseOut : Type := mkExpenseOut {
  x_expense : Expense;
  x_week_start : date
}.

Definition GroupKey : Type := Z * Z * Z.

Definition key_eqb (a b : GroupKey) : bool :=
  let '(j1, y1, w1) := a in
  let '(j2, y2, w2) := b in
  (j1 =? j2)%Z && (y1 =? y2)%Z && (w1 =? w2)%Z.

(** Tuples compare lexicographically. *)
Definition key_ltb (a b : GroupKey) : bool :=
  let '(j1, y1, w1) := a in
  let '(j2, y2, w2) := b in
  (j1 <? j2)%Z
  || ((j1 =? j2)%Z && ((y1 <? y2)%Z || ((y1 =? y2)%Z && (w1 <? w2)%Z))).

Definition row_key (r : SRow) : GroupKey :=
  (job_id (r_shift r), year r, week r).

(** [shifts.merge(jobs.reset_index(), left_on="job_id", right_on="id")]:
    an inner join that keeps the order of the left rows; [id] is the
    primary key of [jobs], so a shift matches at most one job. *)
Definition merge_jobs (jobs : gmap Z Job) (shifts : list Shift) : list (Shift * Job) :=
  flat_map (fun s =>
    match jobs !! job_id s with
    | Some j => [(s, j)]
    | None => []
    end) shifts.

(** The loop over [shifts.iterrows()] and the [week] / [year] columns. *)
Definition initial_row (m : Shift * Job) : SRow :=
  let '(e, rhrs, othrs) := calc_shift_earnings (fst m) (snd m) in
  {| r_shift := fst m;
     r_job := snd m;
     earnings_initial := e;
     daily_regular_hours := rhrs;
     daily_ot_hours := othrs;
     week := Calendar.iso_week (shift_date (fst m));
     year := Calendar.iso_year (shift_date (fst m)) |}.

(** The locals [reg], [ot] of each iteration of the reallocation loop. *)
Fixpoint weekly_split (reg_left : Q) (group : list SRow) : list (Q * Q) :=
  match group with
  | [] => []
  | row :: rest =>
      let h := hours (r_shift row) in
      let reg := Py.min reg_left h in
      let ot := Py.max 0 (h - reg) in
      (reg, ot) :: weekly_split (reg_left - reg) rest
  end.

(** The loop [for _, row in group.iterrows()] building [job_adj]. *)
Fixpoint weekly_loop (rate_with_diff ot_mult reg_left : Q) (group : list SRow)
  : list Q :=
  match group with
  | [] => []
  | row :: rest =>
      let h := hours (r_shift row) in
      let reg := Py.min reg_left h in
      let ot := Py.max 0 (h - reg) in
      let reg_left := reg_left - reg in
      let pay := reg * rate_with_diff + ot * (rate_with_diff * ot_mult) in
      pay :: weekly_loop rate_with_diff ot_mult reg_left rest
  end.

(** Body of the loop over the groups, once [job = jobs.loc[job_id]] is
    known: the values the group appends to [adjusted_earnings]. *)
Definition adjust_group (job : Job) (group : list SRow) : list Q :=
  if negb (ot_rule job =? "weekly_40")%string then
    map earnings_initial group
  else
    let base_rate := base_rate job in
    let diff := calc_differential base_rate (diff_type job) (diff_value job) in
    let rate_with_diff := base_rate + diff in
    let ot_mult := ot_multiplier job in
    let total_hours := Py.sum (map (fun r => hours (r_shift r)) group) in
    if Py.leb total_hours 40 then
      map (fun r => hours (r_shift r) * rate_with_diff) group
    else
      weekly_loop rate_with_diff ot_mult 40 group.

(** The loop over [shifts.groupby(["job_id", "year", "week"])]. *)
Fixpoint adjust_groups (jobs : gmap Z Job) (groups : list (GroupKey * list SRow))
  : Py.Result (list Q) :=
  match groups with
  | [] => Ok []
  | (k, group) :: rest =>
      match jobs !! (fst (fst k)) with
      | None => Raised Py.KeyError
      | Some job =>
          Py.bind (adjust_groups jobs rest) (fun tl =>
          Ok (adjust_group job group ++ tl))
      end
  end.

Definition adjusted_earnings (jobs : gmap Z Job) (rows : list SRow)
  : Py.Result (list Q) :=
  adjust_groups jobs (Frame.groupby key_eqb key_ltb row_key rows).

(** Lines 200-257: the [shifts] frame with its [earnings] column. *)
Definition shift_earnings (jobs : gmap Z Job) (shifts : list Shift)
  : Py.Result (list (SRow * Q)) :=
  match shifts with
  | [] => Ok []
  | _ =>
      let rows := map initial_row (merge_jobs jobs shifts) in
      Py.bind (adjusted_earnings jobs rows) (fun adj =>
      Frame.assign_column rows adj)
  end.

Definition with_week_start (p : SRow * Q) : ShiftOut :=
  {| o_row := fst p;
     earnings := snd p;
     week_start := Calendar.week_start_of (shift_date (r_shift (fst p))) |}.

Definition expense_week (x : Expense) : ExpenseOut :=
  {| x_expense := x;
     x_week_start := Calendar.week_start_of (expense_date x) |}.

(** [weekly_earnings] (lines 263-268). *)
Definition weekly_earnings_of (shifts : list ShiftOut) : list (Z * Q) :=
  match shifts with
  | [] => []
  | _ => Frame.groupby_sum week_start earnings shifts
  end.

(** [weekly_expenses] (lines 265-269). *)
Definition weekly_expenses_of (expenses : list ExpenseOut) : list (Z * Q) :=
  match expenses with
  | [] => []
  | _ => Frame.groupby_sum x_week_start (fun x => amount (x_expense x)) expenses
  end.

(** [series.loc[series["week_start"] == w, col].sum()]. *)
Definition week_total (series : list (Z * Q)) (w : date) : Q :=
  Py.sum (map snd (List.filter (fun p => Z.eqb (fst p) w) series)).

(** [all_weeks] (line 279). *)
Definition all_weeks_of (weekly_earnings weekly_expenses : list (Z * Q))
  : list (Z * (Q * Q)) :=
  map (fun r => (fst r, (Frame.fillna (fst (snd r)), Frame.fillna (snd (snd r)))))
      (Frame.outer_merge weekly_earnings weekly_expenses).

(** Lines 278-284. *)
Definition projection_of (all_weeks : list (Z * (Q * Q))) : Q :=
  let avg_weekly_net :=
    if Nat.ltb 0 (length all_weeks) then
      Py.mean (map (fun r => fst (snd r) - snd (snd r)) all_weeks)
    else 0 in
  avg_weekly_net * 52.

Record Financials : Type := mkFinancials {
  f_jobs : gmap Z Job;
  f_shifts : list ShiftOut;
  f_expenses : list ExpenseOut;
  weekly_earnings : list (Z * Q);
  weekly_expenses : list (Z * Q);
  earnings_this_week : Q;
  expenses_this_week : Q;
  net_this_week : Q;
  projected_annual_net : Q
}.

(** ** Environment: database reads and the system clock *)

Inductive Req : Type -> Type :=
| ListJobs (active_only : bool) : Req (gmap Z Job)
| SelectShifts : Req (list Shift)
| SelectExpenses : Req (list Expense)
| DateToday : Req Z.

Inductive Eff (A : Type) : Type :=
| Ret (a : A)
| Raise (e : Py.Exn)
| Vis {X : Type} (q : Req X) (k : X -> Eff A).
Arguments Ret {A} a.
Arguments Raise {A} e.
Arguments Vis {A X} q k.

Fixpoint eff_bind {A B} (m : Eff A) (f : A -> Eff B) : Eff B :=
  match m with
  | Ret a => f a
  | Raise e => Raise e
  | Vis q k => Vis q (fun x => eff_bind (k x) f)
  end.

#[global] Instance eff_ret : MRet Eff := fun A a => Ret a.
#[global] Instance eff_mbind : MBind Eff := fun A B f m => eff_bind m f.

Definition trigger {X} (q : Req X) : Eff X := Vis q Ret.

Definition lift {A} (r : Py.Result A) : Eff A :=
  match r with
  | Ok a => Ret a
  | Raised e => Raise e
  end.

(** [list_jobs(active_only)]. *)
Definition list_jobs (active_only : bool) : Eff (gmap Z Job) :=
  trigger (ListJobs active_only).

(** The pure part of [compute_financials] after the three reads. *)
Definition weekly_view (jobs : gmap Z Job) (shifts : list Shift) (expenses : list Expense)
  : Py.Result (list ShiftOut * list ExpenseOut) :=
  Py.bind (shift_earnings jobs shifts) (fun rows =>
  Ok (map with_week_start rows, map expense_week expenses)).

Definition summarise (jobs : gmap Z Job) (shifts : list ShiftOut)
    (expenses : list ExpenseOut) (today : date) : Financials :=
  let weekly_earnings := weekly_earnings_of shifts in
  let weekly_expenses := weekly_expenses_of expenses in
  let current_week_start := Calendar.week_start_of today in
  let earnings_this_week := week_total weekly_earnings current_week_start in
  let expenses_this_week := week_total weekly_expenses current_week_start in
  let net_this_week := earnings_this_week - expenses_this_week in
  let all_weeks := all_weeks_of weekly_earnings weekly_expenses in
  {| f_jobs := jobs;
     f_shifts := shifts;
     f_expenses := expenses;
     weekly_earnings := weekly_earnings;
     weekly_expenses := weekly_expenses;
     earnings_this_week := earnings_this_week;
     expenses_this_week := expenses_this_week;
     net_this_week := net_this_week;
     projected_annual_net := projection_of all_weeks |}.

Definition compute_financials (settings : Settings) : Eff Financials :=
  jobs ← list_jobs true;
  shifts ← trigger SelectShifts;
  expenses ← trigger SelectExpenses;
  view ← lift (weekly_view jobs shifts expenses);
  today ← trigger DateToday;
  mret (summarise jobs (fst view) (snd view) today).

(** The world the application runs in: the three tables of [data.db] and
    the date of the system clock. *)
Record World : Type := mkWorld {
  db_jobs : gmap Z Job;
  db_shifts : list Shift;
  db_expenses : list Expense;
  clock_today : date
}.

Definition handle (w : World) {X} (q : Req X) : X :=
  match q in Req X return X with
  | ListJobs active_only =>
      if active_only then filter (fun kv => active (snd kv) = true) (db_jobs w)
      else db_jobs w
  | SelectShifts => Frame.order_by shift_date (db_shifts w)
  | SelectExpenses => Frame.order_by expense_date (db_expenses w)
  | DateToday => clock_today w
  end.

Fixpoint run {A} (w : World) (m : Eff A) : Py.Result A :=
  match m with
  | Ret a => Ok a
  | Raise e => Raised e
  | Vis q k => run w (k (handle w q))
  end.

Inductive Event : Type :=
| EvListJobs (active_only : bool)
| EvSelectShifts
| EvSelectExpenses
| EvDateToday.

Definition event_of {X} (q : Req X) : Event :=
  match q with
  | ListJobs b => EvListJobs b
  | SelectShifts => EvSelectShifts
  | SelectExpenses => EvSelectExpenses
  | DateToday => EvDateToday
  end.

(** The reads a computation performs when run in [w], in order. *)
Fixpoint trace {A} (w : World) (m : Eff A) : list Event :=
  match m with
  | Ret _ | Raise _ => []
  | Vis q k => event_of q :: trace w (k (handle w q))
  end.

(** ** Closed forms used by the proofs *)

(** The merged frame with the columns added up to [year]. *)
Definition rows_of (jobs : gmap Z Job) (shifts : list Shift) : list SRow :=
  map initial_row (merge_jobs jobs shifts).

Abbreviation groups_of rows := (Frame.groupby key_eqb key_ltb row_key rows).

(** What one group contributes to [adjusted_earnings]. *)
Definition group_values (jobs : gmap Z Job) (g : GroupKey * list SRow) : list Q :=
  match jobs !! fst (fst (fst g)) with
  | Some job => adjust_group job (snd g)
  | None => []
  end.

(** The [shifts] frame of the result. *)
Definition shifts_out (jobs : gmap Z Job) (shifts : list Shift) : list ShiftOut :=
  let rows := rows_of jobs shifts in
  map with_week_start
      (combine rows (flat_map (group_values jobs) (groups_of rows))).

(** The result of [compute_financials] in a world. *)
Definition financials_of (w : World) : Financials :=
  let jobs := handle w (ListJobs true) in
  summarise jobs
    (shifts_out jobs (handle w SelectShifts))
    (map expense_week (handle w SelectExpenses))
    (clock_today w).

(** Whether the job a shift refers to is in the [jobs] frame. *)
Definition has_job (jobs : gmap Z Job) (s : Shift) : bool :=
  match jobs !! job_id s with
  | Some _ => true
  | None => false
  end.

(** The world without the shifts whose job [list_jobs(True)] leaves out. *)
Definition without_dangling (w : World) : World :=
  {| db_jobs := db_jobs w;
     db_shifts := List.filter (has_job (handle w (ListJobs true))) (db_shifts w);
     db_expenses := db_expenses w;
     clock_today := clock_today w |}.

(** The [hours] column of a list of rows. *)
Definition hours_of (rows : list SRow) : list Q :=
  map (fun r => hours (r_shift r)) rows.

(** The rows of the result that belong to one job and one ISO week. *)
Definition week_rows (f : Financials) (k : GroupKey) : list SRow :=
  List.filter (fun r => key_eqb (row_key r) k) (map o_row (f_shifts f)).

(** Rows in ascending date order. *)
Definition by_date (a b : SRow) : Prop :=
  (shift_date (r_shift a) <= shift_date (r_shift b))%Z.

(** ** The projection as the specification words it *)

Module Spec.

(** The weeks present in either weekly series, each once. *)
Definition active_weeks (weekly_earnings weekly_expenses : list (Z * Q)) : list Z :=
  nodup Z.eq_dec (map fst weekly_earnings ++ map fst weekly_expenses).

(** The entry of a weekly series for a week, 0 when the week is missing. *)
Definition series_value (series : list (Z * Q)) (w : Z) : Q :=
  match find (fun p => Z.eqb (fst p) w) series with
  | Some p => snd p
  | None => 0
  end.

(** Weekly earnings minus weekly expenses. *)
Definition weekly_net (weekly_earnings weekly_expenses : list (Z * Q)) (w : Z) : Q :=
  series_value weekly_earnings w - series_value weekly_expenses w.

(** The mean of the weekly nets over the active weeks, times 52; 0 when
    no week has any activity. *)
Definition projected_annual_net (weekly_earnings weekly_expenses : list (Z * Q)) : Q :=
  let weeks := active_weeks weekly_earnings weekly_expenses in
  match weeks with
  | [] => 0
  | _ =>
      Py.sum (map (weekly_net weekly_earnings weekly_expenses) weeks)
      / inject_Z (Z.of_nat (length weeks)) * 52
  end.

End Spec.

(** The frame before [order_by] in [Frame.outer_merge], by keys: the keys
    of the left frame, then the keys only the right frame has. *)
Definition merged_keys (left right : list (Z * Q)) : list Z :=
  map fst left
  ++ List.filter (fun k => negb (existsb (fun l => Z.eqb (fst l) k) left)) (map fst right).

(** A row of the outer merge holds, once filled, the entries of its week. *)
Definition row_filled (left right : list (Z * Q)) (row : Z * (option Q * option Q)) : Prop :=
  Frame.fillna (fst (snd row)) = Spec.series_value left (fst row) /\
  Frame.fillna (snd (snd row)) = Spec.series_value right (fst row).

(** Pay of one iteration of the reallocation loop from its split. *)
Definition split_pay (rate ot_mult : Q) (p : Q * Q) : Q :=
  fst p * rate + snd p * (rate * ot_mult).

(** Once a shift has overtime, a later shift has no regular hours. *)
Definition overtime_then_no_regular (p q : Q * Q) : Prop :=
  0 < snd p -> fst q == 0.

(** Rows in non-decreasing order of their group key. *)
Definition by_group_key (a b : SRow) : Prop :=
  key_ltb (row_key b) (row_key a) = false.

(** Whether a date lies in the seven days that start on [t]. *)
Definition in_week_from (t d : Z) : bool := ((t <=? d) && (d <=? t + 6))%Z.

(** ** The dashboard chart ([page_dashboard], lines 314-321) *)

Module Dashboard.

(** [left.merge(right, on="week_start", how="left")]: every left row, in
    order, paired with each right row of its week or with a missing
    value. *)
Definition left_merge {V} (left : list (Z * V)) (right : list (Z * Q))
  : list (Z * (V * option Q)) :=
  flat_map (fun l =>
    match List.filter (fun r => Z.eqb (fst r) (fst l)) right with
    | [] => [(fst l, (snd l, None))]
    | ms => map (fun r => (fst l, (snd l, Some (snd r)))) ms
    end) left.

(** [df_plot]: the eight chart weeks with the [earnings] and [amount]
    columns merged in, filled and sorted. *)
Definition chart_frame (data : Financials) (today : Z) : list (Z * (Q * Q)) :=
  let weeks := Calendar.date_range_W_MON today 8 in
  let df_plot := map (fun m => (m, tt)) weeks in
  let df_plot := left_merge df_plot (weekly_earnings data) in
  let df_plot := left_merge df_plot (weekly_expenses data) in
  let df_plot :=
    map (fun r => (fst r, (Frame.fillna (snd (fst (snd r))),
                           Frame.fillna (snd (snd r))))) df_plot in
  Frame.order_by fst df_plot.

(** The data part of [page_dashboard]: the financials, then the chart
    frame built from a second read of the clock. *)
Definition page_dashboard (settings : Settings)
  : Eff (Financials * list (Z * (Q * Q))) :=
  data ← compute_financials settings;
  today ← trigger DateToday;
  mret (data, chart_frame data today).

End Dashboard.

(** ** The database: [init_db] and the helpers of lines 95-168

    The state is the content of the four tables of [init_db] together
    with the [sqlite_sequence] counters of the three [AUTOINCREMENT] keys.
    A helper opens a connection, runs its statements and commits; when a
    statement raises, nothing is committed and the tables stay as they
    were. Foreign keys are enforced ([PRAGMA foreign_keys = ON]). *)

Module Db.

Local Open Scope Z_scope.
Local Open Scope string_scope.

Inductive Exn : Type := IntegrityError | TypeError.

Inductive Res (A : Type) : Type :=
| Done (a : A)
| Fail (e : Exn).
Arguments Done {A} a.
Arguments Fail {A} e.

Definition bind {A B} (m : Res A) (k : A -> Res B) : Res B :=
  match m with
  | Done a => k a
  | Fail e => Fail e
  end.

(** The row of [settings]; its key is pinned to 1 by a [CHECK]. *)
Record SettingsRow : Type := mkSettingsRow {
  s_currency : string;
  s_show_annual_projection : Z;
  s_week_starts_monday : Z
}.

Record State : Type := mkState {
  tbl_settings : option SettingsRow;
  tbl_jobs : gmap Z Job;
  seq_jobs : Z;
  tbl_shifts : list Shift;
  seq_shifts : Z;
  tbl_expenses : list Expense;
  seq_expenses : Z
}.

(** A database whose tables were just created. *)
Definition fresh : State :=
  {| tbl_settings := None;
     tbl_jobs := ∅; seq_jobs := 0;
     tbl_shifts := []; seq_shifts := 0;
     tbl_expenses := []; seq_expenses := 0 |}.

Definition max_of (ids : list Z) : Z := fold_right Z.max 0 ids.

(** [INTEGER PRIMARY KEY AUTOINCREMENT]: one more than the largest key the
    table holds or ever held. *)
Definition next_id (seq : Z) (ids : list Z) : Z := Z.max seq (max_of ids) + 1.

Definition job_ids (st : State) : list Z := map fst (map_to_list (tbl_jobs st)).

(** The two [CHECK] constraints of [jobs]. *)
Definition job_check (j : Job) : bool :=
  ((ot_rule j =? "weekly_40") || (ot_rule j =? "daily_8"))
  && ((diff_type j =? "percent") || (diff_type j =? "fixed")).

(** [INSERT INTO jobs (name, ...) VALUES (...)]. *)
Definition insert_job (j : Job) (st : State) : Res State :=
  if job_check j then
    let id := next_id (seq_jobs st) (job_ids st) in
    Done {| tbl_settings := tbl_settings st;
            tbl_jobs := <[id := j]> (tbl_jobs st); seq_jobs := id;
            tbl_shifts := tbl_shifts st; seq_shifts := seq_shifts st;
            tbl_expenses := tbl_expenses st; seq_expenses := seq_expenses st |}
  else Fail IntegrityError.

(** [INSERT INTO shifts (job_id, ...) VALUES (...)]; [job_id] references
    [jobs(id)]. *)
Definition insert_shift (job shift_date : Z) (hours : Q) (shift_kind : string)
    (st : State) : Res State :=
  match tbl_jobs st !! job with
  | None => Fail IntegrityError
  | Some _ =>
      let id := next_id (seq_shifts st) (map shift_id (tbl_shifts st)) in
      Done {| tbl_settings := tbl_settings st;
              tbl_jobs := tbl_jobs st; seq_jobs := seq_jobs st;
              tbl_shifts := tbl_shifts st ++ [mkShift id job shift_date hours shift_kind];
              seq_shifts := id;
              tbl_expenses := tbl_expenses st; seq_expenses := seq_expenses st |}
  end.

(** [INSERT INTO expenses (category, ...) VALUES (...)]. *)
Definition insert_expense (category : string) (amount : Q) (expense_date : Z)
    (recurring : bool) (st : State) : State :=
  let id := next_id (seq_expenses st) (map expense_id (tbl_expenses st)) in
  {| tbl_settings := tbl_settings st;
     tbl_jobs := tbl_jobs st; seq_jobs := seq_jobs st;
     tbl_shifts := tbl_shifts st; seq_shifts := seq_shifts st;
     tbl_expenses := tbl_expenses st ++ [mkExpense id category amount expense_date recurring];
     seq_expenses := id |}.

Definition add_job (name : string) (base_rate : Q) (ot_rule : string) (ot_multiplier : Q)
    (diff_type : string) (diff_value : Q) (active : bool) (st : State) : Res State :=
  insert_job (mkJob name base_rate ot_rule ot_multiplier diff_type diff_value active) st.

(** [UPDATE jobs SET ... WHERE id=?]: the constraints are checked on the
    row that is rewritten; with no such row nothing happens. *)
Definition update_job (job : Z) (name : string) (base_rate : Q) (ot_rule : string)
    (ot_multiplier : Q) (diff_type : string) (diff_value : Q) (active : bool)
    (st : State) : Res State :=
  match tbl_jobs st !! job with
  | None => Done st
  | Some _ =>
      let j := mkJob name base_rate ot_rule ot_multiplier diff_type diff_value active in
      if job_check j then
        Done {| tbl_settings := tbl_settings st;
                tbl_jobs := <[job := j]> (tbl_jobs st); seq_jobs := seq_jobs st;
                tbl_shifts := tbl_shifts st; seq_shifts := seq_shifts st;
                tbl_expenses := tbl_expenses st; seq_expenses := seq_expenses st |}
      else Fail IntegrityError
  end.

(** [DELETE FROM jobs WHERE id=?], with [ON DELETE CASCADE] on the shifts
    of the deleted row. *)
Definition delete_job (job : Z) (st : State) : State :=
  match tbl_jobs st !! job with
  | None => st
  | Some _ =>
      {| tbl_settings := tbl_settings st;
         tbl_jobs := delete job (tbl_jobs st); seq_jobs := seq_jobs st;
         tbl_shifts := List.filter (fun s => negb (Z.eqb (job_id s) job)) (tbl_shifts st);
         seq_shifts := seq_shifts st;
         tbl_expenses := tbl_expenses st; seq_expenses := seq_expenses st |}
  end.

Definition add_shift (job shift_date : Z) (hours : Q) (shift_kind : string)
    (st : State) : Res State :=
  insert_shift job shift_date hours shift_kind st.

Definition add_expense (category : string) (amount : Q) (expense_date : Z)
    (recurring : bool) (st : State) : State :=
  insert_expense category amount expense_date recurring st.

(** [get_settings]: subscripting the missing row raises [TypeError]. *)
Definition get_settings (st : State) : Res Settings :=
  match tbl_settings st with
  | None => Fail TypeError
  | Some row =>
      Done {| currency := s_currency row;
              show_annual := negb (Z.eqb (s_show_annual_projection row) 0);
              week_monday := negb (Z.eqb (s_week_starts_monday row) 0) |}
  end.

(** [update_settings]: [UPDATE settings SET ... WHERE id=1]. *)
Definition update_settings (currency : string) (show_annual week_monday : bool)
    (st : State) : State :=
  match tbl_settings st with
  | None => st
  | Some _ =>
      {| tbl_settings :=
           Some {| s_currency := currency;
                   s_show_annual_projection := if show_annual then 1 else 0;
                   s_week_starts_monday := if week_monday then 1 else 0 |};
         tbl_jobs := tbl_jobs st; seq_jobs := seq_jobs st;
         tbl_shifts := tbl_shifts st; seq_shifts := seq_shifts st;
         tbl_expenses := tbl_expenses st; seq_expenses := seq_expenses st |}
  end.

(** The dates [init_db] asks for: [date.today()] and, evaluated by SQLite,
    [date('now')] and [date('now','start of month')]. *)
Record Clock : Type := mkClock {
  today : Z;
  sql_now : Z;
  sql_start_of_month : Z
}.

Definition seed_settings (st : State) : State :=
  match tbl_settings st with
  | Some _ => st
  | None =>
      {| tbl_settings := Some (mkSettingsRow "$" 1 0);
         tbl_jobs := tbl_jobs st; seq_jobs := seq_jobs st;
         tbl_shifts := tbl_shifts st; seq_shifts := seq_shifts st;
         tbl_expenses := tbl_expenses st; seq_expenses := seq_expenses st |}
  end.

Definition seed_jobs (st : State) : Res State :=
  if Nat.eqb (size (tbl_jobs st)) 0 then
    bind (insert_job (mkJob "RN - Staff" 38 "weekly_40" (3 # 2) "percent" 10 true) st)
         (insert_job (mkJob "RN - PRN" 55 "daily_8" (3 # 2) "fixed" 2 true))
  else Done st.

Definition weekend (d : Z) : bool :=
  ((Calendar.weekday d =? 5)%Z || (Calendar.weekday d =? 6)%Z)%bool.

Definition demo_dates (today : Z) : list Z :=
  map (fun i => today - i) [1; 2; 3; 5; 6].

Fixpoint insert_demo_shifts (dates : list Z) (st : State) : Res State :=
  match dates with
  | [] => Done st
  | d :: rest =>
      bind (insert_shift 1 d (if weekend d then 12 else 10)%Q
                         (if weekend d then "Night" else "Day") st)
           (insert_demo_shifts rest)
  end.

Definition seed_shifts (clk : Clock) (st : State) : Res State :=
  match tbl_shifts st with
  | [] => insert_demo_shifts (demo_dates (today clk)) st
  | _ => Done st
  end.

Definition seed_expenses (clk : Clock) (st : State) : State :=
  match tbl_expenses st with
  | [] =>
      insert_expense "Rent" 1500 (sql_start_of_month clk) true
        (insert_expense "Food" 120 (sql_now clk) false
           (insert_expense "Gas" 60 (sql_now clk) false st))
  | _ => st
  end.

(** [init_db]: the tables exist already; the seeds follow. *)
Definition init_db (clk : Clock) (st : State) : Res State :=
  bind (seed_jobs (seed_settings st)) (fun st =>
  bind (seed_shifts clk st) (fun st =>
  Done (seed_expenses clk st))).

(** What the helpers of the pages do to the database. *)
Inductive Command : Type :=
| InitDb (clk : Clock)
| AddJob (name : string) (base_rate : Q) (ot_rule : string) (ot_multiplier : Q)
         (diff_type : string) (diff_value : Q) (active : bool)
| UpdateJob (job : Z) (name : string) (base_rate : Q) (ot_rule : string)
            (ot_multiplier : Q) (diff_type : string) (diff_value : Q) (active : bool)
| DeleteJob (job : Z)
| AddShift (job shift_date : Z) (hours : Q) (shift_kind : string)
| AddExpense (category : string) (amount : Q) (expense_date : Z) (recurring : bool)
| UpdateSettings (currency : string) (show_annual week_monday : bool).

Definition exec (c : Command) (st : State) : Res State :=
  match c with
  | InitDb clk => init_db clk st
  | AddJob n b r m t v a => add_job n b r m t v a st
  | UpdateJob i n b r m t v a => update_job i n b r m t v a st
  | DeleteJob i => Done (delete_job i st)
  | AddShift j d h k => add_shift j d h k st
  | AddExpense c a d r => Done (add_expense c a d r st)
  | UpdateSettings c a m => Done (update_settings c a m st)
  end.

(** The tables after a command: a command that raises commits nothing. *)
Definition step (st : State) (c : Command) : State :=
  match exec c st with
  | Done st' => st'
  | Fail _ => st
  end.

Definition run_all (cs : list Command) (st : State) : State := fold_left step cs st.

(** Every shift refers to a job of the table. *)
Definition fk_ok (st : State) : Prop :=
  forall s, List.In s (tbl_shifts st) -> is_Some (tbl_jobs st !! job_id s).

(** Every job passes the [CHECK] constraints. *)
Definition checks_ok (st : State) : Prop :=
  forall i j, tbl_jobs st !! i = Some j -> job_check j = true.

(** The counters bound the keys in use, which are positive and, for the
    shifts, distinct. *)
Definition seqs_ok (st : State) : Prop :=
  (forall i j, tbl_jobs st !! i = Some j -> 1 <= i <= seq_jobs st) /\
  (forall s, List.In s (tbl_shifts st) -> 1 <= shift_id s <= seq_shifts st) /\
  List.NoDup (map shift_id (tbl_shifts st)).

Definition invariant (st : State) : Prop := fk_ok st /\ checks_ok st /\ seqs_ok st.

(** The world [compute_financials] runs in: the tables and a clock. *)
Definition world_of (st : State) (clock : Z) : World :=
  {| db_jobs := tbl_jobs st;
     db_shifts := tbl_shifts st;
     db_expenses := tbl_expenses st;
     clock_today := clock |}.

(** The query of [page_shifts] and [page_export]: the shifts joined to
    their jobs, whether active or not. *)
Record ShiftLine : Type := mkShiftLine {
  l_id : Z;
  l_job : string;
  l_shift_date : Z;
  l_hours : Q;
  l_shift_kind : string
}.

(** [... FROM shifts s JOIN jobs j ON s.job_id=j.id]. *)
Definition join_jobs (st : State) : list ShiftLine :=
  flat_map (fun s =>
    match tbl_jobs st !! job_id s with
    | Some j => [mkShiftLine (shift_id s) (job_name j) (shift_date s) (hours s) (shift_kind s)]
    | None => []
    end) (tbl_shifts st).

(** [... ORDER BY s.shift_date DESC]. *)
Definition shifts_with_jobs (st : State) : list ShiftLine :=
  Frame.order_by (fun l => - l_shift_date l) (join_jobs st).

(** Whether the job of a shift is in the table and active. *)
Definition job_active (st : State) (s : Shift) : bool :=
  match tbl_jobs st !! job_id s with
  | Some j => active j
  | None => false
  end.

End Db.

(** ** Sample data *)

Module Sample.

Local Open Scope Z_scope.
Local Open Scope string_scope.

(** The two jobs seeded by [init_db]. *)
Definition staff : Job := mkJob "RN - Staff" 38 "weekly_40" (3 # 2) "percent" 10 true.
Definition prn : Job := mkJob "RN - PRN" 55 "daily_8" (3 # 2) "fixed" 2 true.
Definition seeded_jobs : gmap Z Job := <[2 := prn]> (<[1 := staff]> ∅).

(** Job A of the end-to-end example: [daily_8], 38.0, no differential. *)
Definition job_A : Job := mkJob "A" 38 "daily_8" (3 # 2) "percent" 0 true.
Definition shift_10h : Shift := mkShift 1 1 738893 10 "Day".
Definition shift_6h : Shift := mkShift 2 1 738894 6 "Day".

(** Job B of the end-to-end example: [weekly_40], 55.0, fixed 2.0, and
    its shifts of one ISO week: Mon 12h, Tue 12h, Wed 12h, Thu 8h. *)
Definition job_B : Job := mkJob "B" 55 "weekly_40" (3 # 2) "fixed" 2 true.
Definition jobs_B : gmap Z Job := <[1 := job_B]> ∅.
Definition shifts_B : list Shift :=
  [ mkShift 1 1 738893 12 "Day"; mkShift 2 1 738894 12 "Day";
    mkShift 3 1 738895 12 "Day"; mkShift 4 1 738896 8 "Day" ].
Definition rows_B : list SRow := map initial_row (merge_jobs jobs_B shifts_B).

Definition settings : Settings := mkSettings "$" true false.

(** 2024-01-08 is a Monday; its ordinal is 738893. *)
Definition mon_2024_01_08 : Z := 738893.

(** An inactive job keeps its shifts in the table. *)
Definition retired : Job := mkJob "RN - Agency" 60 "daily_8" (3 # 2) "fixed" 0 false.
Definition shift_retired : Shift := mkShift 7 3 738893 8 "Day".
Definition world_dangling : World :=
  {| db_jobs := <[3 := retired]> seeded_jobs;
     db_shifts := [shift_retired; mkShift 8 2 738894 8 "Day"];
     db_expenses := [];
     clock_today := 738895 |}.

(** A job row that passed no CHECK constraint. *)
Definition odd_job : Job := mkJob "odd" 20 "monthly" 2 "bonus" 5 true.

(** Job B and its 44-hour week, read on the Friday. *)
Definition world_B : World :=
  {| db_jobs := Sample.jobs_B;
     db_shifts := Sample.shifts_B;
     db_expenses := [];
     clock_today := 738897 |}.

(** The seeded jobs with one shift each in the week of 2024-01-08: the
    [daily_8] job (id 2) on the Monday, the [weekly_40] job (id 1) on the
    Tuesday. *)
Definition world_interleaved : World :=
  {| db_jobs := Sample.seeded_jobs;
     db_shifts := [mkShift 1 2 738893 8 "Day"; mkShift 2 1 738894 8 "Day"];
     db_expenses := [];
     clock_today := 738895 |}.

(** One shift and one expense dated Monday 2024-01-08, read that day. *)
Definition world_monday : World :=
  {| db_jobs := Sample.seeded_jobs;
     db_shifts := [mkShift 1 1 Sample.mon_2024_01_08 8 "Day"];
     db_expenses := [mkExpense 1 "Gas" 60 Sample.mon_2024_01_08 false];
     clock_today := Sample.mon_2024_01_08 |}.

(** The interleaved week read one week later. *)
Definition world_interleaved_later : World :=
  {| db_jobs := db_jobs Sample.world_interleaved;
     db_shifts := db_shifts Sample.world_interleaved;
     db_expenses := db_expenses Sample.world_interleaved;
     clock_today := 738902 |}.

(** The same reads from different tables: rows stored in another order,
    one more inactive job. *)
Definition world_interleaved_shuffled : World :=
  {| db_jobs := <[3%Z := Sample.retired]> Sample.seeded_jobs;
     db_shifts := rev (db_shifts Sample.world_interleaved);
     db_expenses := [];
     clock_today := 738895 |}.
Definition other_settings : Settings := mkSettings "EUR" false true.

(** An empty database. *)
Definition world_empty : World :=
  {| db_jobs := ∅; db_shifts := []; db_expenses := []; clock_today := 738895 |}.

Definition clock_jan : Db.Clock := Db.mkClock 738895 738895 738886.
(** The database after the first start of the application. *)
Definition seeded : Db.State := Db.step Db.fresh (Db.InitDb clock_jan).

End Sample.

(** * Properties *)

(** ** Python comparisons, [min], [max], [sum] *)

Lemma ltb_true (a b : Q) : Py.ltb a b = true <-> a < b.
Proof.
  unfold Py.ltb. rewrite Qlt_alt.
  destruct (a ?= b); split; intro H; congruence.
Qed.

Lemma ltb_false (a b : Q) : Py.ltb a b = false <-> b <= a.
Proof.
  split; intro H.
  - apply Qnot_lt_le. intro Hlt. apply ltb_true in Hlt. congruence.
  - destruct (Py.ltb a b) eqn:E; [|reflexivity].
    apply ltb_true in E. exfalso. apply (Qlt_not_le _ _ E H).
Qed.

Lemma leb_true (a b : Q) : Py.leb a b = true <-> a <= b.
Proof. unfold Py.leb. apply Qle_bool_iff. Qed.

Lemma leb_false (a b : Q) : Py.leb a b = false <-> b < a.
Proof.
  split; intro H.
  - apply Qnot_le_lt. intro Hle. apply leb_true in Hle. congruence.
  - destruct (Py.leb a b) eqn:E; [|reflexivity].
    apply leb_true in E. exfalso. apply (Qlt_not_le _ _ H E).
Qed.

Lemma min_l (a b : Q) : a <= b -> Py.min a b = a.
Proof. intro H. unfold Py.min. apply ltb_false in H. now rewrite H. Qed.

Lemma min_r (a b : Q) : b < a -> Py.min a b = b.
Proof. intro H. unfold Py.min. apply ltb_true in H. now rewrite H. Qed.

Lemma max_l (a b : Q) : b <= a -> Py.max a b = a.
Proof. intro H. unfold Py.max. apply ltb_false in H. now rewrite H. Qed.

Lemma max_r (a b : Q) : a < b -> Py.max a b = b.
Proof. intro H. unfold Py.max. apply ltb_true in H. now rewrite H. Qed.

(** The two branches of the [daily_8] split. *)
Lemma daily_split_short (h : Q) :
  h <= 8 -> Py.min 8 h == h /\ Py.max 0 (h - 8) = 0.
Proof.
  intro H. split.
  - destruct (Qlt_le_dec h 8) as [Hlt | Hge].
    + now rewrite (min_r 8 h Hlt).
    + rewrite (min_l 8 h Hge). now apply Qle_antisym.
  - apply max_l. lra.
Qed.

Lemma daily_split_long (h : Q) :
  8 < h -> Py.min 8 h = 8 /\ Py.max 0 (h - 8) = h - 8.
Proof.
  intro H. split.
  - apply min_l. lra.
  - apply max_r. lra.
Qed.

Lemma calc_shift_earnings_daily (row : Shift) (job : Job) :
  ot_rule job = "daily_8"%string ->
  calc_shift_earnings row job =
    (Py.min 8 (hours row) * rate_of job
       + Py.max 0 (hours row - 8) * (rate_of job * ot_multiplier job),
     Py.min 8 (hours row), Py.max 0 (hours row - 8)).
Proof. intro H. unfold calc_shift_earnings, rate_of. now rewrite H. Qed.

Lemma calc_shift_earnings_other (row : Shift) (job : Job) :
  ot_rule job <> "daily_8"%string ->
  calc_shift_earnings row job = (hours row * rate_of job, hours row, 0).
Proof.
  intro H. unfold calc_shift_earnings, rate_of.
  destruct (String.eqb_spec (ot_rule job) "daily_8"); [contradiction | reflexivity].
Qed.

(** C2. For a [daily_8] job and one shift of [h >= 0] hours, with
    differential-adjusted rate [r] and multiplier [m]: when [h <= 8] the
    regular hours are [h], the overtime hours 0 and the earnings [h*r];
    when [h > 8] the regular hours are 8, the overtime hours [h-8] and the
    earnings [8*r + (h-8)*r*m]. With base rate 38, no differential,
    [m = 1.5] and [h = 10] the earnings are 418. *)
Theorem daily_8_single_shift (row : Shift) (job : Job) :
  ot_rule job = "daily_8"%string ->
  0 <= hours row ->
  let h := hours row in
  let r := rate_of job in
  let m := ot_multiplier job in
  let out := calc_shift_earnings row job in
  (h <= 8 ->
     regular_of out == h /\ overtime_of out == 0 /\ earnings_of out == h * r) /\
  (8 < h ->
     regular_of out == 8 /\ overtime_of out == h - 8 /\
     earnings_of out == 8 * r + (h - 8) * r * m) /\
  (base_rate job == 38 ->
   calc_differential (base_rate job) (diff_type job) (diff_value job) == 0 ->
   m == 3 # 2 -> h == 10 ->
     earnings_of out == 418).
Proof.
  intros Hrule Hpos h r m out.
  subst out. rewrite (calc_shift_earnings_daily row job Hrule).
  unfold earnings_of, regular_of, overtime_of; simpl. fold h r m.
  assert (Hshort : h <= 8 ->
            Py.min 8 h == h /\ Py.max 0 (h - 8) == 0 /\
            Py.min 8 h * r + Py.max 0 (h - 8) * (r * m) == h * r).
  { intro H. destruct (daily_split_short h H) as [Hmin Hmax].
    rewrite Hmax, Hmin. repeat split; try reflexivity. ring. }
  assert (Hlong : 8 < h ->
            Py.min 8 h == 8 /\ Py.max 0 (h - 8) == h - 8 /\
            Py.min 8 h * r + Py.max 0 (h - 8) * (r * m) == 8 * r + (h - 8) * r * m).
  { intro H. destruct (daily_split_long h H) as [Hmin Hmax].
    rewrite Hmax, Hmin. repeat split; try reflexivity. ring. }
  split; [exact Hshort | split; [exact Hlong |]].
  intros Hb Hd Hm Hh.
  assert (H8 : 8 < h) by (rewrite Hh; reflexivity).
  destruct (Hlong H8) as (_ & _ & He). rewrite He.
  assert (Hr : r == 38) by (unfold r, rate_of; rewrite Hd, Hb; reflexivity).
  rewrite Hr, Hm, Hh. reflexivity.
Qed.

Lemma daily_8_single_shift_witness :
  let out := calc_shift_earnings Sample.shift_10h Sample.job_A in
  regular_of out == 8 /\ overtime_of out == 10 - 8 /\ earnings_of out == 418.
Proof.
  assert (Hpos : 0 <= hours Sample.shift_10h) by (simpl; lra).
  destruct (daily_8_single_shift Sample.shift_10h Sample.job_A eq_refl Hpos)
    as (_ & Hlong & Hex).
  assert (H8 : 8 < hours Sample.shift_10h) by (simpl; lra).
  destruct (Hlong H8) as (Hreg & Hot & _).
  split; [exact Hreg | split; [exact Hot |]].
  apply Hex; reflexivity.
Defined.

(** ** The hours split of [calc_shift_earnings] *)

Lemma daily_split_total (h : Q) : Py.min 8 h + Py.max 0 (h - 8) == h.
Proof.
  destruct (Qlt_le_dec 8 h) as [Hlong | Hshort].
  - destruct (daily_split_long h Hlong) as [-> ->]. ring.
  - destruct (daily_split_short h Hshort) as [-> ->]. ring.
Qed.

Lemma daily_split_nonneg (h : Q) :
  0 <= h -> 0 <= Py.min 8 h /\ 0 <= Py.max 0 (h - 8).
Proof.
  intro Hh. destruct (Qlt_le_dec 8 h) as [Hlong | Hshort].
  - destruct (daily_split_long h Hlong) as [-> ->]. split; lra.
  - destruct (daily_split_short h Hshort) as [-> ->]. split; lra.
Qed.

(** C9. For every shift and job configuration the split returned by
    [calc_shift_earnings] satisfies regular + overtime = hours, and both
    parts are non-negative when the hours are, in the [daily_8] branch as
    in the weekly provisional branch. *)
Theorem calc_shift_earnings_split (row : Shift) (job : Job) :
  let out := calc_shift_earnings row job in
  regular_of out + overtime_of out == hours row /\
  (0 <= hours row -> 0 <= regular_of out /\ 0 <= overtime_of out).
Proof.
  intro out. subst out.
  destruct (String.eqb_spec (ot_rule job) "daily_8") as [Hd | Hw].
  - rewrite (calc_shift_earnings_daily row job Hd).
    unfold regular_of, overtime_of; simpl. split.
    + apply daily_split_total.
    + apply daily_split_nonneg.
  - rewrite (calc_shift_earnings_other row job Hw).
    unfold regular_of, overtime_of; simpl. split.
    + ring.
    + intro Hh. split; [exact Hh | lra].
Qed.

Lemma calc_shift_earnings_split_witness :
  let out := calc_shift_earnings Sample.shift_10h Sample.job_A in
  0 <= regular_of out /\ 0 <= overtime_of out.
Proof.
  apply (calc_shift_earnings_split Sample.shift_10h Sample.job_A).
  simpl. lra.
Defined.

(** ** Pricing: the differential is part of the hourly rate *)

Lemma weekly_loop_split (rate ot_mult reg_left : Q) (group : list SRow) :
  weekly_loop rate ot_mult reg_left group =
  map (fun p => fst p * rate + snd p * (rate * ot_mult))
      (weekly_split reg_left group).
Proof.
  revert reg_left. induction group as [| row rest IH]; intro reg_left.
  - reflexivity.
  - simpl. now rewrite IH.
Qed.

Lemma adjust_group_weekly (job : Job) (group : list SRow) :
  ot_rule job = "weekly_40"%string ->
  adjust_group job group =
    if Py.leb (Py.sum (map (fun r => hours (r_shift r)) group)) 40
    then map (fun r => hours (r_shift r) * rate_of job) group
    else weekly_loop (rate_of job) (ot_multiplier job) 40 group.
Proof. intro H. unfold adjust_group, rate_of. now rewrite H. Qed.

Lemma adjust_group_other (job : Job) (group : list SRow) :
  ot_rule job <> "weekly_40"%string ->
  adjust_group job group = map earnings_initial group.
Proof.
  intro H. unfold adjust_group.
  destruct (String.eqb_spec (ot_rule job) "weekly_40"); [contradiction | reflexivity].
Qed.

Lemma calc_shift_earnings_priced (row : Shift) (job : Job) :
  let out := calc_shift_earnings row job in
  earnings_of out ==
    regular_of out * rate_of job
    + overtime_of out * (rate_of job * ot_multiplier job).
Proof.
  intro out. subst out.
  destruct (String.eqb_spec (ot_rule job) "daily_8") as [Hd | Hw].
  - rewrite (calc_shift_earnings_daily row job Hd).
    unfold earnings_of, regular_of, overtime_of; simpl. reflexivity.
  - rewrite (calc_shift_earnings_other row job Hw).
    unfold earnings_of, regular_of, overtime_of; simpl. ring.
Qed.

(** C8. [calc_differential] returns [base_rate * value / 100] for the
    type [percent] and the value itself, whatever the base rate, for
    [fixed]. The amount is added to the base rate before hours are
    priced: the shift earnings calculator and the weekly reallocation
    loop both pay every regular hour [base_rate + differential] and
    every overtime hour [(base_rate + differential) * multiplier]. *)
Theorem differential_priced_into_rate :
  (forall base value, calc_differential base "percent" value == base * value / 100) /\
  (forall base value, calc_differential base "fixed" value = value) /\
  (forall row job,
     let out := calc_shift_earnings row job in
     let rate := base_rate job
                 + calc_differential (base_rate job) (diff_type job) (diff_value job) in
     earnings_of out ==
       regular_of out * rate + overtime_of out * (rate * ot_multiplier job)) /\
  (forall job group,
     let rate := base_rate job
                 + calc_differential (base_rate job) (diff_type job) (diff_value job) in
     ot_rule job = "weekly_40"%string ->
     Py.leb (Py.sum (map (fun r => hours (r_shift r)) group)) 40 = false ->
     adjust_group job group =
       map (fun p => fst p * rate + snd p * (rate * ot_multiplier job))
           (weekly_split 40 group)).
Proof.
  repeat split.
  - intros base value. unfold calc_differential; simpl. field.
  - intros row job. apply calc_shift_earnings_priced.
  - intros job group rate Hrule Hover. subst rate.
    rewrite (adjust_group_weekly job group Hrule), Hover.
    apply weekly_loop_split.
Qed.

Lemma differential_priced_into_rate_witness :
  adjust_group Sample.job_B Sample.rows_B =
    map (fun p => fst p * 57 + snd p * (57 * (3 # 2)))
        (weekly_split 40 Sample.rows_B).
Proof.
  apply (proj2 (proj2 (proj2 differential_priced_into_rate)) Sample.job_B Sample.rows_B);
    reflexivity.
Defined.

(** ** Group keys and groups *)

Lemma filter_all {A} (p : A -> bool) (l : list A) :
  (forall x, List.In x l -> p x = true) -> List.filter p l = l.
Proof.
  induction l as [| x rest IH]; intro H; simpl; [reflexivity |].
  rewrite (H x (or_introl eq_refl)). f_equal.
  apply IH. intros y Hy. apply H. now right.
Qed.

Section KeyedFacts.
Context {K : Type} (eqb ltb : K -> K -> bool).
Hypothesis eqb_eq : forall a b, eqb a b = true <-> a = b.
Hypothesis ltb_irrefl : forall a, ltb a a = false.
Hypothesis ltb_trans :
  forall a b c, ltb a b = true -> ltb b c = true -> ltb a c = true.
Hypothesis ltb_total :
  forall a b, eqb a b = false -> ltb a b = false -> ltb b a = true.

Let lt_key (a b : K) : Prop := ltb a b = true.

Lemma insert_key_In (k x : K) (ks : list K) :
  List.In x (Frame.insert_key eqb ltb k ks) <-> x = k \/ List.In x ks.
Proof.
  induction ks as [| k' rest IH]; simpl.
  - intuition.
  - destruct (eqb k k') eqn:E.
    + apply eqb_eq in E. subst k'. simpl. intuition.
    + destruct (ltb k k'); simpl; [intuition |].
      rewrite IH. intuition.
Qed.

Lemma insert_key_sorted (k : K) (ks : list K) :
  StronglySorted lt_key ks ->
  StronglySorted lt_key (Frame.insert_key eqb ltb k ks).
Proof.
  induction 1 as [| k' rest Hsorted IH Hall]; simpl.
  - repeat constructor.
  - destruct (eqb k k') eqn:E; [now constructor |].
    destruct (ltb k k') eqn:L.
    + constructor; [now constructor |].
      constructor; [exact L |].
      eapply List.Forall_impl; [| exact Hall].
      intros c Hc. exact (ltb_trans _ _ _ L Hc).
    + constructor; [exact IH |].
      apply List.Forall_forall. intros c Hc.
      apply insert_key_In in Hc. destruct Hc as [-> | Hc].
      * now apply ltb_total.
      * rewrite List.Forall_forall in Hall. now apply Hall.
Qed.

Lemma group_keys_In (x : K) (ks : list K) :
  List.In x (Frame.group_keys eqb ltb ks) <-> List.In x ks.
Proof.
  induction ks as [| k rest IH]; simpl; [tauto |].
  rewrite insert_key_In, IH. intuition.
Qed.

Lemma group_keys_sorted (ks : list K) :
  StronglySorted lt_key (Frame.group_keys eqb ltb ks).
Proof.
  induction ks as [| k rest IH]; simpl; [constructor |].
  now apply insert_key_sorted.
Qed.

Lemma sorted_NoDup (ks : list K) : StronglySorted lt_key ks -> List.NoDup ks.
Proof.
  induction 1 as [| k rest Hsorted IH Hall]; constructor; [| exact IH].
  intro Hin. rewrite List.Forall_forall in Hall.
  specialize (Hall k Hin). unfold lt_key in Hall.
  rewrite ltb_irrefl in Hall. discriminate.
Qed.

Lemma group_keys_NoDup (ks : list K) : List.NoDup (Frame.group_keys eqb ltb ks).
Proof. apply sorted_NoDup, group_keys_sorted. Qed.

Lemma existsb_key (k : K) (l : list K) :
  existsb (eqb k) l = true <-> List.In k l.
Proof.
  rewrite existsb_exists. split.
  - intros (x & Hin & Hx). apply eqb_eq in Hx. now subst.
  - intro Hin. exists k. split; [exact Hin | now apply eqb_eq].
Qed.

(** A group and the rows of the remaining keys interleave into the rows
    of all the keys. *)
Lemma filter_split_key {A} (key : A -> K) (k : K) (l : list K) (rows : list A) :
  ~ List.In k l ->
  Permutation
    (List.filter (fun r => eqb (key r) k) rows
       ++ List.filter (fun r => existsb (eqb (key r)) l) rows)
    (List.filter (fun r => existsb (eqb (key r)) (k :: l)) rows).
Proof.
  intro Hk. induction rows as [| r rest IH]; simpl; [constructor |].
  destruct (eqb (key r) k) eqn:E; simpl.
  - apply eqb_eq in E.
    destruct (existsb (eqb (key r)) l) eqn:X.
    + apply existsb_key in X. congruence.
    + now constructor.
  - destruct (existsb (eqb (key r)) l) eqn:X; [| exact IH].
    apply Permutation_sym, Permutation_cons_app, Permutation_sym, IH.
Qed.

Lemma groups_of_keys {A} (key : A -> K) (l : list K) (rows : list A) :
  List.NoDup l ->
  Permutation
    (flat_map (fun k => List.filter (fun r => eqb (key r) k) rows) l)
    (List.filter (fun r => existsb (eqb (key r)) l) rows).
Proof.
  induction 1 as [| k l Hk Hnd IH]; simpl.
  - induction rows as [| r rest IHr]; simpl; [constructor | exact IHr].
  - etransitivity; [| apply filter_split_key; exact Hk].
    now apply Permutation_app_head.
Qed.

(** The groups of [groupby] hold every row exactly once. *)
Lemma groupby_permutation {A} (key : A -> K) (rows : list A) :
  Permutation (flat_map snd (Frame.groupby eqb ltb key rows)) rows.
Proof.
  unfold Frame.groupby. rewrite flat_map_concat_map, map_map; simpl.
  rewrite <- flat_map_concat_map.
  etransitivity; [apply groups_of_keys, group_keys_NoDup |].
  rewrite filter_all; [reflexivity |].
  intros r Hr. apply existsb_key, group_keys_In, in_map, Hr.
Qed.

Lemma groupby_keys {A} (key : A -> K) (rows : list A) :
  map fst (Frame.groupby eqb ltb key rows) = Frame.group_keys eqb ltb (map key rows).
Proof. unfold Frame.groupby. rewrite map_map; simpl. apply map_id. Qed.

Lemma groupby_group {A} (key : A -> K) (rows : list A) (k : K) (g : list A) :
  List.In (k, g) (Frame.groupby eqb ltb key rows) ->
  List.In k (map key rows) /\ g = List.filter (fun r => eqb (key r) k) rows.
Proof.
  unfold Frame.groupby. rewrite in_map_iff.
  intros (k' & Heq & Hin). inversion Heq; subst.
  split; [now apply group_keys_In | reflexivity].
Qed.

End KeyedFacts.

(** ** The two key types *)

Ltac z_cases :=
  repeat match goal with
  | |- context [(?a =? ?b)%Z] => destruct (Z.eqb_spec a b)
  | |- context [(?a <? ?b)%Z] => destruct (Z.ltb_spec a b)
  | H : context [(?a =? ?b)%Z] |- _ => destruct (Z.eqb_spec a b)
  | H : context [(?a <? ?b)%Z] |- _ => destruct (Z.ltb_spec a b)
  end; simpl in *.

Lemma key_eqb_eq (a b : GroupKey) : key_eqb a b = true <-> a = b.
Proof.
  destruct a as [[j1 y1] w1], b as [[j2 y2] w2]. unfold key_eqb.
  split; intro H.
  - z_cases; try discriminate. congruence.
  - inversion H; subst. now rewrite !Z.eqb_refl.
Qed.

Lemma key_ltb_irrefl (a : GroupKey) : key_ltb a a = false.
Proof.
  destruct a as [[j y] w]. unfold key_ltb.
  rewrite !Z.ltb_irrefl, !Z.eqb_refl. reflexivity.
Qed.

Lemma key_ltb_trans (a b c : GroupKey) :
  key_ltb a b = true -> key_ltb b c = true -> key_ltb a c = true.
Proof.
  destruct a as [[j1 y1] w1], b as [[j2 y2] w2], c as [[j3 y3] w3].
  unfold key_ltb. intros H1 H2.
  z_cases; try discriminate; try reflexivity; lia.
Qed.

Lemma key_ltb_total (a b : GroupKey) :
  key_eqb a b = false -> key_ltb a b = false -> key_ltb b a = true.
Proof.
  destruct a as [[j1 y1] w1], b as [[j2 y2] w2].
  unfold key_eqb, key_ltb. intros H1 H2.
  z_cases; try discriminate; try reflexivity; lia.
Qed.

Lemma Z_ltb_total (a b : Z) : (a =? b)%Z = false -> (a <? b)%Z = false -> (b <? a)%Z = true.
Proof. intros H1 H2. z_cases; try discriminate; try reflexivity; lia. Qed.

Lemma Z_ltb_trans (a b c : Z) : (a <? b)%Z = true -> (b <? c)%Z = true -> (a <? c)%Z = true.
Proof. rewrite !Z.ltb_lt. lia. Qed.

(** ** The merge and the per-shift loop *)

Lemma merge_jobs_In (jobs : gmap Z Job) (shifts : list Shift) (s : Shift) (j : Job) :
  List.In (s, j) (merge_jobs jobs shifts) <->
  List.In s shifts /\ jobs !! job_id s = Some j.
Proof.
  unfold merge_jobs. rewrite in_flat_map. split.
  - intros (s' & Hin & Hm). destruct (jobs !! job_id s') as [j' |] eqn:E.
    + destruct Hm as [Hm | []]. inversion Hm; subst. auto.
    + destruct Hm.
  - intros [Hin Hj]. exists s. split; [exact Hin |]. rewrite Hj. now left.
Qed.

Lemma initial_row_shift (m : Shift * Job) : r_shift (initial_row m) = fst m.
Proof. unfold initial_row. now destruct (calc_shift_earnings _ _) as [[? ?] ?]. Qed.

Lemma initial_row_job (m : Shift * Job) : r_job (initial_row m) = snd m.
Proof. unfold initial_row. now destruct (calc_shift_earnings _ _) as [[? ?] ?]. Qed.

Lemma initial_row_calc (m : Shift * Job) :
  (earnings_initial (initial_row m), daily_regular_hours (initial_row m),
   daily_ot_hours (initial_row m)) = calc_shift_earnings (fst m) (snd m).
Proof. unfold initial_row. now destruct (calc_shift_earnings _ _) as [[? ?] ?]. Qed.

Lemma initial_row_week (m : Shift * Job) :
  year (initial_row m) = Calendar.iso_year (shift_date (fst m)) /\
  week (initial_row m) = Calendar.iso_week (shift_date (fst m)).
Proof. unfold initial_row. now destruct (calc_shift_earnings _ _) as [[? ?] ?]. Qed.

(** Every row of the merged frame carries the job its shift refers to. *)
Lemma rows_of_job (jobs : gmap Z Job) (shifts : list Shift) (r : SRow) :
  List.In r (rows_of jobs shifts) ->
  List.In (r_shift r) shifts /\ jobs !! job_id (r_shift r) = Some (r_job r).
Proof.
  unfold rows_of. rewrite in_map_iff. intros ([s j] & <- & Hin).
  rewrite initial_row_shift, initial_row_job. simpl.
  now apply merge_jobs_In.
Qed.

(** ** The loop over the groups never raises *)

Lemma weekly_loop_length (rate ot_mult reg_left : Q) (group : list SRow) :
  length (weekly_loop rate ot_mult reg_left group) = length group.
Proof.
  revert reg_left. induction group as [| row rest IH]; intro reg_left; simpl;
    [reflexivity | now rewrite IH].
Qed.

Lemma adjust_group_length (job : Job) (group : list SRow) :
  length (adjust_group job group) = length group.
Proof.
  unfold adjust_group.
  destruct (negb _); [apply length_map |].
  destruct (Py.leb _ _); [apply length_map | apply weekly_loop_length].
Qed.

Lemma adjust_groups_ok (jobs : gmap Z Job) (groups : list (GroupKey * list SRow)) :
  (forall g, List.In g groups -> is_Some (jobs !! fst (fst (fst g)))) ->
  adjust_groups jobs groups = Ok (flat_map (group_values jobs) groups).
Proof.
  induction groups as [| [k group] rest IH]; intro Hjobs; simpl; [reflexivity |].
  destruct (Hjobs (k, group) (or_introl eq_refl)) as [job Hjob]. simpl in Hjob.
  rewrite IH by (intros g Hg; apply Hjobs; now right). simpl.
  rewrite Hjob. unfold group_values. simpl. now rewrite Hjob.
Qed.

Lemma flat_map_length_eq {A B C} (f : A -> list B) (g : A -> list C) (l : list A) :
  (forall x, List.In x l -> length (f x) = length (g x)) ->
  length (flat_map f l) = length (flat_map g l).
Proof.
  induction l as [| x rest IH]; intro H; simpl; [reflexivity |].
  rewrite !length_app, (H x (or_introl eq_refl)), IH; [reflexivity |].
  intros y Hy. apply H. now right.
Qed.

Lemma groups_of_permutation (rows : list SRow) :
  Permutation (flat_map snd (groups_of rows)) rows.
Proof.
  apply groupby_permutation.
  - exact key_eqb_eq.
  - exact key_ltb_irrefl.
  - exact key_ltb_trans.
  - exact key_ltb_total.
Qed.

Lemma groups_of_job (jobs : gmap Z Job) (shifts : list Shift) (g : GroupKey * list SRow) :
  List.In g (groups_of (rows_of jobs shifts)) ->
  is_Some (jobs !! fst (fst (fst g))).
Proof.
  destruct g as [k group]. intro Hg.
  apply (groupby_group key_eqb key_ltb key_eqb_eq) in Hg. destruct Hg as [Hk _].
  apply in_map_iff in Hk. destruct Hk as (r & <- & Hr).
  apply rows_of_job in Hr. simpl. destruct Hr as [_ ->]. eauto.
Qed.

Lemma adjusted_earnings_ok (jobs : gmap Z Job) (shifts : list Shift) :
  let rows := rows_of jobs shifts in
  adjusted_earnings jobs rows = Ok (flat_map (group_values jobs) (groups_of rows)) /\
  length (flat_map (group_values jobs) (groups_of rows)) = length rows.
Proof.
  intro rows. split.
  - apply adjust_groups_ok. intros g Hg. now apply (groups_of_job jobs shifts).
  - rewrite <- (Permutation_length (groups_of_permutation rows)).
    apply flat_map_length_eq. intros g Hg.
    destruct (groups_of_job jobs shifts g Hg) as [job Hjob].
    unfold group_values. rewrite Hjob. apply adjust_group_length.
Qed.

(** Lines 200-257 always produce the [earnings] column. *)
Lemma shift_earnings_ok (jobs : gmap Z Job) (shifts : list Shift) :
  let rows := rows_of jobs shifts in
  shift_earnings jobs shifts =
    Ok (combine rows (flat_map (group_values jobs) (groups_of rows))).
Proof.
  intro rows. destruct (adjusted_earnings_ok jobs shifts) as [Hadj Hlen].
  fold rows in Hadj, Hlen.
  unfold shift_earnings. destruct shifts as [| s rest]; [reflexivity |].
  change (map initial_row (merge_jobs jobs (s :: rest))) with rows.
  rewrite Hadj. simpl. unfold Frame.assign_column.
  rewrite Hlen, Nat.eqb_refl. reflexivity.
Qed.

(** ** Running the engine *)

Lemma run_bind {A B} (w : World) (m : Eff A) (f : A -> Eff B) :
  run w (eff_bind m f) = Py.bind (run w m) (fun a => run w (f a)).
Proof.
  induction m as [a | e | X q k IH]; simpl; [reflexivity | reflexivity | apply IH].
Qed.

Lemma run_compute_financials (w : World) (settings : Settings) :
  run w (compute_financials settings) = Ok (financials_of w).
Proof.
  unfold compute_financials, list_jobs, trigger, mbind, eff_mbind, mret, eff_ret.
  simpl. rewrite run_bind. unfold weekly_view.
  rewrite shift_earnings_ok. simpl. reflexivity.
Qed.

(** ** [ORDER BY] *)

Section OrderBy.
Context {A : Type} (key : A -> Z).

Let le_key (a b : A) : Prop := (key a <= key b)%Z.

Lemma insert_by_In (x y : A) (l : list A) :
  List.In y (Frame.insert_by key x l) <-> y = x \/ List.In y l.
Proof.
  induction l as [| z rest IH]; simpl.
  - intuition.
  - destruct (key x <=? key z)%Z; simpl; [intuition |].
    rewrite IH. intuition.
Qed.

Lemma insert_by_sorted (x : A) (l : list A) :
  StronglySorted le_key l -> StronglySorted le_key (Frame.insert_by key x l).
Proof.
  induction 1 as [| z rest Hsorted IH Hall]; simpl.
  - repeat constructor.
  - destruct (Z.leb_spec (key x) (key z)) as [Hle | Hgt].
    + constructor; [now constructor |].
      constructor; [exact Hle |].
      eapply List.Forall_impl; [| exact Hall].
      intros c Hc. unfold le_key in *. lia.
    + constructor; [exact IH |].
      apply List.Forall_forall. intros c Hc.
      apply insert_by_In in Hc. destruct Hc as [-> | Hc].
      * unfold le_key. lia.
      * rewrite List.Forall_forall in Hall. now apply Hall.
Qed.

(** The query result is in ascending key order. *)
Lemma order_by_sorted (table : list A) :
  StronglySorted le_key (Frame.order_by key table).
Proof.
  induction table as [| x rest IH]; simpl; [constructor |].
  now apply insert_by_sorted.
Qed.

Lemma order_by_In (y : A) (table : list A) :
  List.In y (Frame.order_by key table) <-> List.In y table.
Proof.
  induction table as [| x rest IH]; simpl; [tauto |].
  rewrite insert_by_In, IH. intuition.
Qed.

Lemma insert_by_front (x : A) (l : list A) :
  Forall (le_key x) l -> Frame.insert_by key x l = x :: l.
Proof.
  destruct l as [| z rest]; [reflexivity |].
  intro H. inversion H as [| ? ? Hz _]; subst. simpl.
  unfold le_key in Hz. apply Z.leb_le in Hz. now rewrite Hz.
Qed.

Lemma filter_insert_by (p : A -> bool) (x : A) (l : list A) :
  StronglySorted le_key l ->
  List.filter p (Frame.insert_by key x l) =
    if p x then Frame.insert_by key x (List.filter p l) else List.filter p l.
Proof.
  induction 1 as [| z rest Hsorted IH Hall]; simpl.
  - now destruct (p x).
  - destruct (Z.leb_spec (key x) (key z)) as [Hle | Hgt]; simpl.
    + destruct (p x) eqn:Px; [| reflexivity].
      change (if p z then z :: List.filter p rest else List.filter p rest)
        with (List.filter p (z :: rest)).
      symmetry. apply insert_by_front.
      apply List.Forall_forall. intros c Hc.
      apply List.filter_In in Hc. destruct Hc as [[-> | Hc] _]; [exact Hle |].
      rewrite List.Forall_forall in Hall. specialize (Hall c Hc).
      unfold le_key in *. lia.
    + rewrite IH. destruct (p z) eqn:Pz, (p x) eqn:Px; simpl; try reflexivity.
      destruct (Z.leb_spec (key x) (key z)); [lia | reflexivity].
Qed.

(** Filtering the table or the query result gives the same rows. *)
Lemma order_by_filter (p : A -> bool) (table : list A) :
  Frame.order_by key (List.filter p table) =
  List.filter p (Frame.order_by key table).
Proof.
  induction table as [| x rest IH]; simpl; [reflexivity |].
  rewrite filter_insert_by by apply order_by_sorted.
  destruct (p x); simpl; now rewrite IH.
Qed.

End OrderBy.

(** ** Shifts whose job is not in the [jobs] frame *)

Lemma merge_jobs_filter (jobs : gmap Z Job) (shifts : list Shift) :
  merge_jobs jobs (List.filter (has_job jobs) shifts) = merge_jobs jobs shifts.
Proof.
  induction shifts as [| s rest IH]; simpl; [reflexivity |].
  unfold has_job at 1. destruct (jobs !! job_id s) as [j |] eqn:E; simpl.
  - now rewrite E, IH.
  - exact IH.
Qed.

Lemma shifts_out_have_job (jobs : gmap Z Job) (shifts : list Shift) (o : ShiftOut) :
  List.In o (shifts_out jobs shifts) ->
  List.In (r_shift (o_row o)) shifts /\
  jobs !! job_id (r_shift (o_row o)) = Some (r_job (o_row o)).
Proof.
  unfold shifts_out. rewrite in_map_iff. intros ([r e] & <- & Hin).
  apply in_combine_l in Hin. simpl. now apply rows_of_job.
Qed.

Lemma financials_without_dangling (w : World) :
  financials_of (without_dangling w) = financials_of w.
Proof.
  unfold financials_of, shifts_out, rows_of. simpl.
  now rewrite order_by_filter, merge_jobs_filter.
Qed.

(** C7 (amended). A shift that references a job identifier absent from
    the job collection read by the engine (the active jobs) raises no
    error: the inner join with the jobs drops it, so it has no row in the
    per-shift output and the whole result is the one computed from the
    same data without such shifts. *)
Theorem dangling_shift_dropped (w : World) (settings : Settings) :
  let jobs := handle w (ListJobs true) in
  exists f,
    run w (compute_financials settings) = Ok f /\
    (forall s, jobs !! job_id s = None ->
       forall o, List.In o (f_shifts f) -> r_shift (o_row o) <> s) /\
    run (without_dangling w) (compute_financials settings) = Ok f.
Proof.
  intro jobs. exists (financials_of w). split; [apply run_compute_financials |].
  split.
  - intros s Hs o Ho Heq.
    apply shifts_out_have_job in Ho. destruct Ho as [_ Ho].
    rewrite Heq in Ho. unfold jobs in Hs. congruence.
  - rewrite run_compute_financials. f_equal. apply financials_without_dangling.
Qed.

Lemma dangling_shift_dropped_witness :
  exists f,
    run Sample.world_dangling (compute_financials Sample.settings) = Ok f /\
    forall o, List.In o (f_shifts f) -> r_shift (o_row o) <> Sample.shift_retired.
Proof.
  destruct (dangling_shift_dropped Sample.world_dangling Sample.settings)
    as (f & Hrun & Hdrop & _).
  exists f. split; [exact Hrun |].
  apply Hdrop. vm_compute. reflexivity.
Defined.

(** C7 as stated fails: the shift of an inactive job is in the table, its
    job is not among the jobs the engine reads, and the engine returns a
    result whose per-shift rows leave that shift out. *)
Lemma dangling_shift_no_error :
  List.In Sample.shift_retired (db_shifts Sample.world_dangling) /\
  handle Sample.world_dangling (ListJobs true) !! job_id Sample.shift_retired = None /\
  exists f,
    run Sample.world_dangling (compute_financials Sample.settings) = Ok f /\
    map (fun o => shift_id (r_shift (o_row o))) (f_shifts f) = [8%Z].
Proof.
  split; [now left |]. split; [vm_compute; reflexivity |].
  exists (financials_of Sample.world_dangling).
  split; [apply run_compute_financials |].
  vm_compute. reflexivity.
Qed.

(** ** Unrecognised rule and type values *)

Lemma calc_differential_other (base : Q) (t : string) (value : Q) :
  t <> "percent"%string -> calc_differential base t value = value.
Proof.
  intro H. unfold calc_differential.
  destruct (String.eqb_spec t "percent"); [contradiction | reflexivity].
Qed.

(** C10. [calc_differential] treats every differential type other than
    [percent] as [fixed] and returns the raw value; [calc_shift_earnings]
    sends every overtime rule other than [daily_8] through the weekly
    provisional branch (all hours regular, earnings [hours * rate]); no
    error is raised: both functions are total and the engine itself
    returns a result in every world. *)
Theorem unrecognised_values_fall_through :
  (forall base t value,
     t <> "percent"%string -> calc_differential base t value = value) /\
  (forall row job,
     ot_rule job <> "daily_8"%string ->
     calc_shift_earnings row job =
       (hours row
          * (base_rate job
             + calc_differential (base_rate job) (diff_type job) (diff_value job)),
        hours row, 0)) /\
  (forall w settings, exists f, run w (compute_financials settings) = Ok f).
Proof.
  split; [exact calc_differential_other |].
  split; [exact calc_shift_earnings_other |].
  intros w settings. exists (financials_of w). apply run_compute_financials.
Qed.

Lemma unrecognised_values_fall_through_witness :
  calc_differential 20 "bonus" 5 = 5 /\
  calc_shift_earnings Sample.shift_10h Sample.odd_job = (10 * (20 + 5), 10, 0).
Proof.
  destruct unrecognised_values_fall_through as (Hdiff & Hrule & _).
  split.
  - apply Hdiff. discriminate.
  - apply (Hrule Sample.shift_10h Sample.odd_job). discriminate.
Defined.

(** ** The reallocation loop *)

Arguments Py.sum : simpl never.

Lemma sum_cons (x : Q) (l : list Q) : Py.sum (x :: l) = x + Py.sum l.
Proof. reflexivity. Qed.

Lemma sum_nonneg (l : list Q) : Forall (fun x => 0 <= x) l -> 0 <= Py.sum l.
Proof.
  induction 1 as [| x rest Hx _ IH]; [apply Qle_refl |].
  rewrite sum_cons. lra.
Qed.

(** One iteration: the overtime is what the regular part leaves. *)
Lemma split_step (reg_left h : Q) :
  Py.min reg_left h <= h /\
  Py.max 0 (h - Py.min reg_left h) == h - Py.min reg_left h.
Proof.
  destruct (Qlt_le_dec h reg_left) as [Hlt | Hge].
  - rewrite (min_r reg_left h Hlt). split; [lra |].
    rewrite max_l by lra. lra.
  - rewrite (min_l reg_left h Hge). split; [exact Hge |].
    destruct (Qlt_le_dec 0 (h - reg_left)) as [Hpos | Hzero].
    + now rewrite (max_r _ _ Hpos).
    + rewrite (max_l _ _ Hzero). lra.
Qed.

Lemma weekly_split_total (reg_left : Q) (group : list SRow) :
  Py.sum (map fst (weekly_split reg_left group))
  + Py.sum (map snd (weekly_split reg_left group))
  == Py.sum (hours_of group).
Proof.
  revert reg_left. induction group as [| row rest IH]; intro reg_left; simpl.
  - reflexivity.
  - rewrite !sum_cons. specialize (IH (reg_left - Py.min reg_left (hours (r_shift row)))).
    destruct (split_step reg_left (hours (r_shift row))) as [_ Hot].
    fold (hours_of rest). rewrite Hot. lra.
Qed.

(** With non-negative hours the regular hours use up the whole budget
    once the total reaches it. *)
Lemma weekly_split_regular (reg_left : Q) (group : list SRow) :
  0 <= reg_left ->
  Forall (fun r => 0 <= hours (r_shift r)) group ->
  reg_left <= Py.sum (hours_of group) ->
  Py.sum (map fst (weekly_split reg_left group)) == reg_left.
Proof.
  intros Hleft Hpos. revert reg_left Hleft.
  induction Hpos as [| row rest Hrow Hrest IH]; intros reg_left Hleft Htotal; simpl in *.
  - change (Py.sum []) with 0 in *. lra.
  - rewrite sum_cons in *. fold (hours_of rest) in *.
    set (h := hours (r_shift row)) in *.
    assert (Hsum : 0 <= Py.sum (hours_of rest)).
    { apply sum_nonneg. unfold hours_of. apply List.Forall_map. exact Hrest. }
    destruct (Qlt_le_dec h reg_left) as [Hlt | Hge].
    + rewrite (min_r reg_left h Hlt). rewrite IH; lra.
    + rewrite (min_l reg_left h Hge). rewrite IH; lra.
Qed.

Lemma weekly_split_over_40 (group : list SRow) :
  Forall (fun r => 0 <= hours (r_shift r)) group ->
  40 < Py.sum (hours_of group) ->
  Py.sum (map fst (weekly_split 40 group)) == 40 /\
  Py.sum (map snd (weekly_split 40 group)) == Py.sum (hours_of group) - 40.
Proof.
  intros Hpos Hover.
  assert (Hreg : Py.sum (map fst (weekly_split 40 group)) == 40).
  { apply weekly_split_regular; [lra | exact Hpos | lra]. }
  split; [exact Hreg |].
  pose proof (weekly_split_total 40 group) as Htot. lra.
Qed.

(** ** What the result records as hours *)

Lemma map_fst_combine {A B} (l : list A) (l' : list B) :
  length l' = length l -> map fst (combine l l') = l.
Proof.
  revert l'. induction l as [| x rest IH]; intros [| y rest'] Hlen; simpl in *;
    try reflexivity; try discriminate.
  f_equal. apply IH. now injection Hlen.
Qed.

Lemma shifts_out_rows (jobs : gmap Z Job) (shifts : list Shift) :
  map o_row (shifts_out jobs shifts) = rows_of jobs shifts.
Proof.
  unfold shifts_out. rewrite map_map. simpl.
  apply map_fst_combine. apply (adjusted_earnings_ok jobs shifts).
Qed.

Lemma run_inv (w : World) (settings : Settings) (f : Financials) :
  run w (compute_financials settings) = Ok f -> f = financials_of w.
Proof. rewrite run_compute_financials. congruence. Qed.

Lemma financials_rows (w : World) :
  map o_row (f_shifts (financials_of w)) =
  rows_of (handle w (ListJobs true)) (handle w SelectShifts).
Proof. apply shifts_out_rows. Qed.

(** The rows of a job that is not [daily_8] keep the provisional split. *)
Lemma provisional_split (jobs : gmap Z Job) (shifts : list Shift) (r : SRow) :
  List.In r (rows_of jobs shifts) ->
  ot_rule (r_job r) <> "daily_8"%string ->
  daily_regular_hours r = hours (r_shift r) /\ daily_ot_hours r = 0.
Proof.
  unfold rows_of. rewrite in_map_iff. intros (m & <- & _) Hrule.
  rewrite initial_row_job in Hrule.
  pose proof (initial_row_calc m) as Hcalc.
  rewrite (calc_shift_earnings_other _ _ Hrule) in Hcalc.
  rewrite initial_row_shift. now inversion Hcalc.
Qed.

Lemma sum_zeros {A} (f : A -> Q) (l : list A) :
  (forall x, List.In x l -> f x = 0) -> Py.sum (map f l) == 0.
Proof.
  induction l as [| x rest IH]; intro H; simpl; [reflexivity |].
  rewrite sum_cons, (H x (or_introl eq_refl)), IH; [lra |].
  intros y Hy. apply H. now right.
Qed.

Lemma week_rows_In (f : Financials) (k : GroupKey) (r : SRow) :
  List.In r (week_rows f k) <->
  List.In r (map o_row (f_shifts f)) /\ row_key r = k.
Proof. unfold week_rows. rewrite List.filter_In, key_eqb_eq. reflexivity. Qed.

Lemma week_rows_group (f : Financials) (k : GroupKey) :
  week_rows f k <> [] ->
  List.In (k, week_rows f k) (groups_of (map o_row (f_shifts f))).
Proof.
  intro Hne. unfold Frame.groupby.
  change (week_rows f k) with
    (List.filter (fun r => key_eqb (row_key r) k) (map o_row (f_shifts f))) at 1.
  apply (in_map (fun k' => (k', List.filter (fun r => key_eqb (row_key r) k')
                                  (map o_row (f_shifts f))))).
  apply (group_keys_In key_eqb key_ltb key_eqb_eq).
  destruct (week_rows f k) as [| r rest] eqn:E; [contradiction |].
  assert (Hr : List.In r (week_rows f k)) by (rewrite E; now left).
  apply week_rows_In in Hr. destruct Hr as [Hr <-]. now apply in_map.
Qed.

(** C3 (amended). For a [weekly_40] job whose shifts of one ISO week, all
    of non-negative length, total [T > 40] hours, the reallocation loop
    runs on exactly those shifts and splits their hours into regular
    hours summing to 40 and overtime hours summing to [T - 40], from which
    it prices the adjusted earnings; that split stays inside the loop.
    The per-shift output keeps the provisional split of the shift earnings
    calculator: its regular hours sum to [T] and its overtime hours to 0. *)
Theorem weekly_split_stays_internal
    (w : World) (settings : Settings) (f : Financials) (j y wk : Z) (job : Job) :
  run w (compute_financials settings) = Ok f ->
  handle w (ListJobs true) !! j = Some job ->
  ot_rule job = "weekly_40"%string ->
  let rows := week_rows f (j, y, wk) in
  let T := Py.sum (hours_of rows) in
  Forall (fun r => 0 <= hours (r_shift r)) rows ->
  40 < T ->
  let split := weekly_split 40 rows in
  List.In ((j, y, wk), rows) (groups_of (map o_row (f_shifts f))) /\
  Py.sum (map fst split) == 40 /\
  Py.sum (map snd split) == T - 40 /\
  adjust_group job rows =
    map (fun p => fst p * rate_of job + snd p * (rate_of job * ot_multiplier job)) split /\
  Py.sum (map daily_regular_hours rows) == T /\
  Py.sum (map daily_ot_hours rows) == 0.
Proof.
  intros Hrun Hjob Hrule rows T Hpos Hover split.
  apply run_inv in Hrun. subst f.
  destruct (weekly_split_over_40 rows Hpos Hover) as [Hreg Hot].
  assert (Hprov : forall r, List.In r rows ->
            daily_regular_hours r = hours (r_shift r) /\ daily_ot_hours r = 0).
  { intros r Hr. apply week_rows_In in Hr. destruct Hr as [Hr Hkey].
    rewrite financials_rows in Hr.
    apply (provisional_split _ _ r Hr).
    apply rows_of_job in Hr. destruct Hr as [_ Hr].
    injection Hkey as Hj _ _. rewrite Hj, Hjob in Hr.
    injection Hr as <-. rewrite Hrule. discriminate. }
  split; [| split; [exact Hreg | split; [exact Hot | split; [| split]]]].
  - apply week_rows_group. fold rows. intro Hnil.
    unfold T in Hover. rewrite Hnil in Hover. vm_compute in Hover. discriminate.
  - rewrite (adjust_group_weekly job rows Hrule).
    apply leb_false in Hover. unfold T, hours_of in Hover. rewrite Hover.
    apply weekly_loop_split.
  - unfold T, hours_of. rewrite (map_ext_in daily_regular_hours (fun r => hours (r_shift r)));
      [reflexivity |].
    intros r Hr. apply (Hprov r Hr).
  - apply sum_zeros. intros r Hr. apply (Hprov r Hr).
Qed.

Lemma weekly_split_stays_internal_witness :
  let rows := week_rows (financials_of Sample.world_B) (1, 2024, 2)%Z in
  Py.sum (map fst (weekly_split 40 rows)) == 40 /\
  Py.sum (map snd (weekly_split 40 rows)) == 44 - 40 /\
  Py.sum (map daily_regular_hours rows) == 44 /\
  Py.sum (map daily_ot_hours rows) == 0.
Proof.
  assert (Hpos : Forall (fun r => 0 <= hours (r_shift r))
                   (week_rows (financials_of Sample.world_B) (1, 2024, 2)%Z)).
  { vm_compute. repeat constructor; discriminate. }
  assert (Hover : 40 < Py.sum (hours_of (week_rows (financials_of Sample.world_B) (1, 2024, 2)%Z)))
    by (vm_compute; reflexivity).
  destruct (weekly_split_stays_internal Sample.world_B Sample.settings
              (financials_of Sample.world_B) 1 2024 2 Sample.job_B
              (run_compute_financials _ _) eq_refl eq_refl Hpos Hover)
    as (_ & Hreg & Hot & _ & Hdreg & Hdot).
  split; [exact Hreg | split; [| split; [| exact Hdot]]].
  - rewrite Hot. vm_compute. reflexivity.
  - rewrite Hdreg. vm_compute. reflexivity.
Defined.

(** C3 as stated fails: job B works Mon 12h, Tue 12h, Wed 12h and Thu 8h
    of one ISO week (44 hours). The earnings of the week are the
    reallocated 2622, yet the regular hours of the four output rows sum to
    44, not 40, and their overtime hours to 0, not 4. *)
Lemma weekly_hours_not_overwritten :
  exists f,
    run Sample.world_B (compute_financials Sample.settings) = Ok f /\
    let rows := week_rows f (1, 2024, 2)%Z in
    map (fun r => shift_id (r_shift r)) rows = [1; 2; 3; 4]%Z /\
    Py.sum (hours_of rows) == 44 /\
    Py.sum (map earnings (f_shifts f)) == 2622 /\
    Py.sum (map daily_regular_hours rows) == 44 /\
    Py.sum (map daily_ot_hours rows) == 0 /\
    ~ (Py.sum (map daily_regular_hours rows) == 40 /\
       Py.sum (map daily_ot_hours rows) == 44 - 40).
Proof.
  exists (financials_of Sample.world_B).
  split; [apply run_compute_financials |].
  repeat split; try (vm_compute; reflexivity).
  intros [H _]. vm_compute in H. discriminate.
Qed.

(** ** Where the adjusted earnings land *)

Section SortedMap.
Context {A B : Type} (f : A -> B) (R : B -> B -> Prop).

Lemma sorted_map (l : list A) :
  StronglySorted (fun a b => R (f a) (f b)) l -> StronglySorted R (map f l).
Proof.
  induction 1 as [| x rest Hsorted IH Hall]; simpl; constructor; [exact IH |].
  apply List.Forall_map. exact Hall.
Qed.

Lemma sorted_unmap (l : list A) :
  StronglySorted R (map f l) -> StronglySorted (fun a b => R (f a) (f b)) l.
Proof.
  induction l as [| x rest IH]; simpl; intro H; [constructor |].
  inversion H as [| ? ? Hsorted Hall]; subst.
  constructor; [now apply IH |]. exact (proj1 (List.Forall_map _ _ _) Hall).
Qed.
End SortedMap.

Lemma sorted_filter {A} (R : A -> A -> Prop) (p : A -> bool) (l : list A) :
  StronglySorted R l -> StronglySorted R (List.filter p l).
Proof.
  induction 1 as [| x rest Hsorted IH Hall]; simpl; [constructor |].
  destruct (p x); [| exact IH].
  constructor; [exact IH |].
  apply List.Forall_forall. intros y Hy. apply List.filter_In in Hy.
  rewrite List.Forall_forall in Hall. now apply Hall.
Qed.

Lemma merge_jobs_shifts (jobs : gmap Z Job) (shifts : list Shift) :
  map fst (merge_jobs jobs shifts) = List.filter (has_job jobs) shifts.
Proof.
  unfold merge_jobs.
  induction shifts as [| s rest IH]; simpl; [reflexivity |].
  unfold has_job at 1. destruct (jobs !! job_id s); simpl; now rewrite IH.
Qed.

Lemma rows_of_shifts (jobs : gmap Z Job) (shifts : list Shift) :
  map r_shift (rows_of jobs shifts) = List.filter (has_job jobs) shifts.
Proof.
  unfold rows_of. rewrite map_map, <- merge_jobs_shifts.
  apply map_ext. intro m. apply initial_row_shift.
Qed.

(** The rows of every group are in ascending date order: the frame is,
    because of the [ORDER BY] of the query. *)
Lemma group_rows_by_date (w : World) (g : GroupKey * list SRow) :
  List.In g (groups_of (map o_row (f_shifts (financials_of w)))) ->
  StronglySorted by_date (snd g).
Proof.
  rewrite financials_rows. destruct g as [k rows]. intro Hg.
  apply (groupby_group key_eqb key_ltb key_eqb_eq) in Hg.
  destruct Hg as [_ ->]. simpl. apply sorted_filter.
  apply (sorted_unmap r_shift (fun a b => (shift_date a <= shift_date b)%Z)).
  rewrite rows_of_shifts. apply sorted_filter.
  apply (order_by_sorted shift_date).
Qed.

Lemma group_keys_const {K} (eqb ltb : K -> K -> bool) (k : K) (ks : list K) :
  eqb k k = true -> ks <> [] -> (forall x, List.In x ks -> x = k) ->
  Frame.group_keys eqb ltb ks = [k].
Proof.
  intros Hrefl Hne Hall. induction ks as [| x rest IH]; [contradiction |].
  simpl. rewrite (Hall x (or_introl eq_refl)).
  destruct rest as [| x' rest'].
  - reflexivity.
  - rewrite IH; [| discriminate | intros z Hz; apply Hall; now right].
    simpl. now rewrite Hrefl.
Qed.

(** When the merged frame is one single group, the values of the group
    are assigned to its own rows. *)
Lemma single_group_earnings
    (jobs : gmap Z Job) (shifts : list Shift) (k : GroupKey) (job : Job) :
  let rows := rows_of jobs shifts in
  rows <> [] ->
  (forall r, List.In r rows -> row_key r = k) ->
  jobs !! fst (fst k) = Some job ->
  shifts_out jobs shifts =
    map with_week_start (combine rows (adjust_group job rows)).
Proof.
  intros rows Hne Hkey Hjob. unfold shifts_out. fold rows.
  unfold Frame.groupby.
  rewrite (group_keys_const key_eqb key_ltb k).
  - cbn [map flat_map]. rewrite app_nil_r. unfold group_values. cbn [fst snd].
    rewrite Hjob. rewrite filter_all; [reflexivity |].
    intros r Hr. apply key_eqb_eq. now apply Hkey.
  - now apply key_eqb_eq.
  - intro Hnil. apply map_eq_nil in Hnil. contradiction.
  - intros x Hx. apply in_map_iff in Hx. destruct Hx as (r & <- & Hr). now apply Hkey.
Qed.

(** C1 fails on the engine as written. The seeded [daily_8] job (id 2)
    works 8 hours on Monday 2024-01-08 and the seeded [weekly_40] job
    (id 1) 8 hours on the Tuesday. The [weekly_40] group totals 8 hours,
    so its shift should be paid [8 * 41.8 = 334.4]; the loop over the
    groups computes that value, but the values are written back by
    position in group-key order onto the date-ordered frame: the
    [weekly_40] shift ends up with 456, the [daily_8] pay, and the
    [daily_8] shift with 334.4. *)
Theorem interleaved_jobs_misassigned :
  exists f o_prn o_staff,
    run Sample.world_interleaved (compute_financials Sample.settings) = Ok f /\
    f_shifts f = [o_prn; o_staff] /\
    r_job (o_row o_prn) = Sample.prn /\
    r_job (o_row o_staff) = Sample.staff /\
    week_rows f (1, 2024, 2)%Z = [o_row o_staff] /\
    Py.leb (Py.sum (hours_of (week_rows f (1, 2024, 2)%Z))) 40 = true /\
    hours (r_shift (o_row o_staff)) * rate_of Sample.staff == 1672 # 5 /\
    earnings o_staff == 456 /\
    earnings_initial (o_row o_prn) == 456 /\
    earnings o_prn == 1672 # 5 /\
    ~ earnings o_staff == hours (r_shift (o_row o_staff)) * rate_of Sample.staff.
Proof.
  exists (financials_of Sample.world_interleaved). do 2 eexists.
  split; [apply run_compute_financials |].
  split; [vm_compute; reflexivity |].
  repeat split; try (vm_compute; reflexivity).
  intro H. vm_compute in H. discriminate.
Qed.

(** ** Week buckets *)

Lemma weekday_range (d : Z) : (0 <= Calendar.weekday d < 7)%Z.
Proof. unfold Calendar.weekday. apply Z.mod_pos_bound. lia. Qed.

(** The key of a bucket is always a Tuesday. *)
Lemma week_start_is_tuesday (d : Z) :
  Calendar.weekday (Calendar.week_start_of d) = Calendar.TUE.
Proof.
  unfold Calendar.week_start_of, Calendar.period_start, Calendar.period_end,
    Calendar.weekday, Calendar.MON, Calendar.TUE.
  Z.to_euclidean_division_equations. lia.
Qed.

Lemma week_start_bounds (d : Z) :
  (Calendar.week_start_of d <= d <= Calendar.week_start_of d + 6)%Z.
Proof.
  unfold Calendar.week_start_of, Calendar.period_start, Calendar.period_end,
    Calendar.weekday, Calendar.MON.
  Z.to_euclidean_division_equations. lia.
Qed.

Lemma monday_of_is_monday (d : Z) :
  Calendar.weekday (Calendar.monday_of d) = Calendar.MON /\
  (Calendar.monday_of d <= d <= Calendar.monday_of d + 6)%Z.
Proof.
  unfold Calendar.monday_of, Calendar.weekday, Calendar.MON.
  Z.to_euclidean_division_equations. lia.
Qed.

(** The Monday-start week is the period anchored on Sunday. *)
Lemma sunday_anchor_monday_start (d : Z) :
  Calendar.period_start Calendar.SUN d = Calendar.monday_of d.
Proof.
  unfold Calendar.period_start, Calendar.period_end, Calendar.monday_of,
    Calendar.weekday, Calendar.SUN.
  Z.to_euclidean_division_equations. lia.
Qed.

Lemma week_start_not_monday (d : Z) :
  Calendar.week_start_of d <> Calendar.monday_of d.
Proof.
  intro H. pose proof (week_start_is_tuesday d) as Ht.
  rewrite H in Ht. destruct (monday_of_is_monday d) as [Hm _].
  rewrite Hm in Ht. discriminate.
Qed.

(** The Mondays of the dashboard chart never meet a bucket key. *)
Lemma chart_weeks_miss_buckets (today : Z) (periods : nat) (m d : Z) :
  List.In m (Calendar.date_range_W_MON today periods) ->
  Calendar.week_start_of d <> m.
Proof.
  unfold Calendar.date_range_W_MON. rewrite in_map_iff.
  intros (i & <- & _) H.
  pose proof (week_start_is_tuesday d) as Ht. rewrite H in Ht.
  destruct (monday_of_is_monday today) as [Hm _].
  unfold Calendar.weekday, Calendar.TUE, Calendar.MON in *.
  Z.to_euclidean_division_equations. lia.
Qed.

(** C4 fails on the engine as written. A shift and an expense dated
    Monday 2024-01-08, read on that Monday: the Monday-start week holding
    that date starts on 2024-01-08 itself, but the engine keys the shift,
    the expense, both weekly series and the current week by 2024-01-02, a
    Tuesday: ['W-MON'] names the weeks that end on Monday. A Monday and
    the Tuesday after it, which share a Monday-start week, get different
    keys. *)
Theorem monday_bucketed_from_previous_tuesday :
  exists f,
    run Sample.world_monday (compute_financials Sample.settings) = Ok f /\
    Calendar.weekday Sample.mon_2024_01_08 = Calendar.MON /\
    Calendar.monday_of Sample.mon_2024_01_08 = Sample.mon_2024_01_08 /\
    map week_start (f_shifts f) = [Sample.mon_2024_01_08 - 6]%Z /\
    map x_week_start (f_expenses f) = [Sample.mon_2024_01_08 - 6]%Z /\
    map fst (weekly_earnings f) = [Sample.mon_2024_01_08 - 6]%Z /\
    map fst (weekly_expenses f) = [Sample.mon_2024_01_08 - 6]%Z /\
    Calendar.week_start_of (clock_today Sample.world_monday)
      = (Sample.mon_2024_01_08 - 6)%Z /\
    Calendar.weekday (Sample.mon_2024_01_08 - 6) = Calendar.TUE /\
    Calendar.monday_of (Sample.mon_2024_01_08 + 1) = Calendar.monday_of Sample.mon_2024_01_08 /\
    Calendar.week_start_of (Sample.mon_2024_01_08 + 1)
      <> Calendar.week_start_of Sample.mon_2024_01_08.
Proof.
  exists (financials_of Sample.world_monday).
  split; [apply run_compute_financials |].
  repeat split; try (vm_compute; reflexivity).
  vm_compute. discriminate.
Qed.

(** ** What the engine reads *)

Lemma trace_bind {A B} (w : World) (m : Eff A) (f : A -> Eff B) :
  trace w (eff_bind m f) =
  trace w m ++ match run w m with
               | Ok a => trace w (f a)
               | Raised _ => []
               end.
Proof.
  induction m as [a | e | X q k IH]; simpl; [reflexivity | reflexivity |].
  now rewrite IH.
Qed.

Lemma trace_compute_financials (w : World) (settings : Settings) :
  trace w (compute_financials settings) =
  [EvListJobs true; EvSelectShifts; EvSelectExpenses; EvDateToday].
Proof.
  unfold compute_financials, list_jobs, trigger, mbind, eff_mbind, mret, eff_ret.
  simpl. rewrite trace_bind. unfold weekly_view.
  rewrite shift_earnings_ok. simpl. reflexivity.
Qed.

(** C6 (amended). The payroll computation is a deterministic function of
    what it reads, and it does the reading itself: whatever the settings
    passed to it, [compute_financials] reads the active jobs, the shifts
    and the expenses from the database and then the reference date from
    the system clock ([date.today()]); the date is not a parameter. Two
    invocations that read identical jobs, shifts, expenses and clock date
    produce identical output. *)
Theorem output_determined_by_reads (w1 w2 : World) (s1 s2 : Settings) :
  trace w1 (compute_financials s1) =
    [EvListJobs true; EvSelectShifts; EvSelectExpenses; EvDateToday] /\
  (handle w1 (ListJobs true) = handle w2 (ListJobs true) ->
   handle w1 SelectShifts = handle w2 SelectShifts ->
   handle w1 SelectExpenses = handle w2 SelectExpenses ->
   handle w1 DateToday = handle w2 DateToday ->
   run w1 (compute_financials s1) = run w2 (compute_financials s2)).
Proof.
  split; [apply trace_compute_financials |].
  intros Hjobs Hshifts Hexpenses Htoday.
  rewrite !run_compute_financials. f_equal.
  unfold financials_of. simpl in Htoday.
  now rewrite Hjobs, Hshifts, Hexpenses, Htoday.
Qed.

Lemma output_determined_by_reads_witness :
  run Sample.world_interleaved (compute_financials Sample.settings) =
  run Sample.world_interleaved_shuffled (compute_financials Sample.other_settings).
Proof.
  apply (proj2 (output_determined_by_reads Sample.world_interleaved
                  Sample.world_interleaved_shuffled
                  Sample.settings Sample.other_settings));
    vm_compute; reflexivity.
Defined.

(** C6 as stated fails: the same jobs, shifts and expenses, the same
    argument, and two different results, because the engine reads the
    date from the clock: the reference date is not an input. *)
Lemma clock_read_inside_engine :
  db_jobs Sample.world_interleaved = db_jobs Sample.world_interleaved_later /\
  db_shifts Sample.world_interleaved = db_shifts Sample.world_interleaved_later /\
  db_expenses Sample.world_interleaved = db_expenses Sample.world_interleaved_later /\
  List.In EvDateToday (trace Sample.world_interleaved (compute_financials Sample.settings)) /\
  run Sample.world_interleaved (compute_financials Sample.settings) <>
  run Sample.world_interleaved_later (compute_financials Sample.settings).
Proof.
  repeat split.
  - rewrite trace_compute_financials. simpl. tauto.
  - rewrite !run_compute_financials. intro H.
    apply (f_equal (fun r => match r with
                             | Ok f => earnings_this_week f
                             | Raised _ => 0
                             end)) in H.
    vm_compute in H. discriminate.
Qed.

(** ** Weekly series *)

Lemma sum_permutation (l l' : list Q) : Permutation l l' -> Py.sum l == Py.sum l'.
Proof.
  induction 1 as [| x l l' _ IH | x y l | l l' l'' _ IH1 _ IH2].
  - reflexivity.
  - rewrite !sum_cons, IH. reflexivity.
  - rewrite !sum_cons. ring.
  - now rewrite IH1.
Qed.

Lemma insert_by_permutation {A} (key : A -> Z) (x : A) (l : list A) :
  Permutation (Frame.insert_by key x l) (x :: l).
Proof.
  induction l as [| y rest IH]; simpl; [reflexivity |].
  destruct (key x <=? key y)%Z; [reflexivity |].
  rewrite IH. apply perm_swap.
Qed.

Lemma order_by_permutation {A} (key : A -> Z) (table : list A) :
  Permutation (Frame.order_by key table) table.
Proof.
  induction table as [| x rest IH]; simpl; [reflexivity |].
  rewrite insert_by_permutation. now constructor.
Qed.

(** The keys of a [groupby(...).sum()] series are distinct. *)
Lemma groupby_sum_keys {A} (key : A -> Z) (val : A -> Q) (rows : list A) :
  map fst (Frame.groupby_sum key val rows) = Frame.group_keys Z.eqb Z.ltb (map key rows).
Proof.
  unfold Frame.groupby_sum. rewrite map_map. simpl.
  rewrite <- (groupby_keys Z.eqb Z.ltb key rows). reflexivity.
Qed.

Lemma groupby_sum_NoDup {A} (key : A -> Z) (val : A -> Q) (rows : list A) :
  List.NoDup (map fst (Frame.groupby_sum key val rows)).
Proof.
  rewrite groupby_sum_keys.
  apply (group_keys_NoDup Z.eqb Z.ltb Z.eqb_eq Z.ltb_irrefl Z_ltb_trans Z_ltb_total).
Qed.

Lemma weekly_earnings_NoDup (shifts : list ShiftOut) :
  List.NoDup (map fst (weekly_earnings_of shifts)).
Proof.
  destruct shifts as [| o rest]; [constructor |]. apply groupby_sum_NoDup.
Qed.

Lemma weekly_expenses_NoDup (expenses : list ExpenseOut) :
  List.NoDup (map fst (weekly_expenses_of expenses)).
Proof.
  destruct expenses as [| x rest]; [constructor |]. apply groupby_sum_NoDup.
Qed.

(** ** The outer merge of two series with distinct keys *)

Section Series.
Variable series : list (Z * Q).
Hypothesis series_keys : List.NoDup (map fst series).

Lemma filter_week_none (w : Z) :
  ~ List.In w (map fst series) ->
  List.filter (fun p => Z.eqb (fst p) w) series = [].
Proof.
  clear series_keys.
  induction series as [| p rest IH]; intro Hw; simpl; [reflexivity |].
  destruct (Z.eqb_spec (fst p) w) as [Heq | Hne].
  - exfalso. apply Hw. now left.
  - apply IH. intro Hin. apply Hw. now right.
Qed.

(** A week selects at most one entry, the one [find] returns. *)
Lemma filter_week (w : Z) :
  List.filter (fun p => Z.eqb (fst p) w) series =
  match find (fun p => Z.eqb (fst p) w) series with
  | Some p => [p]
  | None => []
  end.
Proof.
  induction series as [| p rest IH]; simpl; [reflexivity |].
  simpl in series_keys. apply NoDup_cons_iff in series_keys.
  destruct series_keys as [Hp Hrest].
  destruct (Z.eqb_spec (fst p) w) as [Heq | Hne].
  - subst w. f_equal.
    clear IH Hrest. induction rest as [| q rest' IH']; simpl; [reflexivity |].
    destruct (Z.eqb_spec (fst q) (fst p)) as [Heq | Hne].
    + exfalso. apply Hp. left. exact Heq.
    + apply IH'. intro Hin. apply Hp. now right.
  - now apply IH.
Qed.

Lemma series_value_In (p : Z * Q) :
  List.In p series -> Spec.series_value series (fst p) = snd p.
Proof.
  intro Hp. unfold Spec.series_value.
  assert (Hf : List.In p (List.filter (fun q => Z.eqb (fst q) (fst p)) series)).
  { apply List.filter_In. split; [exact Hp | apply Z.eqb_refl]. }
  rewrite filter_week in Hf.
  destruct (find _ series) as [q |]; [| destruct Hf].
  destruct Hf as [<- | []]. reflexivity.
Qed.

Lemma series_value_missing (w : Z) :
  ~ List.In w (map fst series) -> Spec.series_value series w = 0.
Proof.
  intro Hw. unfold Spec.series_value.
  destruct (find _ series) as [q |] eqn:E; [| reflexivity].
  apply find_some in E. destruct E as [Hq Heq].
  apply Z.eqb_eq in Heq. exfalso. apply Hw. subst w. now apply in_map.
Qed.

End Series.

Lemma existsb_week (left : list (Z * Q)) (k : Z) :
  existsb (fun l => Z.eqb (fst l) k) left = true <-> List.In k (map fst left).
Proof.
  rewrite existsb_exists, in_map_iff. split.
  - intros (l & Hl & Heq). apply Z.eqb_eq in Heq. eauto.
  - intros (l & Heq & Hl). exists l. split; [exact Hl | now apply Z.eqb_eq].
Qed.

Section OuterMerge.
Variables left right : list (Z * Q).
Hypothesis left_keys : List.NoDup (map fst left).
Hypothesis right_keys : List.NoDup (map fst right).

(** The rows of [Frame.outer_merge] before they are ordered. *)
Let matched : list (Z * (option Q * option Q)) :=
  flat_map (fun l =>
    match List.filter (fun r => Z.eqb (fst r) (fst l)) right with
    | [] => [(fst l, (Some (snd l), None))]
    | ms => map (fun r => (fst l, (Some (snd l), Some (snd r)))) ms
    end) left.

Let right_only : list (Z * (option Q * option Q)) :=
  flat_map (fun r =>
    if existsb (fun l => Z.eqb (fst l) (fst r)) left then []
    else [(fst r, (None, Some (snd r)))]) right.

Lemma outer_merge_unfold :
  Frame.outer_merge left right = Frame.order_by fst (matched ++ right_only).
Proof. reflexivity. Qed.

Lemma matched_rows_of (ls : list (Z * Q)) :
  (forall l, List.In l ls -> Spec.series_value left (fst l) = snd l) ->
  let rows :=
    flat_map (fun l =>
      match List.filter (fun r => Z.eqb (fst r) (fst l)) right with
      | [] => [(fst l, (Some (snd l), None))]
      | ms => map (fun r => (fst l, (Some (snd l), Some (snd r)))) ms
      end) ls in
  map fst rows = map fst ls /\ Forall (row_filled left right) rows.
Proof.
  induction ls as [| l rest IH]; intro Hleft; cbv zeta; cbn [flat_map];
    [split; constructor |].
  destruct IH as [IHk IHv]; [intros l' Hl'; apply Hleft; now right |].
  cbv zeta in IHk, IHv.
  rewrite map_app, IHk. rewrite (filter_week right right_keys (fst l)).
  pose proof (Hleft l (or_introl eq_refl)) as Hl.
  destruct (find (fun p => Z.eqb (fst p) (fst l)) right) as [r |] eqn:E.
  - split; [reflexivity |]. apply Forall_app. split; [| exact IHv].
    constructor; [| constructor].
    split; cbn [fst snd Frame.fillna]; [now symmetry |].
    unfold Spec.series_value. now rewrite E.
  - split; [reflexivity |]. apply Forall_app. split; [| exact IHv].
    constructor; [| constructor].
    split; cbn [fst snd Frame.fillna]; [now symmetry |].
    unfold Spec.series_value. now rewrite E.
Qed.

Lemma right_only_rows_of (rs : list (Z * Q)) :
  (forall r, List.In r rs -> Spec.series_value right (fst r) = snd r) ->
  let rows :=
    flat_map (fun r =>
      if existsb (fun l => Z.eqb (fst l) (fst r)) left then []
      else [(fst r, (None, Some (snd r)))]) rs in
  map fst rows =
    List.filter (fun k => negb (existsb (fun l => Z.eqb (fst l) k) left)) (map fst rs) /\
  Forall (row_filled left right) rows.
Proof.
  induction rs as [| r rest IH]; intro Hright; cbv zeta; cbn [flat_map map List.filter];
    [split; constructor |].
  destruct IH as [IHk IHv]; [intros r' Hr'; apply Hright; now right |].
  cbv zeta in IHk, IHv.
  destruct (existsb (fun l => Z.eqb (fst l) (fst r)) left) eqn:E; cbn [negb app].
  - split; assumption.
  - split; [cbn [map fst]; now rewrite IHk |]. constructor; [| exact IHv].
    split; cbn [fst snd Frame.fillna].
    + symmetry. apply series_value_missing.
      intro Hin. apply existsb_week in Hin. congruence.
    + symmetry. apply Hright. now left.
Qed.

Lemma matched_rows :
  map fst matched = map fst left /\ Forall (row_filled left right) matched.
Proof.
  apply matched_rows_of. intros l Hl. now apply series_value_In.
Qed.

Lemma right_only_rows :
  map fst right_only =
    List.filter (fun k => negb (existsb (fun l => Z.eqb (fst l) k) left)) (map fst right) /\
  Forall (row_filled left right) right_only.
Proof.
  apply right_only_rows_of. intros r Hr. now apply series_value_In.
Qed.

Lemma merged_rows_keys : map fst (matched ++ right_only) = merged_keys left right.
Proof.
  rewrite map_app. destruct matched_rows as [-> _].
  destruct right_only_rows as [-> _]. reflexivity.
Qed.

Lemma merged_keys_NoDup : List.NoDup (merged_keys left right).
Proof.
  unfold merged_keys. apply List.NoDup_app.
  - exact left_keys.
  - now apply List.NoDup_filter.
  - intros k Hk Hin. apply List.filter_In in Hin. destruct Hin as [_ Hneg].
    apply existsb_week in Hk. rewrite Hk in Hneg. discriminate.
Qed.

Lemma merged_keys_In (k : Z) :
  List.In k (merged_keys left right) <->
  List.In k (map fst left) \/ List.In k (map fst right).
Proof.
  unfold merged_keys. rewrite in_app_iff, List.filter_In. split.
  - intros [H | [H _]]; auto.
  - intros [H | H]; [now left |].
    destruct (existsb (fun l => Z.eqb (fst l) k) left) eqn:E.
    + left. now apply existsb_week.
    + right. now split.
Qed.

(** The outer merge keeps each week of either series exactly once. *)
Lemma merged_keys_active :
  Permutation (merged_keys left right) (Spec.active_weeks left right).
Proof.
  apply Permutation.NoDup_Permutation.
  - exact merged_keys_NoDup.
  - apply List.NoDup_nodup.
  - intro k. unfold Spec.active_weeks.
    rewrite merged_keys_In, List.nodup_In, in_app_iff. reflexivity.
Qed.

Lemma all_weeks_keys :
  Permutation (map fst (all_weeks_of left right)) (Spec.active_weeks left right).
Proof.
  unfold all_weeks_of. rewrite map_map. cbn [fst].
  rewrite outer_merge_unfold.
  etransitivity; [apply Permutation_map, order_by_permutation |].
  change (Permutation (map fst (matched ++ right_only))
            (Spec.active_weeks left right)).
  rewrite merged_rows_keys. exact merged_keys_active.
Qed.

(** Every row of [all_weeks] holds the two entries of its week, 0 for a
    missing one. *)
Lemma all_weeks_rows (row : Z * (Q * Q)) :
  List.In row (all_weeks_of left right) ->
  fst (snd row) = Spec.series_value left (fst row) /\
  snd (snd row) = Spec.series_value right (fst row).
Proof.
  unfold all_weeks_of. rewrite in_map_iff. intros (r & <- & Hr).
  rewrite outer_merge_unfold in Hr. apply order_by_In in Hr.
  assert (Hall : Forall (row_filled left right) (matched ++ right_only)).
  { apply Forall_app. split; [apply matched_rows | apply right_only_rows]. }
  rewrite List.Forall_forall in Hall. exact (Hall r Hr).
Qed.

Lemma all_weeks_nets :
  map (fun r => fst (snd r) - snd (snd r)) (all_weeks_of left right) =
  map (Spec.weekly_net left right) (map fst (all_weeks_of left right)).
Proof.
  rewrite map_map. apply map_ext_in. intros row Hrow.
  destruct (all_weeks_rows row Hrow) as [-> ->]. reflexivity.
Qed.

(** Lines 278-284 compute the projection the specification words. *)
Lemma projection_of_all_weeks :
  projection_of (all_weeks_of left right) == Spec.projected_annual_net left right.
Proof.
  pose proof all_weeks_keys as Hperm.
  assert (Hlen : length (all_weeks_of left right)
                 = length (Spec.active_weeks left right)).
  { rewrite <- (Permutation_length Hperm). symmetry. apply length_map. }
  assert (Hsum : Py.sum (map (fun r => fst (snd r) - snd (snd r))
                             (all_weeks_of left right))
                 == Py.sum (map (Spec.weekly_net left right)
                                (Spec.active_weeks left right))).
  { rewrite all_weeks_nets. apply sum_permutation, Permutation_map, Hperm. }
  unfold projection_of, Spec.projected_annual_net, Py.mean.
  rewrite length_map, Hlen.
  destruct (Spec.active_weeks left right) as [| k ks].
  - cbn [length Nat.ltb Nat.leb]. ring.
  - cbn [length Nat.ltb Nat.leb]. rewrite Hsum. reflexivity.
Qed.

End OuterMerge.

Lemma financials_series (w : World) :
  List.NoDup (map fst (weekly_earnings (financials_of w))) /\
  List.NoDup (map fst (weekly_expenses (financials_of w))) /\
  projected_annual_net (financials_of w) =
    projection_of (all_weeks_of (weekly_earnings (financials_of w))
                                (weekly_expenses (financials_of w))).
Proof.
  unfold financials_of, summarise. cbn [weekly_earnings weekly_expenses projected_annual_net].
  split; [apply weekly_earnings_NoDup |]. split; [apply weekly_expenses_NoDup | reflexivity].
Qed.

(** C5. [projected_annual_net] is the arithmetic mean of (weekly earnings
    - weekly expenses) over exactly the weeks of the outer merge of the
    two weekly series, times 52: the merge holds each week present in
    either series once, with a missing entry filled with 0; with no week
    of activity the projection is 0. *)
Theorem projection_is_mean_of_active_weeks (w : World) (settings : Settings) :
  exists f,
    run w (compute_financials settings) = Ok f /\
    let earned := weekly_earnings f in
    let spent := weekly_expenses f in
    let all_weeks := all_weeks_of earned spent in
    projected_annual_net f = projection_of all_weeks /\
    Permutation (map fst all_weeks) (Spec.active_weeks earned spent) /\
    (forall wk, List.In wk (map fst all_weeks) <->
                List.In wk (map fst earned) \/ List.In wk (map fst spent)) /\
    (forall row, List.In row all_weeks ->
       fst (snd row) = Spec.series_value earned (fst row) /\
       snd (snd row) = Spec.series_value spent (fst row)) /\
    projected_annual_net f == Spec.projected_annual_net earned spent /\
    (Spec.active_weeks earned spent = [] -> projected_annual_net f == 0).
Proof.
  exists (financials_of w). split; [apply run_compute_financials |].
  destruct (financials_series w) as (Hearned & Hspent & Hproj).
  intros earned spent all_weeks.
  pose proof (all_weeks_keys earned spent Hearned Hspent) as Hperm.
  pose proof (projection_of_all_weeks earned spent Hearned Hspent) as Hmean.
  split; [exact Hproj |]. split; [exact Hperm |]. split; [| split; [| split]].
  - intro wk. split.
    + intro Hin. apply (Permutation_in _ Hperm) in Hin.
      unfold Spec.active_weeks in Hin.
      rewrite List.nodup_In, in_app_iff in Hin. exact Hin.
    + intro Hin. apply (Permutation_in _ (Permutation_sym Hperm)).
      unfold Spec.active_weeks. rewrite List.nodup_In, in_app_iff. exact Hin.
  - intros row Hrow. now apply all_weeks_rows.
  - rewrite Hproj. exact Hmean.
  - intro Hnone. rewrite Hproj. etransitivity; [exact Hmean |].
    unfold Spec.projected_annual_net. fold earned spent. rewrite Hnone. reflexivity.
Qed.

Lemma projection_is_mean_of_active_weeks_witness :
  exists f,
    run Sample.world_empty (compute_financials Sample.settings) = Ok f /\
    projected_annual_net f == 0.
Proof.
  destruct (projection_is_mean_of_active_weeks Sample.world_empty Sample.settings)
    as (f & Hrun & _ & _ & _ & _ & _ & Hzero).
  exists f. split; [exact Hrun |].
  apply Hzero.
  rewrite (run_inv _ _ _ Hrun). vm_compute. reflexivity.
Defined.

(** * Further properties of the engine *)

(** ** Totals of a group *)

Lemma sum_scaled {A} (f : A -> Q) (c : Q) (l : list A) :
  Py.sum (map (fun x => f x * c) l) == Py.sum (map f l) * c.
Proof.
  induction l as [| x rest IH]; simpl.
  - change (Py.sum []) with 0. ring.
  - rewrite !sum_cons, IH. ring.
Qed.

Lemma sum_split_pay (rate ot_mult : Q) (l : list (Q * Q)) :
  Py.sum (map (split_pay rate ot_mult) l) ==
  Py.sum (map fst l) * rate + Py.sum (map snd l) * (rate * ot_mult).
Proof.
  induction l as [| p rest IH]; simpl.
  - change (Py.sum []) with 0. ring.
  - rewrite !sum_cons, IH. unfold split_pay. ring.
Qed.

(** The pay of a [weekly_40] group: straight rate up to 40 hours, the
    hours beyond 40 at the overtime rate. *)
Theorem weekly_group_pay_total (job : Job) (group : list SRow) :
  ot_rule job = "weekly_40"%string ->
  Forall (fun r => 0 <= hours (r_shift r)) group ->
  let T := Py.sum (hours_of group) in
  let rate := rate_of job in
  (T <= 40 -> Py.sum (adjust_group job group) == T * rate) /\
  (40 < T ->
     Py.sum (adjust_group job group) ==
       40 * rate + (T - 40) * (rate * ot_multiplier job)).
Proof.
  intros Hrule Hpos T rate.
  rewrite (adjust_group_weekly job group Hrule). fold (hours_of group). fold T.
  split; intro HT.
  - apply leb_true in HT. rewrite HT.
    rewrite (sum_scaled (fun r => hours (r_shift r)) (rate_of job) group).
    reflexivity.
  - destruct (weekly_split_over_40 group Hpos HT) as [Hreg Hot].
    apply leb_false in HT. rewrite HT.
    rewrite weekly_loop_split.
    change (fun p : Q * Q => fst p * rate_of job + snd p * (rate_of job * ot_multiplier job))
      with (split_pay (rate_of job) (ot_multiplier job)).
    rewrite sum_split_pay, Hreg, Hot. reflexivity.
Qed.

Lemma weekly_group_pay_total_witness :
  Py.sum (adjust_group Sample.job_B Sample.rows_B) == 2622.
Proof.
  assert (Hpos : Forall (fun r => 0 <= hours (r_shift r)) Sample.rows_B).
  { vm_compute. repeat constructor; discriminate. }
  destruct (weekly_group_pay_total Sample.job_B Sample.rows_B eq_refl Hpos) as [_ Hover].
  rewrite Hover; vm_compute; reflexivity.
Defined.

(** ** Where the overtime falls *)

Lemma weekly_split_spent (reg_left : Q) (group : list SRow) :
  reg_left <= 0 -> 0 <= reg_left ->
  Forall (fun r => 0 <= hours (r_shift r)) group ->
  Forall (fun p => fst p == 0) (weekly_split reg_left group).
Proof.
  intros Hle Hge Hpos. revert reg_left Hle Hge.
  induction Hpos as [| row rest Hrow _ IH]; intros reg_left Hle Hge; simpl;
    constructor.
  - simpl. rewrite min_l by lra. lra.
  - rewrite min_l by lra. apply IH; lra.
Qed.

(** The regular budget goes to the earliest shifts: a shift after one
    that has overtime is all overtime. *)
Theorem overtime_on_last_shifts (reg_left : Q) (group : list SRow) :
  0 <= reg_left ->
  Forall (fun r => 0 <= hours (r_shift r)) group ->
  StronglySorted overtime_then_no_regular (weekly_split reg_left group).
Proof.
  intros Hleft Hpos. revert reg_left Hleft.
  induction Hpos as [| row rest Hrow Hrest IH]; intros reg_left Hleft; simpl;
    constructor.
  - apply IH. destruct (Qlt_le_dec (hours (r_shift row)) reg_left) as [Hlt | Hge].
    + rewrite (min_r _ _ Hlt). lra.
    + rewrite (min_l _ _ Hge). lra.
  - set (h := hours (r_shift row)) in *.
    destruct (Qlt_le_dec h reg_left) as [Hlt | Hge].
    + (* the shift fits the budget: no overtime *)
      apply List.Forall_forall. intros q _ Hot. exfalso. simpl in Hot.
      rewrite (min_r _ _ Hlt) in Hot. rewrite max_l in Hot by lra.
      revert Hot. apply Qlt_irrefl.
    + rewrite (min_l _ _ Hge).
      eapply List.Forall_impl;
        [| apply (weekly_split_spent (reg_left - reg_left) rest); [lra | lra | exact Hrest]].
      intros q Hq _. exact Hq.
Qed.

Lemma overtime_on_last_shifts_witness :
  StronglySorted overtime_then_no_regular (weekly_split 40 Sample.rows_B).
Proof.
  apply overtime_on_last_shifts.
  - discriminate.
  - vm_compute. repeat constructor; discriminate.
Defined.

(** ** The 40-hour test against the loop *)

(** On a week within the budget the loop would pay what the shortcut of
    [total_hours <= 40] pays: every hour at the plain rate. *)
Theorem loop_agrees_within_budget (rate ot_mult reg_left : Q) (group : list SRow) :
  Forall (fun r => 0 <= hours (r_shift r)) group ->
  Py.sum (hours_of group) <= reg_left ->
  Forall2 Qeq (weekly_loop rate ot_mult reg_left group)
              (map (fun r => hours (r_shift r) * rate) group).
Proof.
  intros Hpos. revert reg_left.
  induction Hpos as [| row rest Hrow Hrest IH]; intros reg_left Hfit; simpl;
    constructor.
  - unfold hours_of in Hfit. simpl in Hfit. rewrite sum_cons in Hfit.
    fold (hours_of rest) in Hfit.
    assert (Hsum : 0 <= Py.sum (hours_of rest)).
    { apply sum_nonneg. unfold hours_of. apply List.Forall_map. exact Hrest. }
    set (h := hours (r_shift row)) in *.
    destruct (Qlt_le_dec h reg_left) as [Hlt | Hge].
    + rewrite (min_r _ _ Hlt). rewrite max_l by lra. ring.
    + rewrite (min_l _ _ Hge). rewrite max_l by lra.
      assert (Heq : reg_left == h) by lra. rewrite Heq. ring.
  - unfold hours_of in Hfit. simpl in Hfit. rewrite sum_cons in Hfit.
    fold (hours_of rest) in Hfit.
    assert (Hsum : 0 <= Py.sum (hours_of rest)).
    { apply sum_nonneg. unfold hours_of. apply List.Forall_map. exact Hrest. }
    apply IH.
    destruct (Qlt_le_dec (hours (r_shift row)) reg_left) as [Hlt | Hge].
    + rewrite (min_r _ _ Hlt). lra.
    + rewrite (min_l _ _ Hge). lra.
Qed.

Lemma loop_agrees_within_budget_witness :
  Forall2 Qeq (weekly_loop 57 (3 # 2) 44 Sample.rows_B)
              (map (fun r => hours (r_shift r) * 57) Sample.rows_B).
Proof.
  apply loop_agrees_within_budget.
  - vm_compute. repeat constructor; discriminate.
  - vm_compute. discriminate.
Defined.

(** ** Overtime against straight time *)

Lemma max_0_nonneg (x : Q) : 0 <= Py.max 0 x.
Proof.
  destruct (Qlt_le_dec 0 x) as [Hpos | Hneg].
  - rewrite (max_r _ _ Hpos). lra.
  - rewrite (max_l _ _ Hneg). lra.
Qed.

Lemma premium_nonneg (reg ot h rate ot_mult : Q) :
  0 <= rate -> 1 <= ot_mult -> 0 <= ot -> reg + ot == h ->
  h * rate <= reg * rate + ot * (rate * ot_mult).
Proof.
  intros Hrate Hmult Hot Hsplit.
  assert (Hprem : 0 <= ot * (rate * (ot_mult - 1))).
  { apply Qmult_le_0_compat; [exact Hot |].
    apply Qmult_le_0_compat; [exact Hrate | lra]. }
  assert (Heq : reg * rate + ot * (rate * ot_mult)
                == h * rate + ot * (rate * (ot_mult - 1))).
  { rewrite <- Hsplit. ring. }
  rewrite Heq. lra.
Qed.

Lemma weekly_loop_premium (rate ot_mult reg_left : Q) (group : list SRow) :
  0 <= rate -> 1 <= ot_mult ->
  Forall2 (fun pay r => hours (r_shift r) * rate <= pay)
          (weekly_loop rate ot_mult reg_left group) group.
Proof.
  intros Hrate Hmult. revert reg_left.
  induction group as [| row rest IH]; intro reg_left; simpl; constructor.
  - destruct (split_step reg_left (hours (r_shift row))) as [_ Hot].
    apply premium_nonneg; [exact Hrate | exact Hmult | apply max_0_nonneg |].
    rewrite Hot. ring.
  - apply IH.
Qed.

(** With a non-negative rate and a multiplier of at least 1, no shift is
    paid less than its hours at the plain rate: neither by the [daily_8]
    rule nor by the weekly reallocation. *)
Theorem overtime_never_below_straight_time (job : Job) :
  0 <= rate_of job -> 1 <= ot_multiplier job ->
  (forall row,
     hours row * rate_of job <= earnings_of (calc_shift_earnings row job)) /\
  (forall group,
     ot_rule job = "weekly_40"%string ->
     Forall2 (fun pay r => hours (r_shift r) * rate_of job <= pay)
             (adjust_group job group) group).
Proof.
  intros Hrate Hmult. split.
  - intro row.
    destruct (String.eqb_spec (ot_rule job) "daily_8") as [Hd | Hw].
    + rewrite (calc_shift_earnings_daily row job Hd).
      unfold earnings_of; simpl.
      apply premium_nonneg; [exact Hrate | exact Hmult | apply max_0_nonneg |].
      apply daily_split_total.
    + rewrite (calc_shift_earnings_other row job Hw).
      unfold earnings_of; simpl. apply Qle_refl.
  - intros group Hrule. rewrite (adjust_group_weekly job group Hrule).
    destruct (Py.leb _ 40).
    + induction group as [| r rest IH]; simpl; constructor;
        [apply Qle_refl | exact IH].
    + now apply weekly_loop_premium.
Qed.

Lemma overtime_never_below_straight_time_witness :
  hours Sample.shift_10h * rate_of Sample.job_A
    <= earnings_of (calc_shift_earnings Sample.shift_10h Sample.job_A).
Proof.
  apply (overtime_never_below_straight_time Sample.job_A); vm_compute; discriminate.
Defined.

(** ** Groups of a frame that is already in key order *)

Section SortedGroups.
Context {K : Type} (eqb ltb : K -> K -> bool).
Hypothesis eqb_eq : forall a b, eqb a b = true <-> a = b.
Hypothesis ltb_irrefl : forall a, ltb a a = false.
Hypothesis ltb_trans :
  forall a b c, ltb a b = true -> ltb b c = true -> ltb a c = true.
Hypothesis ltb_total :
  forall a b, eqb a b = false -> ltb a b = false -> ltb b a = true.
Context {A : Type} (key : A -> K).

Let group_of (rows : list A) (k : K) : list A :=
  List.filter (fun r => eqb (key r) k) rows.

Lemma group_of_cons_other (r : A) (rest : list A) (ks : list K) :
  ~ List.In (key r) ks ->
  flat_map (group_of (r :: rest)) ks = flat_map (group_of rest) ks.
Proof.
  induction ks as [| k ks' IH]; intro Hk; simpl; [reflexivity |].
  rewrite IH by (intro Hin; apply Hk; now right).
  destruct (eqb (key r) k) eqn:E; [| reflexivity].
  exfalso. apply Hk. left. symmetry. now apply eqb_eq.
Qed.

Lemma group_of_absent (rows : list A) (k : K) :
  ~ List.In k (map key rows) -> group_of rows k = [].
Proof.
  induction rows as [| r rest IH]; intro Hk; simpl; [reflexivity |].
  destruct (eqb (key r) k) eqn:E.
  - exfalso. apply Hk. left. now apply eqb_eq.
  - apply IH. intro Hin. apply Hk. now right.
Qed.

(** In a frame whose rows are in key order the groups, one after the
    other, are the frame itself. *)
Lemma sorted_groups_concat (rows : list A) :
  StronglySorted (fun a b => ltb (key b) (key a) = false) rows ->
  flat_map snd (Frame.groupby eqb ltb key rows) = rows.
Proof.
  unfold Frame.groupby. rewrite flat_map_concat_map, map_map. simpl.
  rewrite <- flat_map_concat_map.
  change (fun k => List.filter (fun r => eqb (key r) k) rows) with (group_of rows).
  induction 1 as [| r rest Hsorted IH Hall]; simpl; [reflexivity |].
  pose proof (group_keys_sorted eqb ltb eqb_eq ltb_trans ltb_total (map key rest))
    as Hks.
  pose proof (fun k => group_keys_In eqb ltb eqb_eq k (map key rest)) as Hmem.
  assert (Hlow : forall k, List.In k (Frame.group_keys eqb ltb (map key rest)) ->
                           ltb k (key r) = false).
  { intros k Hk. apply (proj1 (Hmem k)) in Hk.
    apply in_map_iff in Hk. destruct Hk as (x & <- & Hx).
    rewrite List.Forall_forall in Hall. now apply Hall. }
  destruct (Frame.group_keys eqb ltb (map key rest)) as [| k' ks'] eqn:Eks.
  - (* the first row opens the only group so far *)
    simpl. assert (Hrefl : eqb (key r) (key r) = true) by now apply eqb_eq.
    rewrite Hrefl, app_nil_r. f_equal.
    destruct rest as [| x rest']; [reflexivity |].
    exfalso. apply (proj2 (Hmem (key x))). now left.
  - simpl. destruct (eqb (key r) k') eqn:E.
    + (* the first row joins the first group *)
      apply eqb_eq in E. subst k'. simpl.
      assert (Hrefl : eqb (key r) (key r) = true) by now apply eqb_eq.
      rewrite Hrefl. simpl. f_equal.
      rewrite group_of_cons_other; [exact IH |].
      inversion Hks as [| ? ? _ Hhead]; subst. intro Hin.
      rewrite List.Forall_forall in Hhead. specialize (Hhead _ Hin).
      rewrite ltb_irrefl in Hhead. discriminate.
    + destruct (ltb (key r) k') eqn:L.
      * (* the first row opens a group before all the others *)
        simpl. assert (Hrefl : eqb (key r) (key r) = true) by now apply eqb_eq.
        rewrite Hrefl. rewrite E.
        assert (Hfresh : ~ List.In (key r) (k' :: ks')).
        { intros [Heq | Hin].
          - subst k'. rewrite ltb_irrefl in L. discriminate.
          - inversion Hks as [| ? ? _ Hhead]; subst.
            rewrite List.Forall_forall in Hhead. specialize (Hhead _ Hin).
            pose proof (ltb_trans _ _ _ L Hhead) as Hbad.
            rewrite ltb_irrefl in Hbad. discriminate. }
        rewrite (group_of_absent rest (key r))
          by (intro Hin; apply Hfresh, (proj2 (Hmem (key r))), Hin).
        simpl. f_equal.
        assert (Hrest : flat_map (group_of (r :: rest)) ks' = flat_map (group_of rest) ks').
        { apply group_of_cons_other. intro Hin. apply Hfresh. now right. }
        rewrite Hrest. exact IH.
      * exfalso. pose proof (ltb_total _ _ E L) as Hgt.
        rewrite (Hlow k' (or_introl eq_refl)) in Hgt. discriminate.
Qed.

End SortedGroups.

(** ** The write-back of the adjusted earnings *)

Lemma combine_app_same {A B} (l1 l2 : list A) (v1 v2 : list B) :
  length v1 = length l1 ->
  combine (l1 ++ l2) (v1 ++ v2) = combine l1 v1 ++ combine l2 v2.
Proof.
  revert v1. induction l1 as [| x rest IH]; intros [| y v1'] Hlen; simpl in *;
    try reflexivity; try discriminate.
  f_equal. apply IH. now injection Hlen.
Qed.

Lemma combine_groups {A B G} (rows : G -> list A) (vals : G -> list B) (gs : list G) :
  (forall g, List.In g gs -> length (vals g) = length (rows g)) ->
  combine (flat_map rows gs) (flat_map vals gs) =
  flat_map (fun g => combine (rows g) (vals g)) gs.
Proof.
  induction gs as [| g rest IH]; intro Hlen; simpl; [reflexivity |].
  rewrite combine_app_same by (apply Hlen; now left).
  rewrite IH; [reflexivity |]. intros g' Hg'. apply Hlen. now right.
Qed.

Lemma group_values_length (jobs : gmap Z Job) (shifts : list Shift)
    (g : GroupKey * list SRow) :
  List.In g (groups_of (rows_of jobs shifts)) ->
  length (group_values jobs g) = length (snd g).
Proof.
  intro Hg. destruct (groups_of_job jobs shifts g Hg) as [job Hjob].
  unfold group_values. rewrite Hjob. apply adjust_group_length.
Qed.

(** When the merged frame is in group-key order (one job only, or jobs
    whose shifts do not interleave by date), every group's values are
    written onto the group's own rows, in order. *)
Theorem key_ordered_frame_aligned (jobs : gmap Z Job) (shifts : list Shift) :
  let rows := rows_of jobs shifts in
  StronglySorted by_group_key rows ->
  shifts_out jobs shifts =
    map with_week_start
        (flat_map (fun g => combine (snd g) (group_values jobs g)) (groups_of rows)).
Proof.
  intros rows Hsorted. unfold shifts_out. fold rows. f_equal.
  rewrite <- (combine_groups snd (group_values jobs) (groups_of rows)).
  - f_equal. symmetry.
    apply (sorted_groups_concat key_eqb key_ltb key_eqb_eq key_ltb_irrefl
             key_ltb_trans key_ltb_total row_key rows Hsorted).
  - intros g Hg. now apply (group_values_length jobs shifts).
Qed.

Lemma key_ordered_frame_aligned_witness :
  shifts_out Sample.jobs_B Sample.shifts_B =
    map with_week_start
        (flat_map (fun g => combine (snd g) (group_values Sample.jobs_B g))
                  (groups_of (rows_of Sample.jobs_B Sample.shifts_B))).
Proof.
  apply key_ordered_frame_aligned.
  vm_compute. repeat constructor.
Defined.

Lemma map_snd_combine {A B} (l : list A) (l' : list B) :
  length l' = length l -> map snd (combine l l') = l'.
Proof.
  revert l'. induction l as [| x rest IH]; intros [| y rest'] Hlen; simpl in *;
    try reflexivity; try discriminate.
  f_equal. apply IH. now injection Hlen.
Qed.

Lemma sum_app (l l' : list Q) : Py.sum (l ++ l') == Py.sum l + Py.sum l'.
Proof.
  induction l as [| x rest IH]; simpl.
  - change (Py.sum []) with 0. ring.
  - rewrite !sum_cons, IH. ring.
Qed.

Lemma sum_flat_map {A} (f : A -> list Q) (l : list A) :
  Py.sum (flat_map f l) == Py.sum (map (fun x => Py.sum (f x)) l).
Proof.
  induction l as [| x rest IH]; simpl; [reflexivity |].
  rewrite sum_app, sum_cons, IH. reflexivity.
Qed.

Lemma shifts_out_earnings (jobs : gmap Z Job) (shifts : list Shift) :
  map earnings (shifts_out jobs shifts) =
  flat_map (group_values jobs) (groups_of (rows_of jobs shifts)).
Proof.
  unfold shifts_out. rewrite map_map. simpl.
  apply map_snd_combine. apply (adjusted_earnings_ok jobs shifts).
Qed.

(** The [earnings] column is [adjusted_earnings] in group order: whatever
    row a value lands on, the earnings of all shifts add up to the sum of
    the totals of the groups. *)
Theorem total_earnings_is_sum_of_groups (w : World) (settings : Settings) :
  exists f,
    run w (compute_financials settings) = Ok f /\
    let jobs := handle w (ListJobs true) in
    let groups := groups_of (map o_row (f_shifts f)) in
    map earnings (f_shifts f) = flat_map (group_values jobs) groups /\
    Py.sum (map earnings (f_shifts f)) ==
      Py.sum (map (fun g => Py.sum (group_values jobs g)) groups).
Proof.
  exists (financials_of w). split; [apply run_compute_financials |].
  intros jobs groups.
  assert (Hcol : map earnings (f_shifts (financials_of w))
                 = flat_map (group_values jobs) groups).
  { unfold groups. rewrite financials_rows. apply shifts_out_earnings. }
  split; [exact Hcol |]. rewrite Hcol. apply sum_flat_map.
Qed.

(** Each group reaches the reallocation loop with its shifts in ascending
    date order, the order the query gave the frame. *)
Theorem groups_in_date_order (w : World) (settings : Settings) (f : Financials)
    (g : GroupKey * list SRow) :
  run w (compute_financials settings) = Ok f ->
  List.In g (groups_of (map o_row (f_shifts f))) ->
  StronglySorted by_date (snd g) /\
  (forall r, List.In r (snd g) -> row_key r = fst g) /\
  snd g <> [].
Proof.
  intros Hrun Hg. apply run_inv in Hrun. subst f.
  split; [now apply (group_rows_by_date w) |].
  destruct g as [k rows].
  pose proof Hg as Hgroup.
  apply (groupby_group key_eqb key_ltb key_eqb_eq) in Hgroup.
  destruct Hgroup as [Hk ->]. cbn [fst snd]. split.
  - intros r Hr. apply List.filter_In in Hr. destruct Hr as [_ Hr].
    now apply key_eqb_eq.
  - apply in_map_iff in Hk. destruct Hk as (r & Hkey & Hr).
    intro Hnil.
    assert (Hin : List.In r (List.filter (fun r => key_eqb (row_key r) k)
                               (map o_row (f_shifts (financials_of w))))).
    { apply List.filter_In. split; [exact Hr | now apply key_eqb_eq]. }
    rewrite Hnil in Hin. destruct Hin.
Qed.

Lemma groups_in_date_order_witness :
  StronglySorted by_date
    (snd ((1, 2024, 2)%Z, week_rows (financials_of Sample.world_B) (1, 2024, 2)%Z)).
Proof.
  apply (groups_in_date_order Sample.world_B Sample.settings
           (financials_of Sample.world_B)).
  - apply run_compute_financials.
  - apply week_rows_group. vm_compute. discriminate.
Defined.

(** ** Week buckets *)

Lemma week_start_of_iff (d t : Z) :
  Calendar.week_start_of d = t <->
  Calendar.weekday t = Calendar.TUE /\ (t <= d <= t + 6)%Z.
Proof.
  unfold Calendar.week_start_of, Calendar.period_start, Calendar.period_end,
    Calendar.weekday, Calendar.MON, Calendar.TUE.
  split.
  - intros <-. Z.to_euclidean_division_equations. lia.
  - intros [Ht Hd]. Z.to_euclidean_division_equations. lia.
Qed.

(** The key of a date is the one Tuesday among the date and the six days
    before it. *)
Theorem week_start_characterised (d t : Z) :
  Calendar.week_start_of d = t <->
  Calendar.weekday t = Calendar.TUE /\ (t <= d <= t + 6)%Z.
Proof. apply week_start_of_iff. Qed.

Lemma same_week_in_week_from (today d : Z) :
  Z.eqb (Calendar.week_start_of d) (Calendar.week_start_of today)
  = in_week_from (Calendar.week_start_of today) d.
Proof.
  unfold in_week_from.
  pose proof (week_start_is_tuesday today) as Ht.
  destruct (Z.eqb_spec (Calendar.week_start_of d) (Calendar.week_start_of today))
    as [Heq | Hne].
  - apply week_start_of_iff in Heq. destruct Heq as [_ [H1 H2]].
    symmetry. apply andb_true_iff. split; now apply Z.leb_le.
  - symmetry. apply not_true_is_false. intro Hin.
    apply andb_true_iff in Hin. destruct Hin as [H1 H2].
    apply Z.leb_le in H1, H2. apply Hne.
    apply week_start_of_iff. auto.
Qed.

(** ** Weekly series against the rows they sum *)

Lemma map_flat_map {A B C} (f : B -> C) (g : A -> list B) (l : list A) :
  map f (flat_map g l) = flat_map (fun x => map f (g x)) l.
Proof.
  induction l as [| x rest IH]; simpl; [reflexivity |].
  now rewrite map_app, IH.
Qed.

(** A [groupby(...).sum()] series adds up to the column it groups. *)
Lemma groupby_sum_total {A} (key : A -> Z) (val : A -> Q) (rows : list A) :
  Py.sum (map snd (Frame.groupby_sum key val rows)) == Py.sum (map val rows).
Proof.
  unfold Frame.groupby_sum. rewrite map_map. cbn [snd].
  rewrite <- (sum_flat_map (fun g => map val (snd g))).
  rewrite <- map_flat_map.
  apply sum_permutation, Permutation_map.
  apply (groupby_permutation Z.eqb Z.ltb Z.eqb_eq Z.ltb_irrefl Z_ltb_trans Z_ltb_total).
Qed.

Lemma groupby_sum_In {A} (key : A -> Z) (val : A -> Q) (rows : list A) (k : Z) :
  List.In k (map key rows) ->
  List.In (k, Py.sum (map val (List.filter (fun r => Z.eqb (key r) k) rows)))
          (Frame.groupby_sum key val rows).
Proof.
  intro Hk. unfold Frame.groupby_sum, Frame.groupby. rewrite map_map. cbn [fst snd].
  apply (in_map (fun k' => (k', Py.sum (map val
                   (List.filter (fun r => Z.eqb (key r) k') rows))))).
  now apply (group_keys_In Z.eqb Z.ltb Z.eqb_eq).
Qed.

Lemma week_total_value (series : list (Z * Q)) (w : Z) :
  List.NoDup (map fst series) ->
  week_total series w == Spec.series_value series w.
Proof.
  intro Hkeys. unfold week_total, Spec.series_value.
  rewrite (filter_week series Hkeys w).
  destruct (find _ series) as [p |]; simpl.
  - rewrite sum_cons. change (Py.sum []) with 0. ring.
  - reflexivity.
Qed.

(** The entry of a week in a series is the sum over the rows of that
    week, 0 when it has none. *)
Lemma week_total_groupby_sum {A} (key : A -> Z) (val : A -> Q) (rows : list A) (w : Z) :
  week_total (Frame.groupby_sum key val rows) w ==
  Py.sum (map val (List.filter (fun r => Z.eqb (key r) w) rows)).
Proof.
  rewrite (week_total_value _ w (groupby_sum_NoDup key val rows)).
  destruct (in_dec Z.eq_dec w (map key rows)) as [Hin | Hout].
  - pose proof (groupby_sum_In key val rows w Hin) as Hentry.
    apply (series_value_In _ (groupby_sum_NoDup key val rows)) in Hentry.
    cbn [fst snd] in Hentry. rewrite Hentry. reflexivity.
  - rewrite series_value_missing
      by (rewrite groupby_sum_keys; intro H;
          apply Hout, (group_keys_In Z.eqb Z.ltb Z.eqb_eq), H).
    rewrite (group_of_absent Z.eqb Z.eqb_eq key rows w Hout). reflexivity.
Qed.

Lemma weekly_earnings_total (shifts : list ShiftOut) :
  Py.sum (map snd (weekly_earnings_of shifts)) == Py.sum (map earnings shifts).
Proof.
  destruct shifts as [| o rest]; [reflexivity |]. apply groupby_sum_total.
Qed.

Lemma weekly_expenses_total (expenses : list ExpenseOut) :
  Py.sum (map snd (weekly_expenses_of expenses))
  == Py.sum (map (fun x => amount (x_expense x)) expenses).
Proof.
  destruct expenses as [| x rest]; [reflexivity |]. apply groupby_sum_total.
Qed.

(** The weekly series lose and add nothing: their entries add up to the
    earnings of all output shifts and to the amounts of all expenses, and
    their week keys are distinct. *)
Theorem weekly_series_conserve_totals (w : World) (settings : Settings) :
  exists f,
    run w (compute_financials settings) = Ok f /\
    Py.sum (map snd (weekly_earnings f)) == Py.sum (map earnings (f_shifts f)) /\
    Py.sum (map snd (weekly_expenses f))
      == Py.sum (map (fun x => amount (x_expense x)) (f_expenses f)) /\
    List.NoDup (map fst (weekly_earnings f)) /\
    List.NoDup (map fst (weekly_expenses f)).
Proof.
  exists (financials_of w). split; [apply run_compute_financials |].
  destruct (financials_series w) as (Hearned & Hspent & _).
  split; [apply weekly_earnings_total |].
  split; [apply weekly_expenses_total |]. now split.
Qed.

Lemma week_total_earnings (shifts : list ShiftOut) (t : Z) :
  week_total (weekly_earnings_of shifts) t ==
  Py.sum (map earnings (List.filter (fun o => Z.eqb (week_start o) t) shifts)).
Proof.
  destruct shifts as [| o rest]; [reflexivity |]. apply week_total_groupby_sum.
Qed.

Lemma week_total_expenses (expenses : list ExpenseOut) (t : Z) :
  week_total (weekly_expenses_of expenses) t ==
  Py.sum (map (fun x => amount (x_expense x))
              (List.filter (fun x => Z.eqb (x_week_start x) t) expenses)).
Proof.
  destruct expenses as [| x rest]; [reflexivity |]. apply week_total_groupby_sum.
Qed.

Lemma shifts_out_week_start (jobs : gmap Z Job) (shifts : list Shift) (o : ShiftOut) :
  List.In o (shifts_out jobs shifts) ->
  week_start o = Calendar.week_start_of (shift_date (r_shift (o_row o))).
Proof.
  unfold shifts_out. rewrite in_map_iff. intros (p & <- & _). reflexivity.
Qed.

(** The current-week figures cover the seven days from the Tuesday on or
    before the clock date: [earnings_this_week] is the sum of the earnings
    of the output shifts dated in those days, [expenses_this_week] the sum
    of the expenses dated in them, and the net their difference. *)
Theorem this_week_is_tuesday_to_monday (w : World) (settings : Settings) :
  exists f,
    run w (compute_financials settings) = Ok f /\
    let t := Calendar.week_start_of (clock_today w) in
    Calendar.weekday t = Calendar.TUE /\
    (t <= clock_today w <= t + 6)%Z /\
    earnings_this_week f ==
      Py.sum (map earnings
                (List.filter (fun o => in_week_from t (shift_date (r_shift (o_row o))))
                             (f_shifts f))) /\
    expenses_this_week f ==
      Py.sum (map (fun x => amount (x_expense x))
                (List.filter (fun x => in_week_from t (expense_date (x_expense x)))
                             (f_expenses f))) /\
    net_this_week f = earnings_this_week f - expenses_this_week f.
Proof.
  exists (financials_of w). split; [apply run_compute_financials |].
  intro t. split; [apply week_start_is_tuesday |].
  split; [apply week_start_bounds |].
  unfold financials_of, summarise.
  cbn [earnings_this_week expenses_this_week net_this_week f_shifts f_expenses].
  split; [| split; [| reflexivity]].
  - cbn [clock_today] in *. rewrite week_total_earnings. fold t.
    rewrite (filter_ext_in
               (fun o => Z.eqb (week_start o) t)
               (fun o => in_week_from t (shift_date (r_shift (o_row o)))));
      [reflexivity |].
    intros o Ho. rewrite (shifts_out_week_start _ _ o Ho).
    apply same_week_in_week_from.
  - rewrite week_total_expenses. fold t.
    rewrite (filter_ext_in
               (fun x => Z.eqb (x_week_start x) t)
               (fun x => in_week_from t (expense_date (x_expense x))));
      [reflexivity |].
    intros x Hx. apply in_map_iff in Hx. destruct Hx as (e & <- & _).
    apply same_week_in_week_from.
Qed.

(** ** The projection in closed form *)

Lemma sum_series_over_weeks (series : list (Z * Q)) (weeks : list Z) :
  List.NoDup (map fst series) -> List.NoDup weeks ->
  (forall k, List.In k (map fst series) -> List.In k weeks) ->
  Py.sum (map (Spec.series_value series) weeks) == Py.sum (map snd series).
Proof.
  intros Hkeys Hweeks Hsub.
  set (others := List.filter
                   (fun k => negb (existsb (fun p => Z.eqb (fst p) k) series)) weeks).
  assert (Hperm : Permutation weeks (map fst series ++ others)).
  { apply Permutation.NoDup_Permutation; [exact Hweeks | |].
    - apply List.NoDup_app; [exact Hkeys | now apply List.NoDup_filter |].
      intros k Hk Hin. apply List.filter_In in Hin. destruct Hin as [_ Hneg].
      apply existsb_week in Hk. rewrite Hk in Hneg. discriminate.
    - intro k. rewrite in_app_iff. unfold others. rewrite List.filter_In. split.
      + intro Hk. destruct (existsb (fun p => Z.eqb (fst p) k) series) eqn:E.
        * left. now apply existsb_week.
        * right. now split.
      + intros [Hk | [Hk _]]; [now apply Hsub | exact Hk]. }
  rewrite (sum_permutation _ _ (Permutation_map (Spec.series_value series) Hperm)).
  rewrite map_app, sum_app.
  rewrite map_map.
  rewrite (map_ext_in (fun p => Spec.series_value series (fst p)) snd)
    by (intros p Hp; now apply series_value_In).
  rewrite (sum_zeros (Spec.series_value series) others); [ring |].
  intros k Hk. apply List.filter_In in Hk. destruct Hk as [_ Hneg].
  apply series_value_missing. intro Hin. apply existsb_week in Hin.
  rewrite Hin in Hneg. discriminate.
Qed.

Lemma sum_minus {A} (f g : A -> Q) (l : list A) :
  Py.sum (map (fun x => f x - g x) l) == Py.sum (map f l) - Py.sum (map g l).
Proof.
  induction l as [| x rest IH]; simpl.
  - change (Py.sum []) with 0. ring.
  - rewrite !sum_cons, IH. ring.
Qed.

(** The projection times the number of active weeks is 52 times the
    difference between all earnings and all expenses: the annual figure is
    (total earnings - total expenses) * 52 / (number of weeks holding a
    shift or an expense). *)
Theorem projection_closed_form (w : World) (settings : Settings) :
  exists f,
    run w (compute_financials settings) = Ok f /\
    let weeks := Spec.active_weeks (weekly_earnings f) (weekly_expenses f) in
    List.NoDup weeks /\
    (forall k, List.In k weeks <->
       (exists o, List.In o (f_shifts f) /\ week_start o = k) \/
       (exists x, List.In x (f_expenses f) /\ x_week_start x = k)) /\
    projected_annual_net f * inject_Z (Z.of_nat (length weeks)) ==
      (Py.sum (map earnings (f_shifts f))
       - Py.sum (map (fun x => amount (x_expense x)) (f_expenses f))) * 52.
Proof.
  exists (financials_of w). split; [apply run_compute_financials |].
  destruct (financials_series w) as (Hearned & Hspent & Hproj).
  set (f := financials_of w) in *. intro weeks.
  assert (Hnodup : List.NoDup weeks) by apply List.NoDup_nodup.
  assert (Hin : forall k, List.In k weeks <->
            List.In k (map fst (weekly_earnings f)) \/
            List.In k (map fst (weekly_expenses f))).
  { intro k. unfold weeks, Spec.active_weeks.
    rewrite List.nodup_In, in_app_iff. reflexivity. }
  split; [exact Hnodup |]. split.
  - intro k. rewrite Hin. unfold f, financials_of, summarise.
    cbn [weekly_earnings weekly_expenses f_shifts f_expenses].
    assert (He : forall l, List.In k (map fst (weekly_earnings_of l)) <->
                           exists o, List.In o l /\ week_start o = k).
    { intros [| o rest]; [simpl; split; [tauto | intros (? & [] & _)] |].
      unfold weekly_earnings_of. rewrite groupby_sum_keys.
      rewrite (group_keys_In Z.eqb Z.ltb Z.eqb_eq), in_map_iff.
      split; intros (o' & H1 & H2); exists o'; auto. }
    assert (Hx : forall l, List.In k (map fst (weekly_expenses_of l)) <->
                           exists x, List.In x l /\ x_week_start x = k).
    { intros [| x rest]; [simpl; split; [tauto | intros (? & [] & _)] |].
      unfold weekly_expenses_of. rewrite groupby_sum_keys.
      rewrite (group_keys_In Z.eqb Z.ltb Z.eqb_eq), in_map_iff.
      split; intros (x' & H1 & H2); exists x'; auto. }
    rewrite He, Hx. reflexivity.
  - rewrite Hproj.
    rewrite (projection_of_all_weeks _ _ Hearned Hspent).
    unfold Spec.projected_annual_net. fold weeks.
    assert (Hsum : Py.sum (map (Spec.weekly_net (weekly_earnings f) (weekly_expenses f)) weeks)
                   == Py.sum (map earnings (f_shifts f))
                      - Py.sum (map (fun x => amount (x_expense x)) (f_expenses f))).
    { unfold Spec.weekly_net. rewrite sum_minus.
      rewrite (sum_series_over_weeks (weekly_earnings f) weeks Hearned Hnodup)
        by (intros k Hk; apply Hin; now left).
      rewrite (sum_series_over_weeks (weekly_expenses f) weeks Hspent Hnodup)
        by (intros k Hk; apply Hin; now right).
      unfold f, financials_of, summarise.
      cbn [weekly_earnings weekly_expenses f_shifts f_expenses].
      now rewrite weekly_earnings_total, weekly_expenses_total. }
    destruct weeks as [| k ks] eqn:E.
    + change (Py.sum (map _ [])) with 0 in Hsum. rewrite <- Hsum.
      cbn [length]. change (inject_Z (Z.of_nat 0)) with 0. ring.
    + rewrite Hsum. field.
      intro Hz. unfold Qeq in Hz. cbn in Hz. lia.
Qed.

(** With no shift and no expense in the tables every figure of the result
    is zero and both weekly series are empty, whatever the jobs and the
    clock. *)
Theorem empty_tables_give_zeros (w : World) (settings : Settings) :
  db_shifts w = [] -> db_expenses w = [] ->
  exists f,
    run w (compute_financials settings) = Ok f /\
    f_shifts f = [] /\ f_expenses f = [] /\
    weekly_earnings f = [] /\ weekly_expenses f = [] /\
    earnings_this_week f == 0 /\ expenses_this_week f == 0 /\
    net_this_week f == 0 /\ projected_annual_net f == 0.
Proof.
  intros Hshifts Hexpenses. exists (financials_of w).
  split; [apply run_compute_financials |].
  unfold financials_of, summarise, shifts_out, rows_of. simpl.
  rewrite Hshifts, Hexpenses. simpl.
  repeat split; reflexivity.
Qed.

Lemma empty_tables_give_zeros_witness :
  exists f,
    run Sample.world_empty (compute_financials Sample.settings) = Ok f /\
    net_this_week f == 0 /\ projected_annual_net f == 0.
Proof.
  destruct (empty_tables_give_zeros Sample.world_empty Sample.settings eq_refl eq_refl)
    as (f & Hrun & _ & _ & _ & _ & _ & _ & Hnet & Hproj).
  exists f. auto.
Defined.

(** ** The dashboard chart *)

Lemma left_merge_no_match {V} (left : list (Z * V)) (right : list (Z * Q)) :
  (forall l r, List.In l left -> List.In r right -> fst r <> fst l) ->
  Dashboard.left_merge left right = map (fun l => (fst l, (snd l, None))) left.
Proof.
  unfold Dashboard.left_merge.
  induction left as [| l rest IH]; intro Hdiff; [reflexivity |].
  cbn [flat_map].
  rewrite IH by (intros l' r Hl' Hr; apply Hdiff; [now right | exact Hr]).
  assert (Hnone : List.filter (fun r => Z.eqb (fst r) (fst l)) right = []).
  { apply (group_of_absent Z.eqb Z.eqb_eq fst right (fst l)).
    intro Hin. apply in_map_iff in Hin. destruct Hin as (r & Heq & Hr).
    apply (Hdiff l r); [now left | exact Hr | exact Heq]. }
  rewrite Hnone. reflexivity.
Qed.

Lemma order_by_sorted_id {A} (key : A -> Z) (l : list A) :
  StronglySorted (fun a b => (key a <= key b)%Z) l -> Frame.order_by key l = l.
Proof.
  induction 1 as [| x rest Hsorted IH Hall]; simpl; [reflexivity |].
  rewrite IH. now apply insert_by_front.
Qed.

(** Every key of the weekly series of a result is a Tuesday. *)
Lemma series_keys_tuesday (w : World) (k : Z) :
  List.In k (map fst (weekly_earnings (financials_of w))) \/
  List.In k (map fst (weekly_expenses (financials_of w))) ->
  Calendar.weekday k = Calendar.TUE.
Proof.
  unfold financials_of, summarise. cbn [weekly_earnings weekly_expenses].
  intros [Hk | Hk].
  - destruct (shifts_out _ _) as [| o rest] eqn:E; [destruct Hk |].
    unfold weekly_earnings_of in Hk. rewrite groupby_sum_keys in Hk.
    apply (proj1 (group_keys_In Z.eqb Z.ltb Z.eqb_eq k _)) in Hk.
    apply in_map_iff in Hk. destruct Hk as (o' & <- & Ho').
    rewrite <- E in Ho'. rewrite (shifts_out_week_start _ _ o' Ho').
    apply week_start_is_tuesday.
  - destruct (map expense_week _) as [| x rest] eqn:E; [destruct Hk |].
    unfold weekly_expenses_of in Hk. rewrite groupby_sum_keys in Hk.
    apply (proj1 (group_keys_In Z.eqb Z.ltb Z.eqb_eq k _)) in Hk.
    apply in_map_iff in Hk. destruct Hk as (x' & <- & Hx').
    rewrite <- E in Hx'. apply in_map_iff in Hx'. destruct Hx' as (e & <- & _).
    apply week_start_is_tuesday.
Qed.

Lemma chart_weeks_mondays (today m : Z) (periods : nat) :
  List.In m (Calendar.date_range_W_MON today periods) ->
  Calendar.weekday m = Calendar.MON.
Proof.
  unfold Calendar.date_range_W_MON. rewrite in_map_iff. intros (i & <- & _).
  destruct (monday_of_is_monday today) as [Hm _].
  unfold Calendar.weekday, Calendar.MON in *.
  Z.to_euclidean_division_equations. lia.
Qed.

(** The chart of the dashboard is flat: its eight weeks are the last
    eight Mondays up to the clock date, and since every key of the weekly
    series is a Tuesday no week finds an entry; both plotted columns are 0
    in every row, whatever shifts and expenses exist. *)
Theorem dashboard_chart_always_zero (w : World) (settings : Settings) :
  exists data chart,
    run w (Dashboard.page_dashboard settings) = Ok (data, chart) /\
    run w (compute_financials settings) = Ok data /\
    chart = map (fun m => (m, (0, 0))) (Calendar.date_range_W_MON (clock_today w) 8) /\
    length chart = 8%nat /\
    Forall (fun r => Calendar.weekday (fst r) = Calendar.MON) chart.
Proof.
  exists (financials_of w),
    (map (fun m => (m, (0, 0))) (Calendar.date_range_W_MON (clock_today w) 8)).
  assert (Hchart : Dashboard.chart_frame (financials_of w) (clock_today w)
            = map (fun m => (m, (0, 0))) (Calendar.date_range_W_MON (clock_today w) 8)).
  { unfold Dashboard.chart_frame.
    set (weeks := Calendar.date_range_W_MON (clock_today w) 8).
    assert (Hmiss : forall m k, List.In m weeks ->
              List.In k (map fst (weekly_earnings (financials_of w))) \/
              List.In k (map fst (weekly_expenses (financials_of w))) -> k <> m).
    { intros m k Hm Hk Heq. subst k.
      apply series_keys_tuesday in Hk.
      rewrite (chart_weeks_mondays _ _ _ Hm) in Hk. discriminate. }
    rewrite (left_merge_no_match (map (fun m => (m, tt)) weeks)
               (weekly_earnings (financials_of w))).
    2:{ intros l r Hl Hr. apply in_map_iff in Hl. destruct Hl as (m & <- & Hm).
        apply (Hmiss m (fst r) Hm). left. now apply in_map. }
    rewrite left_merge_no_match.
    2:{ intros l r Hl Hr. apply in_map_iff in Hl. destruct Hl as (l' & <- & Hl').
        apply in_map_iff in Hl'. destruct Hl' as (m & <- & Hm).
        apply (Hmiss m (fst r) Hm). right. now apply in_map. }
    rewrite !map_map. cbn [fst snd Frame.fillna].
    apply order_by_sorted_id.
    unfold weeks, Calendar.date_range_W_MON. cbn [seq rev app map fst].
    repeat constructor; cbn [fst]; lia. }
  split.
  - unfold Dashboard.page_dashboard, mbind, eff_mbind, mret, eff_ret, trigger.
    rewrite run_bind, run_compute_financials. simpl. now rewrite Hchart.
  - split; [apply run_compute_financials |]. split; [reflexivity |].
    split; [now rewrite length_map |].
    apply List.Forall_forall. intros r Hr.
    apply in_map_iff in Hr. destruct Hr as (m & <- & Hm).
    apply (chart_weeks_mondays _ _ _ Hm).
Qed.

(** * The database helpers *)

(** ** Keys given by [AUTOINCREMENT] *)

Lemma max_of_bound (ids : list Z) :
  (0 <= Db.max_of ids)%Z /\ forall x, List.In x ids -> (x <= Db.max_of ids)%Z.
Proof.
  induction ids as [| y rest [IH0 IH]]; simpl.
  - split; [lia | intros x []].
  - split; [lia |]. intros x [-> | Hx]; [lia |]. specialize (IH x Hx). lia.
Qed.

Lemma next_id_fresh (seq : Z) (ids : list Z) :
  (1 <= Db.next_id seq ids)%Z /\ (seq < Db.next_id seq ids)%Z /\
  forall x, List.In x ids -> (x < Db.next_id seq ids)%Z.
Proof.
  unfold Db.next_id. destruct (max_of_bound ids) as [H0 Hmax].
  repeat split; try lia. intros x Hx. specialize (Hmax x Hx). lia.
Qed.

Lemma job_ids_In (st : Db.State) (i : Z) (j : Job) :
  Db.tbl_jobs st !! i = Some j -> List.In i (Db.job_ids st).
Proof.
  intro Hj. unfold Db.job_ids. apply in_map_iff. exists (i, j).
  split; [reflexivity |]. apply list_elem_of_In. now apply elem_of_map_to_list.
Qed.

Lemma next_job_id_new (st : Db.State) :
  Db.tbl_jobs st !! Db.next_id (Db.seq_jobs st) (Db.job_ids st) = None.
Proof.
  destruct (Db.tbl_jobs st !! _) as [j |] eqn:E; [| reflexivity].
  apply job_ids_In in E.
  destruct (next_id_fresh (Db.seq_jobs st) (Db.job_ids st)) as (_ & _ & Hfresh).
  specialize (Hfresh _ E). lia.
Qed.

Lemma NoDup_map_filter {A B} (f : A -> B) (p : A -> bool) (l : list A) :
  List.NoDup (map f l) -> List.NoDup (map f (List.filter p l)).
Proof.
  induction l as [| x rest IH]; simpl; intro H; [constructor |].
  apply NoDup_cons_iff in H. destruct H as [Hx Hrest].
  destruct (p x); simpl; [| now apply IH].
  constructor; [| now apply IH].
  intro Hin. apply Hx. apply in_map_iff in Hin. destruct Hin as (y & Hy & Hin).
  apply in_map_iff. exists y. split; [exact Hy |].
  apply List.filter_In in Hin. tauto.
Qed.

(** ** The invariant of the tables *)

Ltac db_unfold :=
  unfold Db.invariant, Db.fk_ok, Db.checks_ok, Db.seqs_ok in *;
  cbn [Db.tbl_settings Db.tbl_jobs Db.seq_jobs Db.tbl_shifts Db.seq_shifts
       Db.tbl_expenses Db.seq_expenses] in *.

Lemma insert_job_inv (j : Job) (st st' : Db.State) :
  Db.insert_job j st = Db.Done st' ->
  Db.job_check j = true /\
  st' = {| Db.tbl_settings := Db.tbl_settings st;
           Db.tbl_jobs := <[Db.next_id (Db.seq_jobs st) (Db.job_ids st) := j]> (Db.tbl_jobs st);
           Db.seq_jobs := Db.next_id (Db.seq_jobs st) (Db.job_ids st);
           Db.tbl_shifts := Db.tbl_shifts st; Db.seq_shifts := Db.seq_shifts st;
           Db.tbl_expenses := Db.tbl_expenses st;
           Db.seq_expenses := Db.seq_expenses st |}.
Proof.
  unfold Db.insert_job. destruct (Db.job_check j); [| discriminate].
  intro H. injection H as <-. split; reflexivity.
Qed.

Lemma insert_job_invariant (j : Job) (st st' : Db.State) :
  Db.invariant st -> Db.insert_job j st = Db.Done st' -> Db.invariant st'.
Proof.
  intros (Hfk & Hck & Hj & Hs & Hnd) Hins.
  apply insert_job_inv in Hins. destruct Hins as [Hcheck ->].
  destruct (next_id_fresh (Db.seq_jobs st) (Db.job_ids st)) as (H1 & Hseq & _).
  db_unfold. split; [| split; [| split; [| split]]].
  - intros s Hs'. apply lookup_insert_is_Some'. right. now apply Hfk.
  - intros i j' Hl. apply lookup_insert_Some in Hl.
    destruct Hl as [[_ <-] | [_ Hl]]; [exact Hcheck | now apply (Hck i)].
  - intros i j' Hl. apply lookup_insert_Some in Hl.
    destruct Hl as [[<- _] | [_ Hl]]; [lia |]. specialize (Hj i j' Hl). lia.
  - exact Hs.
  - exact Hnd.
Qed.

Lemma insert_shift_inv (job d : Z) (h : Q) (k : string) (st st' : Db.State) :
  Db.insert_shift job d h k st = Db.Done st' ->
  is_Some (Db.tbl_jobs st !! job) /\
  st' = {| Db.tbl_settings := Db.tbl_settings st;
           Db.tbl_jobs := Db.tbl_jobs st; Db.seq_jobs := Db.seq_jobs st;
           Db.tbl_shifts :=
             Db.tbl_shifts st
             ++ [mkShift (Db.next_id (Db.seq_shifts st) (map shift_id (Db.tbl_shifts st)))
                         job d h k];
           Db.seq_shifts := Db.next_id (Db.seq_shifts st) (map shift_id (Db.tbl_shifts st));
           Db.tbl_expenses := Db.tbl_expenses st;
           Db.seq_expenses := Db.seq_expenses st |}.
Proof.
  unfold Db.insert_shift. destruct (Db.tbl_jobs st !! job) as [j |]; [| discriminate].
  intro H. injection H as <-. split; [eauto | reflexivity].
Qed.

Lemma insert_shift_invariant (job d : Z) (h : Q) (k : string) (st st' : Db.State) :
  Db.invariant st -> Db.insert_shift job d h k st = Db.Done st' -> Db.invariant st'.
Proof.
  intros (Hfk & Hck & Hj & Hs & Hnd) Hins.
  apply insert_shift_inv in Hins. destruct Hins as [Hjob ->].
  destruct (next_id_fresh (Db.seq_shifts st) (map shift_id (Db.tbl_shifts st)))
    as (H1 & Hseq & Hfresh).
  db_unfold. split; [| split; [| split; [| split]]].
  - intros s Hs'. apply in_app_or in Hs'. destruct Hs' as [Hs' | [<- | []]];
      [now apply Hfk | exact Hjob].
  - exact Hck.
  - exact Hj.
  - intros s Hs'. apply in_app_or in Hs'. destruct Hs' as [Hs' | [<- | []]].
    + specialize (Hs s Hs'). lia.
    + cbn. lia.
  - rewrite map_app. cbn. apply List.NoDup_app; [exact Hnd | repeat constructor; intros [] |].
    intros x Hx [<- | []]. specialize (Hfresh _ Hx). lia.
Qed.

Lemma insert_expense_invariant (c : string) (a : Q) (d : Z) (r : bool) (st : Db.State) :
  Db.invariant st -> Db.invariant (Db.insert_expense c a d r st).
Proof. intro Hinv. db_unfold. exact Hinv. Qed.

Lemma update_job_invariant (i : Z) (n : string) (b : Q) (r : string) (m : Q)
    (t : string) (v : Q) (a : bool) (st st' : Db.State) :
  Db.invariant st -> Db.update_job i n b r m t v a st = Db.Done st' -> Db.invariant st'.
Proof.
  intros Hinv. unfold Db.update_job.
  destruct (Db.tbl_jobs st !! i) as [old |] eqn:E; [| intro H; now injection H as <-].
  destruct (Db.job_check _) eqn:Hcheck; [| discriminate].
  intro H. injection H as <-.
  destruct Hinv as (Hfk & Hck & Hj & Hs & Hnd).
  db_unfold. split; [| split; [| split; [| split]]].
  - intros s Hs'. apply lookup_insert_is_Some'. right. now apply Hfk.
  - intros i' j' Hl. apply lookup_insert_Some in Hl.
    destruct Hl as [[_ <-] | [_ Hl]]; [exact Hcheck | now apply (Hck i')].
  - intros i' j' Hl. apply lookup_insert_Some in Hl.
    destruct Hl as [[<- _] | [_ Hl]]; [now apply (Hj i old) | now apply (Hj i' j')].
  - exact Hs.
  - exact Hnd.
Qed.

Lemma delete_job_invariant (i : Z) (st : Db.State) :
  Db.invariant st -> Db.invariant (Db.delete_job i st).
Proof.
  intros Hinv. unfold Db.delete_job.
  destruct (Db.tbl_jobs st !! i) as [old |] eqn:E; [| exact Hinv].
  destruct Hinv as (Hfk & Hck & Hj & Hs & Hnd).
  db_unfold. split; [| split; [| split; [| split]]].
  - intros s Hs'. apply List.filter_In in Hs'. destruct Hs' as [Hs' Hne].
    apply negb_true_iff, Z.eqb_neq in Hne.
    destruct (Hfk s Hs') as [j Hjob]. exists j.
    apply lookup_delete_Some. split; [congruence | exact Hjob].
  - intros i' j' Hl. apply lookup_delete_Some in Hl. now apply (Hck i').
  - intros i' j' Hl. apply lookup_delete_Some in Hl. now apply (Hj i' j').
  - intros s Hs'. apply List.filter_In in Hs'. now apply Hs.
  - now apply NoDup_map_filter.
Qed.

Lemma update_settings_invariant (c : string) (a m : bool) (st : Db.State) :
  Db.invariant st -> Db.invariant (Db.update_settings c a m st).
Proof.
  intro Hinv. unfold Db.update_settings.
  destruct (Db.tbl_settings st); [| exact Hinv].
  db_unfold. exact Hinv.
Qed.

Lemma seed_settings_invariant (st : Db.State) :
  Db.invariant st -> Db.invariant (Db.seed_settings st).
Proof.
  intro Hinv. unfold Db.seed_settings.
  destruct (Db.tbl_settings st); [exact Hinv |].
  db_unfold. exact Hinv.
Qed.

Lemma seed_jobs_invariant (st st' : Db.State) :
  Db.invariant st -> Db.seed_jobs st = Db.Done st' -> Db.invariant st'.
Proof.
  intro Hinv. unfold Db.seed_jobs.
  destruct (Nat.eqb _ 0); [| intro H; now injection H as <-].
  destruct (Db.insert_job _ st) as [st1 |] eqn:E1; [| discriminate]. cbn [Db.bind].
  intro E2. apply (insert_job_invariant _ st1 st' (insert_job_invariant _ st st1 Hinv E1) E2).
Qed.

Lemma insert_demo_shifts_invariant (dates : list Z) (st st' : Db.State) :
  Db.invariant st -> Db.insert_demo_shifts dates st = Db.Done st' -> Db.invariant st'.
Proof.
  revert st. induction dates as [| d rest IH]; intros st Hinv; simpl.
  - intro H. now injection H as <-.
  - destruct (Db.insert_shift 1 d _ _ st) as [st1 |] eqn:E1; [| discriminate]. cbn [Db.bind].
    apply IH. exact (insert_shift_invariant _ _ _ _ st st1 Hinv E1).
Qed.

Lemma init_db_invariant (clk : Db.Clock) (st st' : Db.State) :
  Db.invariant st -> Db.init_db clk st = Db.Done st' -> Db.invariant st'.
Proof.
  intro Hinv. unfold Db.init_db.
  destruct (Db.seed_jobs _) as [st1 |] eqn:E1; [| discriminate]. cbn [Db.bind].
  destruct (Db.seed_shifts clk st1) as [st2 |] eqn:E2; [| discriminate]. cbn [Db.bind].
  intro H. injection H as <-.
  assert (H1 : Db.invariant st1).
  { apply (seed_jobs_invariant _ _ (seed_settings_invariant st Hinv) E1). }
  assert (H2 : Db.invariant st2).
  { unfold Db.seed_shifts in E2. destruct (Db.tbl_shifts st1).
    - exact (insert_demo_shifts_invariant _ st1 st2 H1 E2).
    - now injection E2 as <-. }
  unfold Db.seed_expenses. destruct (Db.tbl_expenses st2); [| exact H2].
  now repeat apply insert_expense_invariant.
Qed.

Lemma fresh_invariant : Db.invariant Db.fresh.
Proof.
  unfold Db.fresh. db_unfold. split; [| split; [| split; [| split]]].
  - intros s [].
  - intros i j H. rewrite lookup_empty in H. discriminate.
  - intros i j H. rewrite lookup_empty in H. discriminate.
  - intros s [].
  - constructor.
Qed.

Lemma step_invariant (st : Db.State) (c : Db.Command) :
  Db.invariant st -> Db.invariant (Db.step st c).
Proof.
  intro Hinv. unfold Db.step.
  destruct (Db.exec c st) as [st' |] eqn:E; [| exact Hinv].
  destruct c; cbn in E.
  - exact (init_db_invariant clk st st' Hinv E).
  - exact (insert_job_invariant _ st st' Hinv E).
  - now apply (update_job_invariant _ _ _ _ _ _ _ _ st st' Hinv E).
  - injection E as <-. now apply delete_job_invariant.
  - exact (insert_shift_invariant _ _ _ _ st st' Hinv E).
  - injection E as <-. now apply insert_expense_invariant.
  - injection E as <-. now apply update_settings_invariant.
Qed.

Lemma run_all_invariant (cs : list Db.Command) (st : Db.State) :
  Db.invariant st -> Db.invariant (Db.run_all cs st).
Proof.
  unfold Db.run_all. revert st.
  induction cs as [| c rest IH]; intros st Hinv; simpl; [exact Hinv |].
  apply IH. now apply step_invariant.
Qed.

Lemma seeded_invariant : Db.invariant Sample.seeded.
Proof. exact (step_invariant Db.fresh (Db.InitDb Sample.clock_jan) fresh_invariant). Qed.

(** Whatever the pages do, starting from the tables [init_db] creates:
    every shift refers to a job of the table, every job passes the
    [CHECK] constraints on its overtime rule and differential type, keys
    are positive, bounded by their counter and, for shifts, distinct. *)
Theorem tables_keep_their_constraints (cs : list Db.Command) :
  Db.invariant (Db.run_all cs Db.fresh).
Proof. apply run_all_invariant, fresh_invariant. Qed.

(** ** Starting the application *)

Lemma insert_demo_shifts_frame (dates : list Z) (st st' : Db.State) :
  Db.insert_demo_shifts dates st = Db.Done st' ->
  Db.tbl_settings st' = Db.tbl_settings st /\
  Db.tbl_jobs st' = Db.tbl_jobs st /\
  Db.seq_jobs st' = Db.seq_jobs st /\
  Db.tbl_expenses st' = Db.tbl_expenses st /\
  Db.seq_expenses st' = Db.seq_expenses st /\
  length (Db.tbl_shifts st') = (length (Db.tbl_shifts st) + length dates)%nat.
Proof.
  revert st. induction dates as [| d rest IH]; intro st; simpl.
  - intro H. injection H as <-. repeat split. lia.
  - destruct (Db.insert_shift 1 d _ _ st) as [st1 |] eqn:E1; [| discriminate].
    cbn [Db.bind]. intro E2. apply IH in E2.
    apply insert_shift_inv in E1. destruct E1 as [_ ->].
    cbn in E2. rewrite length_app in E2. cbn in E2.
    destruct E2 as (-> & -> & -> & -> & -> & ->). repeat split. lia.
Qed.

Lemma seed_jobs_nonempty (st st' : Db.State) :
  Db.seed_jobs st = Db.Done st' ->
  size (Db.tbl_jobs st') <> 0%nat /\
  Db.tbl_settings st' = Db.tbl_settings st /\
  Db.tbl_shifts st' = Db.tbl_shifts st /\
  Db.tbl_expenses st' = Db.tbl_expenses st.
Proof.
  unfold Db.seed_jobs. destruct (Nat.eqb_spec (size (Db.tbl_jobs st)) 0) as [Hz | Hnz].
  - destruct (Db.insert_job _ st) as [st1 |] eqn:E1; [| discriminate].
    cbn [Db.bind]. intro E2.
    apply insert_job_inv in E1. destruct E1 as [_ ->].
    apply insert_job_inv in E2. destruct E2 as [_ ->]. cbn.
    repeat split. eapply map_size_ne_0_lookup_2.
    rewrite lookup_insert_eq. eauto.
  - intro H. injection H as <-. now repeat split.
Qed.

(** A start that succeeded leaves nothing for the next start to do:
    [init_db] run again, at any later date, changes nothing. *)
Theorem init_db_idempotent (clk clk' : Db.Clock) (st st' : Db.State) :
  Db.init_db clk st = Db.Done st' -> Db.init_db clk' st' = Db.Done st'.
Proof.
  unfold Db.init_db at 1.
  destruct (Db.seed_jobs (Db.seed_settings st)) as [st1 |] eqn:E1; [| discriminate].
  cbn [Db.bind].
  destruct (Db.seed_shifts clk st1) as [st2 |] eqn:E2; [| discriminate].
  cbn [Db.bind]. intro H. injection H as <-.
  apply seed_jobs_nonempty in E1. destruct E1 as (Hjobs & Hset1 & _ & _).
  assert (Hset : is_Some (Db.tbl_settings st1)).
  { rewrite Hset1. unfold Db.seed_settings.
    destruct (Db.tbl_settings st) eqn:E; cbn; eauto. }
  assert (H2 : Db.tbl_settings st2 = Db.tbl_settings st1 /\
               Db.tbl_jobs st2 = Db.tbl_jobs st1 /\
               Db.tbl_shifts st2 <> []).
  { unfold Db.seed_shifts in E2. destruct (Db.tbl_shifts st1) as [| s rest] eqn:Es.
    - apply insert_demo_shifts_frame in E2.
      destruct E2 as (-> & -> & _ & _ & _ & Hlen). repeat split.
      intro Hnil. rewrite Hnil, Es in Hlen. cbn in Hlen. lia.
    - injection E2 as <-. rewrite Es. repeat split. discriminate. }
  destruct H2 as (Hs2 & Hj2 & Hsh2).
  set (st3 := Db.seed_expenses clk st2).
  assert (H3 : Db.tbl_settings st3 = Db.tbl_settings st2 /\
               Db.tbl_jobs st3 = Db.tbl_jobs st2 /\
               Db.tbl_shifts st3 = Db.tbl_shifts st2 /\
               Db.tbl_expenses st3 <> []).
  { unfold st3, Db.seed_expenses. destruct (Db.tbl_expenses st2) as [| x rest] eqn:Ex.
    - cbn. rewrite Ex. repeat split. discriminate.
    - rewrite Ex. repeat split. discriminate. }
  destruct H3 as (Hs3 & Hj3 & Hsh3 & Hex3).
  unfold Db.init_db.
  assert (Hseed : Db.seed_settings st3 = st3).
  { unfold Db.seed_settings. rewrite Hs3, Hs2. now destruct Hset as [row ->]. }
  rewrite Hseed. unfold Db.seed_jobs.
  rewrite Hj3, Hj2. apply Nat.eqb_neq in Hjobs. rewrite Hjobs. cbn [Db.bind].
  unfold Db.seed_shifts. rewrite Hsh3.
  destruct (Db.tbl_shifts st2) as [| s rest]; [contradiction |]. cbn [Db.bind].
  unfold Db.seed_expenses.
  destruct (Db.tbl_expenses st3) as [| x rest']; [contradiction | reflexivity].
Qed.

Lemma init_db_idempotent_witness :
  Db.init_db Sample.clock_jan Sample.seeded = Db.Done Sample.seeded.
Proof.
  apply (init_db_idempotent Sample.clock_jan Sample.clock_jan Db.fresh).
  vm_compute. reflexivity.
Defined.

Lemma delete_job_state (i : Z) (st : Db.State) :
  Db.tbl_jobs (Db.delete_job i st) = delete i (Db.tbl_jobs st) /\
  Db.seq_jobs (Db.delete_job i st) = Db.seq_jobs st /\
  Db.tbl_settings (Db.delete_job i st) = Db.tbl_settings st /\
  Db.tbl_expenses (Db.delete_job i st) = Db.tbl_expenses st /\
  (Db.fk_ok st ->
   Db.tbl_shifts (Db.delete_job i st)
   = List.filter (fun s => negb (Z.eqb (job_id s) i)) (Db.tbl_shifts st)).
Proof.
  unfold Db.delete_job. destruct (Db.tbl_jobs st !! i) as [j |] eqn:E; cbn.
  - repeat split.
  - repeat split.
    + symmetry. now apply delete_id.
    + intro Hfk. symmetry. apply filter_all. intros s Hs.
      apply negb_true_iff, Z.eqb_neq. intro Heq.
      destruct (Hfk s Hs) as [j Hj]. congruence.
Qed.

Lemma seed_settings_frame (st : Db.State) :
  Db.tbl_jobs (Db.seed_settings st) = Db.tbl_jobs st /\
  Db.seq_jobs (Db.seed_settings st) = Db.seq_jobs st /\
  Db.tbl_shifts (Db.seed_settings st) = Db.tbl_shifts st /\
  Db.tbl_expenses (Db.seed_settings st) = Db.tbl_expenses st.
Proof. unfold Db.seed_settings. now destruct (Db.tbl_settings st). Qed.

(** The jobs after the seeding step hold no job 1 when the table had
    none and the counter is past 1. *)
Lemma seed_jobs_without_job_1 (st st1 : Db.State) :
  Db.tbl_jobs st !! 1%Z = None -> (1 <= Db.seq_jobs st)%Z ->
  Db.seed_jobs st = Db.Done st1 ->
  Db.tbl_jobs st1 !! 1%Z = None /\ Db.tbl_shifts st1 = Db.tbl_shifts st.
Proof.
  intros Hno Hseq. unfold Db.seed_jobs. destruct (Nat.eqb (size _) 0).
  - destruct (Db.insert_job _ st) as [sa |] eqn:Ea; [| discriminate].
    cbn [Db.bind]. intro Eb.
    apply insert_job_inv in Ea. destruct Ea as [_ ->].
    apply insert_job_inv in Eb. destruct Eb as [_ ->].
    cbn [Db.tbl_jobs Db.tbl_shifts Db.seq_jobs]. split; [| reflexivity].
    destruct (next_id_fresh (Db.seq_jobs st) (Db.job_ids st)) as (_ & Ha & _).
    set (a := Db.next_id (Db.seq_jobs st) (Db.job_ids st)) in *.
    match goal with
    | |- <[?b := _]> _ !! _ = None =>
        destruct (next_id_fresh a
          (Db.job_ids {| Db.tbl_settings := Db.tbl_settings st;
                         Db.tbl_jobs := <[a := mkJob "RN - Staff" 38 "weekly_40" (3 # 2) "percent" 10 true]> (Db.tbl_jobs st);
                         Db.seq_jobs := a;
                         Db.tbl_shifts := Db.tbl_shifts st;
                         Db.seq_shifts := Db.seq_shifts st;
                         Db.tbl_expenses := Db.tbl_expenses st;
                         Db.seq_expenses := Db.seq_expenses st |}))
          as (_ & Hb & _)
    end.
    rewrite !lookup_insert_ne by lia. exact Hno.
  - intro H. injection H as <-. now split.
Qed.

Lemma seed_jobs_succeeds (st : Db.State) : exists st1, Db.seed_jobs st = Db.Done st1.
Proof.
  unfold Db.seed_jobs. destruct (Nat.eqb (size _) 0); eauto.
Qed.

Lemma filter_own_shifts (i : Z) (l : list Shift) :
  (forall s, List.In s l -> job_id s = i) ->
  List.filter (fun s => negb (Z.eqb (job_id s) i)) l = [].
Proof.
  induction l as [| s rest IH]; intro Hall; [reflexivity |].
  cbn. rewrite (Hall s (or_introl eq_refl)), Z.eqb_refl. cbn.
  apply IH. intros s' Hs'. apply Hall. now right.
Qed.

(** Deleting job 1 while every shift is its own (as after the first
    start, whose demo shifts all belong to job 1) breaks every later
    start: the shifts are gone with the job, [init_db] seeds its demo
    shifts for job 1 again, and the foreign key raises [IntegrityError];
    nothing is committed, so the next start fails the same way. *)
Theorem deleting_job_1_breaks_startup (st : Db.State) (j : Job) (clk : Db.Clock) :
  Db.invariant st ->
  Db.tbl_jobs st !! 1%Z = Some j ->
  (forall s, List.In s (Db.tbl_shifts st) -> job_id s = 1%Z) ->
  let st' := Db.step st (Db.DeleteJob 1) in
  Db.tbl_shifts st' = [] /\
  Db.init_db clk st' = Db.Fail Db.IntegrityError /\
  Db.step st' (Db.InitDb clk) = st'.
Proof.
  intros Hinv Hjob Hall st'.
  assert (Hst' : st' = Db.delete_job 1 st) by reflexivity.
  destruct (delete_job_state 1 st) as (Hjobs & Hseq & _ & _ & Hshifts).
  specialize (Hshifts (proj1 Hinv)).
  assert (Hnone : Db.tbl_shifts st' = []).
  { rewrite Hst', Hshifts. now apply filter_own_shifts. }
  assert (Hfail : Db.init_db clk st' = Db.Fail Db.IntegrityError).
  { unfold Db.init_db.
    destruct (seed_settings_frame st') as (Hj' & Hq' & Hs' & _).
    destruct (seed_jobs_succeeds (Db.seed_settings st')) as [st1 E1].
    rewrite E1. cbn [Db.bind].
    destruct (seed_jobs_without_job_1 (Db.seed_settings st') st1) as [Hno Hsh].
    - rewrite Hj', Hst', Hjobs. apply lookup_delete_eq.
    - rewrite Hq', Hst', Hseq.
      destruct Hinv as (_ & _ & Hbound & _). now apply (Hbound 1%Z j).
    - exact E1.
    - unfold Db.seed_shifts. rewrite Hsh, Hs', Hnone.
      unfold Db.demo_dates. cbn [map Db.insert_demo_shifts].
      unfold Db.insert_shift at 1. rewrite Hno. reflexivity. }
  split; [exact Hnone |]. split; [exact Hfail |].
  unfold Db.step. cbn [Db.exec]. now rewrite Hfail.
Qed.

Lemma deleting_job_1_breaks_startup_witness :
  Db.init_db Sample.clock_jan (Db.step Sample.seeded (Db.DeleteJob 1))
  = Db.Fail Db.IntegrityError.
Proof.
  assert (Hinv : Db.invariant Sample.seeded).
  { exact seeded_invariant. }
  apply (deleting_job_1_breaks_startup Sample.seeded
           (mkJob "RN - Staff" 38 "weekly_40" (3 # 2) "percent" 10 true)
           Sample.clock_jan Hinv).
  - vm_compute. reflexivity.
  - intros s Hs. vm_compute in Hs.
    repeat (destruct Hs as [<- | Hs]; [reflexivity |]). destruct Hs.
Defined.

(** ** Keys are not given twice *)

Lemma seed_jobs_seq (st st' : Db.State) :
  Db.seed_jobs st = Db.Done st' -> (Db.seq_jobs st <= Db.seq_jobs st')%Z.
Proof.
  unfold Db.seed_jobs. destruct (Nat.eqb (size _) 0).
  - destruct (Db.insert_job _ st) as [sa |] eqn:Ea; [| discriminate].
    cbn [Db.bind]. intro Eb.
    apply insert_job_inv in Ea. destruct Ea as [_ ->].
    apply insert_job_inv in Eb. destruct Eb as [_ ->]. cbn [Db.seq_jobs].
    destruct (next_id_fresh (Db.seq_jobs st) (Db.job_ids st)) as (_ & Ha & _).
    match goal with
    | |- (_ <= Db.next_id ?a ?ids)%Z =>
        destruct (next_id_fresh a ids) as (_ & Hb & _)
    end.
    lia.
  - intro H. injection H as <-. lia.
Qed.

Lemma step_seq_jobs (st : Db.State) (c : Db.Command) :
  (Db.seq_jobs st <= Db.seq_jobs (Db.step st c))%Z.
Proof.
  unfold Db.step. destruct (Db.exec c st) as [st' |] eqn:E; [| lia].
  destruct c; cbn [Db.exec] in E.
  - unfold Db.init_db in E.
    destruct (Db.seed_jobs _) as [st1 |] eqn:E1; [| discriminate]. cbn [Db.bind] in E.
    destruct (Db.seed_shifts clk st1) as [st2 |] eqn:E2; [| discriminate].
    cbn [Db.bind] in E. injection E as <-.
    apply seed_jobs_seq in E1.
    destruct (seed_settings_frame st) as (_ & Hq & _). rewrite Hq in E1.
    assert (H2 : Db.seq_jobs st2 = Db.seq_jobs st1).
    { unfold Db.seed_shifts in E2. destruct (Db.tbl_shifts st1).
      - now apply insert_demo_shifts_frame in E2.
      - now injection E2 as <-. }
    assert (H3 : Db.seq_jobs (Db.seed_expenses clk st2) = Db.seq_jobs st2).
    { unfold Db.seed_expenses. now destruct (Db.tbl_expenses st2). }
    lia.
  - apply insert_job_inv in E. destruct E as [_ ->]. cbn [Db.seq_jobs].
    destruct (next_id_fresh (Db.seq_jobs st) (Db.job_ids st)) as (_ & Ha & _). lia.
  - unfold Db.update_job in E. destruct (Db.tbl_jobs st !! job).
    + destruct (Db.job_check _); [| discriminate]. injection E as <-. cbn. lia.
    + injection E as <-. lia.
  - injection E as <-. destruct (delete_job_state job st) as (_ & -> & _). lia.
  - apply insert_shift_inv in E. destruct E as [_ ->]. cbn. lia.
  - injection E as <-. cbn. lia.
  - injection E as <-. unfold Db.update_settings.
    destruct (Db.tbl_settings st); cbn; lia.
Qed.

Lemma run_all_seq_jobs (cs : list Db.Command) (st : Db.State) :
  (Db.seq_jobs st <= Db.seq_jobs (Db.run_all cs st))%Z.
Proof.
  unfold Db.run_all. revert st.
  induction cs as [| c rest IH]; intro st; simpl; [lia |].
  pose proof (step_seq_jobs st c). specialize (IH (Db.step st c)). lia.
Qed.

(** A job added later never takes the key of an earlier job, deleted or
    not: its key is larger than every key any earlier state held. *)
Theorem job_ids_never_reused (st st2 : Db.State) (cs : list Db.Command)
    (n : string) (b : Q) (r : string) (m : Q) (t : string) (v : Q) (a : bool) :
  Db.invariant st ->
  Db.add_job n b r m t v a (Db.run_all cs st) = Db.Done st2 ->
  exists id,
    Db.tbl_jobs st2 = <[id := mkJob n b r m t v a]> (Db.tbl_jobs (Db.run_all cs st)) /\
    Db.tbl_jobs (Db.run_all cs st) !! id = None /\
    forall i j, Db.tbl_jobs st !! i = Some j -> (i < id)%Z.
Proof.
  intros Hinv Hadd. unfold Db.add_job in Hadd.
  apply insert_job_inv in Hadd. destruct Hadd as [_ ->].
  set (st1 := Db.run_all cs st) in *.
  exists (Db.next_id (Db.seq_jobs st1) (Db.job_ids st1)).
  split; [reflexivity |]. split; [apply next_job_id_new |].
  intros i j Hj. destruct Hinv as (_ & _ & Hbound & _).
  destruct (Hbound i j Hj) as [_ Hle].
  pose proof (run_all_seq_jobs cs st) as Hmono. fold st1 in Hmono.
  destruct (next_id_fresh (Db.seq_jobs st1) (Db.job_ids st1)) as (_ & Hnew & _).
  lia.
Qed.

Lemma job_ids_never_reused_witness :
  exists id,
    Db.tbl_jobs (Db.run_all [Db.DeleteJob 2; Db.AddJob "RN - Travel" 70 "weekly_40"
                                (3 # 2) "percent" 10 true] Sample.seeded) !! id
      = Some (mkJob "RN - Travel" 70 "weekly_40" (3 # 2) "percent" 10 true) /\
    (2 < id)%Z.
Proof.
  assert (Hinv : Db.invariant Sample.seeded).
  { exact seeded_invariant. }
  destruct (job_ids_never_reused Sample.seeded
              (Db.run_all [Db.DeleteJob 2; Db.AddJob "RN - Travel" 70 "weekly_40"
                             (3 # 2) "percent" 10 true] Sample.seeded)
              [Db.DeleteJob 2] "RN - Travel" 70 "weekly_40" (3 # 2) "percent" 10 true
              Hinv eq_refl) as (id & Hjobs & _ & Hnew).
  exists id. split.
  - rewrite Hjobs. apply lookup_insert_eq.
  - apply (Hnew 2%Z Sample.prn). vm_compute. reflexivity.
Defined.

(** ** Deleting a job *)

(** [delete_job] takes the shifts of the job with it and nothing else:
    the job is gone, the shifts left are exactly those of the other jobs,
    the other jobs and the expenses are untouched, and a shift can no
    longer be added for the deleted job. *)
Theorem deleted_job_takes_its_shifts (st : Db.State) (i : Z) :
  Db.fk_ok st ->
  let st' := Db.delete_job i st in
  Db.tbl_jobs st' !! i = None /\
  (forall k, k <> i -> Db.tbl_jobs st' !! k = Db.tbl_jobs st !! k) /\
  (forall s, List.In s (Db.tbl_shifts st') <->
             List.In s (Db.tbl_shifts st) /\ job_id s <> i) /\
  Db.tbl_expenses st' = Db.tbl_expenses st /\
  Db.fk_ok st' /\
  (forall d h k, Db.add_shift i d h k st' = Db.Fail Db.IntegrityError).
Proof.
  intros Hfk st'.
  destruct (delete_job_state i st) as (Hjobs & _ & _ & Hexp & Hshifts).
  specialize (Hshifts Hfk). fold st' in Hjobs, Hexp, Hshifts.
  assert (Hgone : Db.tbl_jobs st' !! i = None)
    by (rewrite Hjobs; apply lookup_delete_eq).
  assert (Hin : forall s, List.In s (Db.tbl_shifts st') <->
                          List.In s (Db.tbl_shifts st) /\ job_id s <> i).
  { intro s. rewrite Hshifts, List.filter_In, negb_true_iff, Z.eqb_neq. reflexivity. }
  split; [exact Hgone |]. split; [| split; [exact Hin | split; [exact Hexp | split]]].
  - intros k Hk. rewrite Hjobs. now apply lookup_delete_ne.
  - intros s Hs. apply Hin in Hs. destruct Hs as [Hs Hne].
    rewrite Hjobs, lookup_delete_ne by congruence. now apply Hfk.
  - intros d h k. unfold Db.add_shift, Db.insert_shift. now rewrite Hgone.
Qed.

Lemma deleted_job_takes_its_shifts_witness :
  Db.tbl_shifts (Db.delete_job 1 Sample.seeded) = [] /\
  Db.add_shift 1 738895 8 "Day" (Db.delete_job 1 Sample.seeded)
    = Db.Fail Db.IntegrityError.
Proof.
  assert (Hinv : Db.invariant Sample.seeded).
  { exact seeded_invariant. }
  destruct (deleted_job_takes_its_shifts Sample.seeded 1 (proj1 Hinv))
    as (_ & _ & _ & _ & _ & Hadd).
  split; [vm_compute; reflexivity | apply Hadd].
Defined.

(** ** Settings *)

Lemma init_db_settings (clk : Db.Clock) (st st' : Db.State) :
  Db.init_db clk st = Db.Done st' -> is_Some (Db.tbl_settings st').
Proof.
  unfold Db.init_db.
  destruct (Db.seed_jobs (Db.seed_settings st)) as [st1 |] eqn:E1; [| discriminate].
  cbn [Db.bind].
  destruct (Db.seed_shifts clk st1) as [st2 |] eqn:E2; [| discriminate].
  cbn [Db.bind]. intro H. injection H as <-.
  apply seed_jobs_nonempty in E1. destruct E1 as (_ & Hset1 & _ & _).
  assert (H2 : Db.tbl_settings st2 = Db.tbl_settings st1).
  { unfold Db.seed_shifts in E2. destruct (Db.tbl_shifts st1).
    - now apply insert_demo_shifts_frame in E2.
    - now injection E2 as <-. }
  assert (H3 : Db.tbl_settings (Db.seed_expenses clk st2) = Db.tbl_settings st2).
  { unfold Db.seed_expenses. now destruct (Db.tbl_expenses st2). }
  rewrite H3, H2, Hset1. unfold Db.seed_settings.
  destruct (Db.tbl_settings st) eqn:E; cbn; eauto.
Qed.

(** After a successful start, [get_settings] returns what
    [update_settings] was last given; on tables that never saw
    [init_db] the update writes nothing and [get_settings] raises. *)
Theorem settings_round_trip (clk : Db.Clock) (st st1 : Db.State)
    (c : string) (a m : bool) :
  (Db.init_db clk st = Db.Done st1 ->
   Db.get_settings (Db.update_settings c a m st1) = Db.Done (mkSettings c a m)) /\
  (Db.tbl_settings st = None ->
   Db.update_settings c a m st = st /\ Db.get_settings st = Db.Fail Db.TypeError).
Proof.
  split.
  - intro Hinit. apply init_db_settings in Hinit. destruct Hinit as [row Hrow].
    unfold Db.update_settings, Db.get_settings. rewrite Hrow. cbn.
    now destruct a, m.
  - intro Hnone. unfold Db.update_settings, Db.get_settings. now rewrite Hnone.
Qed.

Lemma settings_round_trip_witness :
  Db.get_settings (Db.update_settings "EUR" false true Sample.seeded)
  = Db.Done (mkSettings "EUR" false true).
Proof.
  apply (proj1 (settings_round_trip Sample.clock_jan Db.fresh Sample.seeded
                  "EUR" false true)).
  vm_compute. reflexivity.
Defined.

(** ** The shifts pages against the dashboard *)

Lemma join_jobs_ids (st : Db.State) :
  Db.fk_ok st -> map Db.l_id (Db.join_jobs st) = map shift_id (Db.tbl_shifts st).
Proof.
  unfold Db.fk_ok, Db.join_jobs.
  induction (Db.tbl_shifts st) as [| s rest IH]; intro Hfk; [reflexivity |].
  cbn [flat_map map]. destruct (Hfk s (or_introl eq_refl)) as [j ->].
  cbn. f_equal. apply IH. intros s' Hs'. apply Hfk. now right.
Qed.

(** Under referential integrity the query of [page_shifts] and
    [page_export] lists every shift of the table exactly once, latest
    date first, whether its job is active or not. *)
Theorem shift_pages_list_every_shift (st : Db.State) :
  Db.fk_ok st ->
  Permutation (map Db.l_id (Db.shifts_with_jobs st)) (map shift_id (Db.tbl_shifts st)) /\
  StronglySorted (fun a b => (Db.l_shift_date b <= Db.l_shift_date a)%Z)
                 (Db.shifts_with_jobs st).
Proof.
  intro Hfk. unfold Db.shifts_with_jobs. split.
  - rewrite <- (join_jobs_ids st Hfk).
    apply Permutation_map, order_by_permutation.
  - pose proof (order_by_sorted (fun l => (- Db.l_shift_date l)%Z) (Db.join_jobs st))
      as Hsorted.
    induction Hsorted as [| x rest _ IH Hall]; constructor; [exact IH |].
    eapply List.Forall_impl; [| exact Hall]. cbn. intros y Hy. lia.
Qed.

Lemma shift_pages_list_every_shift_witness :
  Permutation (map Db.l_id (Db.shifts_with_jobs Sample.seeded))
              (map shift_id (Db.tbl_shifts Sample.seeded)).
Proof.
  apply shift_pages_list_every_shift.
  exact (proj1 seeded_invariant).
Defined.

Lemma has_job_active (st : Db.State) (clock : Z) (s : Shift) :
  has_job (handle (Db.world_of st clock) (ListJobs true)) s = Db.job_active st s.
Proof.
  unfold has_job, Db.job_active. cbn [handle Db.world_of db_jobs].
  destruct (Db.tbl_jobs st !! job_id s) as [j |] eqn:E.
  - destruct (active j) eqn:Ea.
    + erewrite map_lookup_filter_Some_2; [reflexivity | exact E | exact Ea].
    + destruct (filter _ _ !! job_id s) as [j' |] eqn:E'; [| reflexivity].
      apply map_lookup_filter_Some in E'. destruct E' as [E' Ha].
      cbn in Ha. congruence.
  - destruct (filter _ _ !! job_id s) as [j' |] eqn:E'; [| reflexivity].
    apply map_lookup_filter_Some in E'. destruct E' as [E' _]. congruence.
Qed.

Lemma engine_rows (st : Db.State) (clock : Z) :
  map (fun o => r_shift (o_row o)) (f_shifts (financials_of (Db.world_of st clock)))
  = List.filter (Db.job_active st) (Frame.order_by shift_date (Db.tbl_shifts st)).
Proof.
  rewrite <- (map_map o_row r_shift), financials_rows, rows_of_shifts.
  cbn [handle Db.world_of db_shifts].
  apply filter_ext. intro s. apply (has_job_active st clock).
Qed.

(** The dashboard shows the shifts of active jobs only: its per-shift
    rows are the shifts, by date, whose job is active; a shift of a job
    switched to inactive drops out of every figure although the shifts
    pages still list it. With every job active (and referential
    integrity) there is one row per shift. *)
Theorem dashboard_rows_are_active_shifts (st : Db.State) (clock : Z) (settings : Settings) :
  exists f,
    run (Db.world_of st clock) (compute_financials settings) = Ok f /\
    map (fun o => r_shift (o_row o)) (f_shifts f)
      = List.filter (Db.job_active st) (Frame.order_by shift_date (Db.tbl_shifts st)) /\
    (Db.fk_ok st ->
     (forall i j, Db.tbl_jobs st !! i = Some j -> active j = true) ->
     map (fun o => r_shift (o_row o)) (f_shifts f)
       = Frame.order_by shift_date (Db.tbl_shifts st)).
Proof.
  exists (financials_of (Db.world_of st clock)).
  split; [apply run_compute_financials |]. split; [apply engine_rows |].
  intros Hfk Hactive. rewrite engine_rows. apply filter_all.
  intros s Hs. apply (proj1 (order_by_In shift_date s (Db.tbl_shifts st))) in Hs.
  unfold Db.job_active. destruct (Hfk s Hs) as [j Hj]. rewrite Hj.
  now apply (Hactive (job_id s)).
Qed.

Lemma dashboard_rows_are_active_shifts_witness :
  exists f,
    run (Db.world_of Sample.seeded 738895) (compute_financials Sample.settings) = Ok f /\
    map (fun o => r_shift (o_row o)) (f_shifts f)
      = Frame.order_by shift_date (Db.tbl_shifts Sample.seeded).
Proof.
  destruct (dashboard_rows_are_active_shifts Sample.seeded 738895 Sample.settings)
    as (f & Hrun & _ & Hall).
  exists f. split; [exact Hrun |]. apply Hall.
  - exact (proj1 seeded_invariant).
  - intros i j Hj.
    assert (Hi : (1 <= i <= 2)%Z).
    { pose proof seeded_invariant as (_ & _ & Hbound & _).
      apply (Hbound i j Hj). }
    assert (Hcases : i = 1%Z \/ i = 2%Z) by lia.
    destruct Hcases as [-> | ->]; vm_compute in Hj; injection Hj as <-; reflexivity.
Defined.

(** Whatever the pages did to the tables, the engine only ever meets the
    two overtime rules and the two differential types of the [CHECK]
    constraints: the fall-through branches of [calc_differential] and
    [calc_shift_earnings] are never taken on the application's data. *)
Theorem engine_meets_only_checked_jobs (cs : list Db.Command) (clock : Z)
    (settings : Settings) :
  exists f,
    run (Db.world_of (Db.run_all cs Db.fresh) clock) (compute_financials settings) = Ok f /\
    forall o, List.In o (f_shifts f) ->
      (ot_rule (r_job (o_row o)) = "weekly_40"%string \/
       ot_rule (r_job (o_row o)) = "daily_8"%string) /\
      (diff_type (r_job (o_row o)) = "percent"%string \/
       diff_type (r_job (o_row o)) = "fixed"%string).
Proof.
  set (st := Db.run_all cs Db.fresh).
  exists (financials_of (Db.world_of st clock)).
  split; [apply run_compute_financials |].
  intros o Ho. apply shifts_out_have_job in Ho. destruct Ho as [_ Hjob].
  cbn [handle Db.world_of db_jobs] in Hjob.
  apply map_lookup_filter_Some in Hjob. destruct Hjob as [Hjob _].
  pose proof (run_all_invariant cs Db.fresh fresh_invariant) as (_ & Hck & _).
  specialize (Hck _ _ Hjob). unfold Db.job_check in Hck.
  apply andb_true_iff in Hck. destruct Hck as [Hrule Htype].
  apply orb_true_iff in Hrule, Htype.
  split.
  - destruct Hrule as [H | H]; apply String.eqb_eq in H; auto.
  - destruct Htype as [H | H]; apply String.eqb_eq in H; auto.
Qed.
